(** * itch-scraper: a shallow embedding of [scraper.py] and [app.py]

    The scraping engine ([scraper.py]) and the web front end ([app.py]: its
    handlers, its background task and the job-progress callback) are
    embedded as Rocq functions.  Network, file
    system, logging and the progress callback are effects: they are threaded
    through a small state-and-exception monad whose state is the trace of
    effects performed so far plus the state owned by the callback.

    One run of [scrape_creator] is one task: its coroutines are awaited one
    after the other, and the semaphore it creates (capacity 6) has this task
    as only client, so that [async with sem] never waits and is left out.
    The [while True] loop of [fetch_project_urls] takes fuel. *)

From Stdlib Require Import Ascii String ZArith Lia DecimalString DecimalNat.
From stdpp Require Import base list strings gmap.

Local Open Scope list_scope.
Local Open Scope stdpp_scope.

Set Warnings "-register-all,-clear-no-such-hyp".

(** ** Python [str] operations used by the sources

    A Python [str] is modelled as the Rocq [string] of its UTF-8 bytes.
    Splitting, joining, searching and replacing with ASCII arguments act on
    these bytes as Python acts on the characters.  The operations that
    classify characters (whitespace, case, digits) are those of Python on
    ASCII text: a statement that rests on them is made for text that
    satisfies [isascii]. *)

Module Py.

(** [c in s], for a one-character [c]. *)
Fixpoint contains (c : ascii) (s : string) : bool :=
  match s with
  | EmptyString => false
  | String a s' => if Ascii.eqb a c then true else contains c s'
  end.

(** [s.split(c)] for a one-character separator: never the empty list. *)
Fixpoint split (c : ascii) (s : string) : list string :=
  match s with
  | EmptyString => [EmptyString]
  | String a s' =>
      if Ascii.eqb a c then EmptyString :: split c s'
      else match split c s' with
           | h :: t => String a h :: t
           | [] => [String a EmptyString]
           end
  end.

(** [c.join(parts)]. *)
Fixpoint join (c : ascii) (parts : list string) : string :=
  match parts with
  | [] => EmptyString
  | [p] => p
  | p :: rest => p +:+ String c (join c rest)
  end.

(** [s.rsplit(c, 1)]: cut at the last occurrence of [c], if any. *)
Definition rsplit1 (c : ascii) (s : string) : list string :=
  match rev (split c s) with
  | tl :: (_ :: _) as rest => [join c (rev rest); tl]
  | _ => [s]
  end.

(** [l[0]] and [l[-1]] on a list of strings.  Both are applied to results
    of [split] and [rsplit1] only, which are never empty (lemmas
    [split_nonempty] and [rsplit1_nonempty]), so that the [IndexError] of
    Python cannot occur and the default is never returned. *)
Definition first (l : list string) : string := hd EmptyString l.
Definition last (l : list string) : string := List.last l EmptyString.

(** [s.rstrip(c)] for a one-character set. *)
Fixpoint rstrip (c : ascii) (s : string) : string :=
  match s with
  | EmptyString => EmptyString
  | String a s' =>
      match rstrip c s' with
      | EmptyString => if Ascii.eqb a c then EmptyString else String a EmptyString
      | r => String a r
      end
  end.

(** [str.isspace] on one ASCII character: tab, newline, vertical tab, form
    feed, carriage return, the four separators 0x1c-0x1f and the space. *)
Definition isspace (a : ascii) : bool :=
  let n := nat_of_ascii a in
  ((9 <=? n)%nat && (n <=? 13)%nat) || ((28 <=? n)%nat && (n <=? 32)%nat).

(** [re.sub(r"\s+", " ", s)]: every maximal run of whitespace becomes one
    space.  [in_run] tells that the previous character was whitespace. *)
Fixpoint sub_spaces_go (in_run : bool) (s : string) : string :=
  match s with
  | EmptyString => EmptyString
  | String a s' =>
      if isspace a
      then (if in_run then sub_spaces_go true s'
            else String " "%char (sub_spaces_go true s'))
      else String a (sub_spaces_go false s')
  end.
Definition sub_spaces (s : string) : string := sub_spaces_go false s.

(** [s.lstrip()], [s.rstrip()] and [s.strip()] without argument. *)
Fixpoint lstrip_ws (s : string) : string :=
  match s with
  | EmptyString => EmptyString
  | String a s' => if isspace a then lstrip_ws s' else s
  end.
Fixpoint rstrip_ws (s : string) : string :=
  match s with
  | EmptyString => EmptyString
  | String a s' =>
      match rstrip_ws s' with
      | EmptyString => if isspace a then EmptyString else String a EmptyString
      | r => String a r
      end
  end.
Definition strip (s : string) : string := rstrip_ws (lstrip_ws s).

(** [s.startswith(p)]. *)
Definition startswith (p s : string) : bool := String.prefix p s.

(** [s.replace(old, new)]: all non-overlapping occurrences, left to right.
    [skip] counts the characters of a matched occurrence still to drop.
    For the empty [old] Python puts [new] before every character and at
    the end. *)
Fixpoint replace_go (old new : string) (skip : nat) (s : string) : string :=
  match s with
  | EmptyString => EmptyString
  | String a s' =>
      match skip with
      | S k => replace_go old new k s'
      | O => if String.prefix old s
             then new +:+ replace_go old new (String.length old - 1) s'
             else String a (replace_go old new 0 s')
      end
  end.
Fixpoint interleave (new s : string) : string :=
  match s with
  | EmptyString => new
  | String a s' => new +:+ String a (interleave new s')
  end.
Definition replace (old new s : string) : string :=
  match old with
  | EmptyString => interleave new s
  | _ => replace_go old new 0 s
  end.

(** [str(n)] for a non-negative [int]. *)
Definition str_of_nat (n : nat) : string :=
  DecimalString.NilZero.string_of_uint (Nat.to_uint n).

(** Truthiness of a [str] and of an optional [str]. *)
Definition truthy (s : string) : bool :=
  match s with EmptyString => false | _ => true end.
Definition truthy_opt (o : option string) : bool :=
  match o with Some s => truthy s | None => false end.

(** [s.isascii()]. *)
Fixpoint isascii (s : string) : bool :=
  match s with
  | EmptyString => true
  | String a s' => (nat_of_ascii a <? 128)%nat && isascii s'
  end.

End Py.

(** ** [_ext_from_url] and [_clean] *)

Definition _ext_from_url (url : string) : string :=
  let path := Py.first (Py.split "?"%char url) in
  if Py.contains "."%char (Py.last (Py.split "/"%char path))
  then "." +:+ Py.last (Py.rsplit1 "."%char (Py.last (Py.split "/"%char path)))
  else ".jpg".

Definition _clean (text : option string) : string :=
  if negb (Py.truthy_opt text) then ""
  else Py.strip (Py.sub_spaces (default "" text)).


(** ** Parsed pages

    A parsed document is what BeautifulSoup gives back: an element has its
    text, its single-valued attributes, the list held by its multi-valued
    [class] attribute, and answers CSS selections with the matching
    descendants in document order.  A [Tag] object is always truthy. *)

Inductive Tag : Type := mkTag {
  get_text : string;
  attrs : gmap string string;
  classes : list string;
  select : string -> list Tag }.

(** [el.select_one(css)]: the first match, or [None]. *)
Definition select_one (el : Tag) (css : string) : option Tag := head (select el css).

(** [el.get(key)] and [el.get(key, dflt)]. *)
Definition tag_get (el : Tag) (key : string) : option string := attrs el !! key.
Definition tag_get_default (el : Tag) (key dflt : string) : string :=
  default dflt (attrs el !! key).

(** A double quote, and the attribute selectors [tag[attr="value"]] of the
    source. *)
Definition dq : string := String "034"%char EmptyString.
Definition attr_css (tag attr value : string) : string :=
  tag +:+ "[" +:+ attr +:+ "=" +:+ dq +:+ value +:+ dq +:+ "]".

(** ** Paths, JSON documents, records *)

(** A [pathlib.Path] as its sequence of components.  [p / s] appends the
    components of [s]; empty and [.] components are dropped, as pathlib does.
    Every [s] joined by the sources is relative. *)
Definition Path : Type := list string.

Definition parts (s : string) : list string :=
  List.filter (fun c => negb (String.eqb c "") && negb (String.eqb c "."))
              (Py.split "/"%char s).
Definition joinpath (p : Path) (s : string) : Path := p ++ parts s.
Definition parent (p : Path) : Path := removelast p.

Inductive json : Type :=
| JNull
| JStr (s : string)
| JInt (n : Z)
| JList (l : list json)
| JDict (kv : list (string * json)).

(** The [metadata] dict of [scrape_project]. *)
Record ProjectRecord : Type := {
  url : string;
  title : string;
  slug : string;
  short_description : string;
  description : string;
  tags : list string;
  info : list (string * string);
  price : string;
  platforms : list string;
  rating : option string;
  rating_count : option string;
  cover_image : option string;
  screenshots : list string }.

Definition json_opt (o : option string) : json :=
  match o with Some s => JStr s | None => JNull end.

Definition metadata_json (m : ProjectRecord) : json :=
  JDict [("url", JStr (url m)); ("title", JStr (title m)); ("slug", JStr (slug m));
         ("short_description", JStr (short_description m));
         ("description", JStr (description m));
         ("tags", JList (JStr <$> tags m));
         ("info", JDict ((fun kv => (kv.1, JStr kv.2)) <$> info m));
         ("price", JStr (price m));
         ("platforms", JList (JStr <$> platforms m));
         ("rating", json_opt (rating m));
         ("rating_count", json_opt (rating_count m));
         ("cover_image", json_opt (cover_image m));
         ("screenshots", JList (JStr <$> screenshots m))].

(** [d[k] = v] on a dict kept in insertion order. *)
Fixpoint dict_set (k v : string) (d : list (string * string)) : list (string * string) :=
  match d with
  | [] => [(k, v)]
  | (k', v') :: d' =>
      if String.eqb k k' then (k, v) :: d' else (k', v') :: dict_set k v d'
  end.

(** ** The outside world and the effects *)

Record Response : Type := {
  is_success : bool;     (* what [raise_for_status] looks at *)
  text : string;
  content : string }.

Inductive HttpOutcome : Type :=
| Responded (r : Response)
| TransportError.

(** What the run cannot control: the answer of the network to a GET (a
    response, or a transport failure such as a timeout), the lxml parse of a
    body, and whether a directory creation or a file write succeeds.  The
    world is static during a run: the same request has the same outcome. *)
Record World : Type := {
  http : string -> HttpOutcome;
  BeautifulSoup : string -> Tag;
  mkdir_ok : Path -> bool;
  write_ok : Path -> bool }.

(** The exceptions of the run, all of them subclasses of [Exception]:
    [httpx.RequestError] and [httpx.HTTPStatusError] from the client,
    [KeyError] from [el[key]], [OSError] from the file system, and
    [ValueError]. *)
Inductive exn : Type :=
| RequestError (u : string)
| HTTPStatusError (u : string)
| KeyError (key : string)
| OSError (p : Path)
| ValueError (msg : string).

(** The effects a run performs, in the order it performs them. *)
Inductive Event : Type :=
| HttpGet (u : string)
| Mkdir (p : Path) (parents : bool)
| WriteBytes (p : Path) (data : string)
| WriteText (p : Path) (doc : json)
| LogWarning (msg : string)
| Progress (msg : string).

(** A computation returns, raises, or is cut short by the fuel. *)
Inductive outcome (A : Type) : Type :=
| Ret (a : A)
| Raise (e : exn)
| OutOfFuel.
Arguments Ret {A} a.
Arguments Raise {A} e.
Arguments OutOfFuel {A}.

Section Effects.

(** [CB] is the state owned by the progress callback (for [app.py], the
    job that the closure captured); the scraper itself never touches it. *)
Context {CB : Type}.

Record State : Type := { trace : list Event; cb : CB }.

Definition M (A : Type) : Type := State -> outcome A * State.

Definition ret {A} (a : A) : M A := fun st => (Ret a, st).
Definition raise {A} (e : exn) : M A := fun st => (Raise e, st).
Definition out_of_fuel {A} : M A := fun st => (OutOfFuel, st).
Definition bind {A B} (m : M A) (k : A -> M B) : M B :=
  fun st => match m st with
            | (Ret a, st') => k a st'
            | (Raise e, st') => (Raise e, st')
            | (OutOfFuel, st') => (OutOfFuel, st')
            end.
(** [try: m  except Exception: h] *)
Definition try_except {A} (m : M A) (h : exn -> M A) : M A :=
  fun st => match m st with
            | (Raise e, st') => h e st'
            | r => r
            end.
Definition emit (ev : Event) : M unit :=
  fun st => (Ret tt, {| trace := trace st ++ [ev]; cb := cb st |}).
Definition lift {A} (r : exn + A) : M A :=
  match r with inl e => raise e | inr a => ret a end.

End Effects.

Arguments State : clear implicits.
Arguments M : clear implicits.

Declare Scope monad_scope.
Delimit Scope monad_scope with monad.
Notation "x <- m ;; k" := (bind m (fun x => k))
  (at level 100, m at next level, right associativity) : monad_scope.
Notation "m ;;; k" := (bind m (fun _ => k))
  (at level 100, right associativity) : monad_scope.
Local Open Scope monad_scope.

(** ** [scraper.py] *)

Section Scraper.

Context {CB : Type} (w : World).

(** The progress callback: a function of the message on the state it
    owns, which may raise. *)
Definition Callback : Type := string -> CB -> exn + CB.

(** *** Primitive effects *)

(** [await client.get(url, follow_redirects=True)] *)
Definition client_get (u : string) : M CB Response :=
  emit (HttpGet u) ;;;
  match http w u with
  | Responded r => ret r
  | TransportError => raise (RequestError u)
  end.

(** [resp.raise_for_status()] *)
Definition raise_for_status (u : string) (resp : Response) : M CB unit :=
  if is_success resp then ret tt else raise (HTTPStatusError u).

(** [p.mkdir(parents=..., exist_ok=True)] *)
Definition mkdir (p : Path) (parents : bool) : M CB unit :=
  if mkdir_ok w p then emit (Mkdir p parents) else raise (OSError p).

(** [p.write_bytes(data)] *)
Definition write_bytes (p : Path) (data : string) : M CB unit :=
  if write_ok w p then emit (WriteBytes p data) else raise (OSError p).

(** [p.write_text(json.dumps(doc, indent=2, ensure_ascii=False))] *)
Definition write_text (p : Path) (doc : json) : M CB unit :=
  if write_ok w p then emit (WriteText p doc) else raise (OSError p).

(** [on_progress(msg)] *)
Definition call_progress (f : Callback) (msg : string) : M CB unit :=
  fun st =>
    let st' := {| trace := trace st ++ [Progress msg]; cb := cb st |} in
    match f msg (cb st) with
    | inr c => (Ret tt, {| trace := trace st'; cb := c |})
    | inl e => (Raise e, st')
    end.

(** *** [_fetch] and [_download_file] *)

Definition _fetch (u : string) : M CB Response :=
  resp <- client_get u ;;
  raise_for_status u resp ;;;
  ret resp.

Definition _download_file (u : string) (dest : Path) : M CB bool :=
  try_except
    (resp <- client_get u ;;
     raise_for_status u resp ;;;
     mkdir (parent dest) true ;;;
     write_bytes dest (content resp) ;;;
     ret true)
    (fun _ => emit (LogWarning ("Failed to download " +:+ u)) ;;; ret false).

(** *** [fetch_project_urls] *)

(** The [for a in cells] loop: [urls] grows by the hrefs not yet in it and
    [found] counts the additions. *)
Fixpoint collect (cells : list Tag) (urls : list string) (found : nat)
  : list string * nat :=
  match cells with
  | [] => (urls, found)
  | a :: rest =>
      match tag_get a "href" with
      | Some href =>
          if Py.truthy href && negb (bool_decide (href ∈ urls))
          then collect rest (urls ++ [href]) (S found)
          else collect rest urls found
      | None => collect rest urls found
      end
  end.

(** The cells of a listing page: the primary selector, else the thumb
    links. *)
Definition listing_cells (soup : Tag) : list Tag :=
  match select soup ".game_cell a.game_link, .game_cell a.title" with
  | [] => select soup ".game_cell .game_thumb a"
  | cells => cells
  end.

Definition page_url (base : string) (page : nat) : string :=
  if Nat.eqb page 1 then base else base +:+ "?page=" +:+ Py.str_of_nat page.

(** The [while True] loop; one unit of [fuel] per iteration. *)
Fixpoint fetch_loop (fuel : nat) (base : string) (page : nat) (urls : list string)
  : M CB (list string) :=
  match fuel with
  | O => out_of_fuel
  | S fuel' =>
      resp <- _fetch (page_url base page) ;;
      let soup := BeautifulSoup w (text resp) in
      let '(urls, found) := collect (listing_cells soup) urls 0 in
      let next_btn := select_one soup "a.next_page" in
      if negb (bool_decide (is_Some next_btn)) || Nat.eqb found 0
      then ret urls
      else fetch_loop fuel' base (page + 1) urls
  end.

Definition fetch_project_urls (fuel : nat) (creator : string) : M CB (list string) :=
  let base := "https://" +:+ creator +:+ ".itch.io" in
  fetch_loop fuel base 1 [].

(** *** [scrape_project], field by field *)

(** [el["content"]] *)
Definition tag_index (el : Tag) (key : string) : exn + string :=
  match attrs el !! key with
  | Some v => inr v
  | None => inl (KeyError key)
  end.

(** Lines 97-101. *)
Definition extract_title (soup : Tag) (u : string) : exn + string :=
  let title := _clean (get_text <$> select_one soup "h1.game_title") in
  if negb (Py.truthy title)
  then match select_one soup (attr_css "meta" "property" "og:title") with
       | Some og => tag_index og "content"
       | None => inr (Py.last (Py.rsplit1 "/"%char u))
       end
  else inr title.

Definition extract_slug (u : string) : string :=
  Py.last (Py.rsplit1 "/"%char (Py.rstrip "/"%char u)).

Definition extract_description (soup : Tag) : string :=
  match select_one soup ".formatted_description" with
  | Some desc_el => _clean (Some (get_text desc_el))
  | None => ""
  end.

Definition extract_short_text (soup : Tag) : string :=
  match select_one soup (attr_css "meta" "property" "og:description") with
  | Some st_el => _clean (Some (tag_get_default st_el "content" ""))
  | None => ""
  end.

Definition extract_tags (soup : Tag) : list string :=
  (fun tag_a => _clean (Some (get_text tag_a)))
    <$> select soup ".game_info_panel_widget a[href*='/tag-']".

Fixpoint info_rows (rows : list Tag) (info : list (string * string))
  : list (string * string) :=
  match rows with
  | [] => info
  | row :: rest =>
      match select row "td" with
      | [c0; c1] =>
          let key := Py.rstrip ":"%char (_clean (Some (get_text c0))) in
          let val := _clean (Some (get_text c1)) in
          if Py.truthy key then info_rows rest (dict_set key val info)
          else info_rows rest info
      | _ => info_rows rest info
      end
  end.
Definition extract_info (soup : Tag) : list (string * string) :=
  info_rows (select soup ".game_info_panel_widget table tr") [].

Definition extract_price (soup : Tag) : string :=
  match select_one soup ".buy_btn_widget .price" with
  | Some buy_btn => _clean (Some (get_text buy_btn))
  | None => "Free"
  end.

Definition extract_platforms (soup : Tag) : list string :=
  span ← select soup ".game_info_panel_widget .icon";
  c ← classes span;
  if Py.startswith "icon-" c then [Py.replace "icon-" "" c] else [].

(** Lines 146-149, for [ratingValue] and [ratingCount]. *)
Definition extract_itemprop (soup : Tag) (prop : string) : exn + option string :=
  match select_one soup (attr_css "meta" "itemprop" prop) with
  | Some el => match tag_index el "content" with
               | inr v => inr (Some v)
               | inl e => inl e
               end
  | None => inr None
  end.

(** [a or b] on optional strings. *)
Definition py_or (a b : option string) : option string :=
  if Py.truthy_opt a then a else b.

(** Lines 157-164. *)
Definition extract_cover_url (soup : Tag) : exn + option string :=
  match
    match select_one soup (attr_css "meta" "property" "og:image") with
    | Some cover_el => match tag_index cover_el "content" with
                       | inr v => inr (Some v)
                       | inl e => inl e
                       end
    | None => inr None
    end
  with
  | inl e => inl e
  | inr cover_url =>
      if negb (Py.truthy_opt cover_url)
      then match select_one soup ".header img, .game_cover img" with
           | Some cover_el =>
               inr (py_or (tag_get cover_el "src")
                          (Some (tag_get_default cover_el "data-lazy_src" "")))
           | None => inr cover_url
           end
      else inr cover_url
  end.

(** Lines 174-183. *)
Definition truthy_attr (key : string) (el : Tag) : option string :=
  match tag_get el key with
  | Some v => if Py.truthy v then Some v else None
  | None => None
  end.
Definition extract_screenshot_urls (soup : Tag) : list string :=
  match omap (truthy_attr "href") (select soup ".screenshot_list a") with
  | [] => omap (fun img =>
                  match py_or (tag_get img "src") (tag_get img "data-lazy_src") with
                  | Some src => if Py.truthy src then Some src else None
                  | None => None
                  end)
               (select soup ".screenshot_list img")
  | screenshot_urls => screenshot_urls
  end.

(** A download task: label, URL, destination. *)
Definition Task : Type := string * string * Path.

Definition cover_task (images_dir : Path) (cover_url : option string)
  : list Task * option string :=
  match cover_url with
  | Some cu =>
      if Py.truthy cu
      then let ext := _ext_from_url cu in
           ([("cover", cu, joinpath images_dir ("cover" +:+ ext))],
            Some ("images/cover" +:+ ext))
      else ([], None)
  | None => ([], None)
  end.

(** The [enumerate] loop of lines 185-190, from index [i]. *)
Fixpoint screenshot_tasks (images_dir : Path) (i : nat) (surls : list string)
  : list Task * list string :=
  match surls with
  | [] => ([], [])
  | surl :: rest =>
      let ext := _ext_from_url surl in
      let name := "screenshot_" +:+ Py.str_of_nat i +:+ ext in
      let '(tasks, saved) := screenshot_tasks images_dir (S i) rest in
      (("screenshot_" +:+ Py.str_of_nat i, surl, joinpath images_dir name) :: tasks,
       ("images/" +:+ name) :: saved)
  end.

(** Lines 193-195: the result of each download is dropped. *)
Fixpoint run_downloads (tasks : list Task) : M CB unit :=
  match tasks with
  | [] => ret tt
  | (_, img_url, dest) :: rest =>
      _download_file img_url dest ;;; run_downloads rest
  end.

Definition scrape_project (u : string) (base_dir : Path)
           (on_progress : option Callback) : M CB ProjectRecord :=
  resp <- _fetch u ;;
  let soup := BeautifulSoup w (text resp) in
  title <- lift (extract_title soup u) ;;
  let slug := extract_slug u in
  let project_dir := joinpath base_dir slug in
  mkdir project_dir true ;;;
  let description := extract_description soup in
  let short_text := extract_short_text soup in
  let tags := extract_tags soup in
  let info := extract_info soup in
  let price := extract_price soup in
  let platforms := extract_platforms soup in
  rating <- lift (extract_itemprop soup "ratingValue") ;;
  rating_count <- lift (extract_itemprop soup "ratingCount") ;;
  let images_dir := joinpath project_dir "images" in
  mkdir images_dir false ;;;
  cover_url <- lift (extract_cover_url soup) ;;
  let '(cover_tasks, cover_saved) := cover_task images_dir cover_url in
  let screenshot_urls := extract_screenshot_urls soup in
  let '(shot_tasks, screenshot_saved) := screenshot_tasks images_dir 0 screenshot_urls in
  run_downloads (cover_tasks ++ shot_tasks) ;;;
  let metadata :=
    {| url := u; title := title; slug := slug;
       short_description := short_text; description := description;
       tags := tags; info := info; price := price; platforms := platforms;
       rating := rating; rating_count := rating_count;
       cover_image := cover_saved; screenshots := screenshot_saved |} in
  write_text (joinpath project_dir "metadata.json") (metadata_json metadata) ;;;
  match on_progress with
  | Some f => call_progress f (if Py.truthy title then title else slug)
  | None => ret tt
  end ;;;
  ret metadata.

(** *** [scrape_creator] *)

(** The [for url in project_urls] loop. *)
Fixpoint scrape_loop (project_urls : list string) (output_dir : Path)
         (on_progress : option Callback) (results : list ProjectRecord)
  : M CB (list ProjectRecord) :=
  match project_urls with
  | [] => ret results
  | u :: rest =>
      meta <- scrape_project u output_dir on_progress ;;
      scrape_loop rest output_dir on_progress (results ++ [meta])
  end.

Definition index_json (creator : string) (results : list ProjectRecord) : json :=
  JDict [("creator", JStr creator);
         ("project_count", JInt (Z.of_nat (length results)));
         ("projects", JList (metadata_json <$> results))].

Definition scrape_creator (fuel : nat) (creator : string) (output_dir : Path)
           (on_progress : option Callback) : M CB (list ProjectRecord) :=
  mkdir output_dir true ;;;
  project_urls <- fetch_project_urls fuel creator ;;
  match project_urls with
  | [] => raise (ValueError ("No public projects found for '" +:+ creator +:+ "'"))
  | _ =>
      match on_progress with
      | Some f => call_progress f ("__total__" +:+ Py.str_of_nat (length project_urls))
      | None => ret tt
      end ;;;
      results <- scrape_loop project_urls output_dir on_progress [] ;;
      write_text (joinpath output_dir "index.json") (index_json creator results) ;;;
      ret results
  end.

End Scraper.

(** ** [app.py]: the job registry entry and its progress callback *)

Module App.

(** One entry of [jobs]. *)
Record Job : Type := {
  status : string;
  progress : list string;
  total : Z;
  error : option string;
  zip : option string }.

(** The entry [start_scrape] creates. *)
Definition new_job : Job :=
  {| status := "running"; progress := []; total := 0; error := None; zip := None |}.

(** *** [int(s)] on a [str], in base 10

    CPython skips the whitespace of C ([Py_ISSPACE]: tab to carriage return,
    and the space) before an optional sign and after the digits; the digits
    may hold single underscores between them; more than [max_str_digits]
    digits are refused (the default limit of 4300, CPython 3.11 and later).
    A literal that is not of this form raises [ValueError] with the [repr]
    of the string cut at 200 characters. *)

Definition int_space (a : ascii) : bool :=
  let n := nat_of_ascii a in
  ((9 <=? n)%nat && (n <=? 13)%nat) || (n =? 32)%nat.

Fixpoint lstrip_int (s : string) : string :=
  match s with
  | EmptyString => EmptyString
  | String a s' => if int_space a then lstrip_int s' else s
  end.

Fixpoint all_int_space (s : string) : bool :=
  match s with
  | EmptyString => true
  | String a s' => int_space a && all_int_space s'
  end.

Definition digit (a : ascii) : option Z :=
  let n := nat_of_ascii a in
  if (48 <=? n)%nat && (n <=? 57)%nat then Some (Z.of_nat (n - 48)) else None.

Definition literal_char (a : ascii) : bool :=
  match digit a with Some _ => true | None => Ascii.eqb a "_"%char end.

(** The longest prefix of digits and underscores, and what follows it. *)
Fixpoint literal (s : string) : string :=
  match s with
  | EmptyString => EmptyString
  | String a s' => if literal_char a then String a (literal s') else EmptyString
  end.

Fixpoint after_literal (s : string) : string :=
  match s with
  | EmptyString => EmptyString
  | String a s' => if literal_char a then after_literal s' else s
  end.

(** The value of a run of digits with single underscores between them. *)
Fixpoint digits_go (acc : Z) (after_digit : bool) (s : string) : option Z :=
  match s with
  | EmptyString => if after_digit then Some acc else None
  | String a s' =>
      match digit a with
      | Some d => digits_go (10 * acc + d) true s'
      | None =>
          if Ascii.eqb a "_"%char && after_digit then digits_go acc false s'
          else None
      end
  end.

Fixpoint count_digits (s : string) : N :=
  match s with
  | EmptyString => 0%N
  | String a s' =>
      match digit a with
      | Some _ => N.succ (count_digits s')
      | None => count_digits s'
      end
  end.

Definition max_str_digits : N := 4300.

(** [repr(s)], on ASCII text. *)
Definition hex_digit (n : nat) : ascii :=
  if (n <? 10)%nat then ascii_of_nat (48 + n) else ascii_of_nat (87 + n).

Definition repr_char (quote : ascii) (a : ascii) : string :=
  let n := nat_of_ascii a in
  let escaped (c : ascii) := String "092"%char (String c EmptyString) in
  if Ascii.eqb a quote || Ascii.eqb a "092"%char then escaped a
  else if (n =? 9)%nat then escaped "t"%char
  else if (n =? 10)%nat then escaped "n"%char
  else if (n =? 13)%nat then escaped "r"%char
  else if (n <? 32)%nat || (n =? 127)%nat
       then String "092"%char (String "x"%char
              (String (hex_digit (n / 16)) (String (hex_digit (n mod 16)) EmptyString)))
  else String a EmptyString.

Fixpoint repr_go (quote : ascii) (s : string) : string :=
  match s with
  | EmptyString => EmptyString
  | String a s' => repr_char quote a +:+ repr_go quote s'
  end.

(** The quote is the apostrophe, or the double quote (character 34) when
    the text holds an apostrophe and no double quote. *)
Definition repr (s : string) : string :=
  let quote := if Py.contains "'"%char s && negb (Py.contains "034"%char s)
               then "034"%char else "'"%char in
  String quote (repr_go quote s) +:+ String quote EmptyString.

Fixpoint take (n : nat) (s : string) : string :=
  match n, s with
  | S n', String a s' => String a (take n' s')
  | _, _ => EmptyString
  end.

Definition invalid_literal (s : string) : exn :=
  ValueError ("invalid literal for int() with base 10: " +:+ take 200 (repr s)).

Definition exceeds_limit (digits : N) : exn :=
  ValueError ("Exceeds the limit (4300 digits) for integer string conversion: value has "
              +:+ DecimalString.NilZero.string_of_uint (N.to_uint digits)
              +:+ " digits; use sys.set_int_max_str_digits() to increase the limit").

(** The optional sign: whether it is a minus, and what follows it. *)
Definition split_sign (s : string) : bool * string :=
  match s with
  | String "+"%char r => (false, r)
  | String "-"%char r => (true, r)
  | r => (false, r)
  end.

Definition int (s : string) : exn + Z :=
  let '(negative, body) := split_sign (lstrip_int s) in
  match digits_go 0 false (literal body) with
  | None => inl (invalid_literal s)
  | Some n =>
      if (max_str_digits <? count_digits (literal body))%N
      then inl (exceeds_limit (count_digits (literal body)))
      else if all_int_space (after_literal body)
           then inr (if negative : bool then (- n)%Z else n)
           else inl (invalid_literal s)
  end.

(** The closure [on_progress] of [_run_scrape], on the job it captured. *)
Definition on_progress (msg : string) (job : Job) : exn + Job :=
  if Py.startswith "__total__" msg then
    match int (Py.replace "__total__" "" msg) with
    | inr n =>
        inr {| status := status job; progress := progress job; total := n;
               error := error job; zip := zip job |}
    | inl e => inl e
    end
  else
    inr {| status := status job; progress := progress job ++ [msg];
           total := total job; error := error job; zip := zip job |}.

End App.


(** ** Auxiliary definitions for the statements *)

(** What [_fetch] gets for a URL: the response when the GET is answered
    with a success status, and otherwise the exception it raises. *)
Definition fetch_ok (w : World) (u : string) : option Response :=
  match http w u with
  | Responded r => if is_success r then Some r else None
  | TransportError => None
  end.

Definition fetch_error (w : World) (u : string) : exn :=
  match http w u with
  | Responded _ => HTTPStatusError u
  | TransportError => RequestError u
  end.

(** Outcome and effects of one download, read off the world. *)
Definition download_ok (w : World) (u : string) (dest : Path) : bool :=
  match fetch_ok w u with
  | Some _ => mkdir_ok w (parent dest) && write_ok w dest
  | None => false
  end.

Definition download_warning (u : string) : Event :=
  LogWarning ("Failed to download " +:+ u).

Definition download_trace (w : World) (u : string) (dest : Path) : list Event :=
  HttpGet u ::
  match fetch_ok w u with
  | Some r =>
      if mkdir_ok w (parent dest)
      then Mkdir (parent dest) true ::
           (if write_ok w dest then [WriteBytes dest (content r)]
            else [download_warning u])
      else [download_warning u]
  | None => [download_warning u]
  end.

(** The messages handed to the progress callback, in order. *)
Definition progress_of (tr : list Event) : list string :=
  omap (fun ev => match ev with Progress msg => Some msg | _ => None end) tr.

(** The documents written as text to path [p], in order. *)
Definition texts_written (p : Path) (tr : list Event) : list json :=
  omap (fun ev => match ev with
                  | WriteText p' doc => if decide (p' = p) then Some doc else None
                  | _ => None
                  end) tr.

(** The state after further events. *)
Definition logged {CB : Type} (st : State CB) (evs : list Event) : State CB :=
  {| trace := trace st ++ evs; cb := cb st |}.

(** A run starts with an empty trace. *)
Definition start {CB : Type} (c : CB) : State CB := {| trace := []; cb := c |}.

(** *** Pagination, as the specification words it *)

(** Each element once, at the place of its first occurrence. *)
Fixpoint first_occurrences (l : list string) : list string :=
  match l with
  | [] => []
  | x :: l' => x :: filter (fun y => y <> x) (first_occurrences l')
  end.

(** The project links a listing page offers, in document order. *)
Definition listing_hrefs (soup : Tag) : list string :=
  omap (truthy_attr "href") (listing_cells soup).

(** The URLs a page contributes when [seen] are collected already. *)
Definition new_urls (seen : list string) (soup : Tag) : list string :=
  filter (fun u => u ∉ seen) (first_occurrences (listing_hrefs soup)).

(** The next-page affordance. *)
Definition has_next (soup : Tag) : bool :=
  bool_decide (is_Some (select_one soup "a.next_page")).

(** Listing page number [page] of the site at [base], when its fetch
    succeeds. *)
Definition listing_page (w : World) (base : string) (page : nat) : option Tag :=
  (fun r => BeautifulSoup w (text r)) <$> fetch_ok w (page_url base page).

(** [walk seen pages]: the pages the paginator goes through, one after the
    other, with [seen] collected before the first of them.  A further page
    is visited exactly when the current one has a next-page link and
    contributes a new URL, so every page but the last has both, and the last
    lacks one of them. *)
Fixpoint walk (seen : list string) (pages : list Tag) : Prop :=
  match pages with
  | [] => False
  | p :: rest =>
      match rest with
      | [] => has_next p = false \/ new_urls seen p = []
      | _ :: _ => has_next p = true /\ new_urls seen p <> [] /\
                  walk (seen ++ new_urls seen p) rest
      end
  end.

(** The GETs of listing pages [page], [page + 1], ... ([n] of them). *)
Definition listing_gets (base : string) (page n : nat) : list Event :=
  (fun i => HttpGet (page_url base i)) <$> seq page n.

Definition creator_base (creator : string) : string :=
  "https://" +:+ creator +:+ ".itch.io".

(** ** A small site, for concrete runs

    The creator [dev] has two listing pages and two projects.  Page 1 links
    [alpha] (twice) and has a next-page link; page 2 links [alpha] again and
    [beta] and has no next-page link.  The cover image of [alpha] answers
    404 and its first screenshot cannot be reached; its second screenshot
    downloads.  Further pages exercise single extraction paths. *)

Module Demo.

Fixpoint assoc {A} (k : string) (l : list (string * A)) : option A :=
  match l with
  | [] => None
  | (k', v) :: l' => if String.eqb k k' then Some v else assoc k l'
  end.

(** An element from its text, attributes, classes and the answers to the
    selectors that match below it. *)
Definition element (txt : string) (atts : list (string * string))
           (cls : list string) (below : list (string * list Tag)) : Tag :=
  mkTag txt (list_to_map atts) cls (fun css => default [] (assoc css below)).

Definition link (href : string) : Tag := element "" [("href", href)] [] [].
Definition meta (value : string) : Tag := element "" [("content", value)] [] [].
Definition bare : Tag := element "" [] [] [].
Definition txt (s : string) : Tag := element s [] [] [].

Definition alpha_url : string := "https://dev.itch.io/alpha".
Definition beta_url : string := "https://dev.itch.io/beta".

Definition listing1 : Tag :=
  element "" [] []
    [(".game_cell a.game_link, .game_cell a.title", [link alpha_url; link alpha_url]);
     ("a.next_page", [link "?page=2"])].

Definition listing2 : Tag :=
  element "" [] []
    [(".game_cell .game_thumb a", [link alpha_url; link beta_url])].

Definition alpha_page : Tag :=
  element "" [] []
    [("h1.game_title", [txt "  Alpha
 Quest "]);
     (attr_css "meta" "property" "og:title", [meta "Alpha Quest by dev"]);
     (attr_css "meta" "property" "og:description", [meta "A  short pitch"]);
     (".formatted_description", [txt "Long text."]);
     (".game_info_panel_widget a[href*='/tag-']",
      [element "Pixel Art" [("href", "https://itch.io/games/tag-pixel-art")] [] [];
       element "Retro" [("href", "https://itch.io/games/tag-retro")] [] []]);
     (".game_info_panel_widget table tr",
      [element "" [] [] [("td", [txt "Status:"; txt "Released"])];
       element "" [] [] [("td", [txt "only one cell"])]]);
     (".buy_btn_widget .price", [txt "$4.99"]);
     (".game_info_panel_widget .icon", [element "" [] ["icon"; "icon-windows8"] []]);
     (attr_css "meta" "itemprop" "ratingValue", [meta "4.5"]);
     (attr_css "meta" "itemprop" "ratingCount", [meta "12"]);
     (attr_css "meta" "property" "og:image", [meta "https://img.itch.zone/a/cover.png?v=2"]);
     (".screenshot_list a",
      [link "https://img.itch.zone/a/s0.png"; link "https://img.itch.zone/a/s1/download"])].

Definition beta_page : Tag :=
  element "" [] []
    [(attr_css "meta" "property" "og:title", [meta "Beta"])].

(** A page whose rating tag has no [content] attribute. *)
Definition gamma_page : Tag :=
  element "" [] []
    [("h1.game_title", [txt "Gamma"]);
     (attr_css "meta" "itemprop" "ratingValue", [bare])].

(** A page without heading whose [og:title] tag has an empty content. *)
Definition delta_page : Tag :=
  element "" [] []
    [(attr_css "meta" "property" "og:title", [meta ""])].

Definition ok (body : string) : HttpOutcome :=
  Responded {| is_success := true; text := body; content := body |}.
Definition not_found : HttpOutcome :=
  Responded {| is_success := false; text := "Not Found"; content := "" |}.

Definition site : list (string * HttpOutcome) :=
  [("https://dev.itch.io", ok "listing 1");
   ("https://dev.itch.io?page=2", ok "listing 2");
   (alpha_url, ok "alpha");
   (beta_url, ok "beta");
   ("https://dev.itch.io/gamma", ok "gamma");
   ("https://dev.itch.io/delta", ok "delta");
   ("https://nobody.itch.io", ok "nothing");
   ("https://img.itch.zone/a/cover.png?v=2", not_found);
   ("https://img.itch.zone/a/s1/download", ok "JFIF bytes")].

Definition pages : list (string * Tag) :=
  [("listing 1", listing1); ("listing 2", listing2); ("alpha", alpha_page);
   ("beta", beta_page); ("gamma", gamma_page); ("delta", delta_page)].

Definition world : World :=
  {| http := fun u => default TransportError (assoc u site);
     BeautifulSoup := fun body => default bare (assoc body pages);
     mkdir_ok := fun _ => true;
     write_ok := fun _ => true |}.

(** The same site while the page of [beta] cannot be reached. *)
Definition broken : World :=
  {| http := fun u => if String.eqb u beta_url then TransportError else http world u;
     BeautifulSoup := BeautifulSoup world;
     mkdir_ok := mkdir_ok world;
     write_ok := write_ok world |}.

Definition out : Path := ["tmp"; "itch_scraper"; "job"; "dev"].

Definition alpha_record : ProjectRecord :=
  {| url := alpha_url; title := "Alpha Quest"; slug := "alpha";
     short_description := "A short pitch"; description := "Long text.";
     tags := ["Pixel Art"; "Retro"]; info := [("Status", "Released")];
     price := "$4.99"; platforms := ["windows8"];
     rating := Some "4.5"; rating_count := Some "12";
     cover_image := Some "images/cover.png";
     screenshots := ["images/screenshot_0.png"; "images/screenshot_1.jpg"] |}.

Definition beta_record : ProjectRecord :=
  {| url := beta_url; title := "Beta"; slug := "beta";
     short_description := ""; description := "";
     tags := []; info := []; price := "Free"; platforms := [];
     rating := None; rating_count := None;
     cover_image := None; screenshots := [] |}.

(** A callback that records nothing and never raises. *)
Definition silent : Callback (CB := unit) := fun _ c => inr c.

End Demo.

(** ** Specifications of computations *)

(** [emits P I m]: from a state whose callback part satisfies [I], whatever
    the outcome of [m], the trace has only grown, by events that satisfy
    [P], and [I] holds again. *)
Definition emits {CB A : Type} (P : Event -> Prop) (I : CB -> Prop) (m : M CB A) : Prop :=
  forall st, I (cb st) ->
    exists evs, trace (m st).2 = trace st ++ evs /\ Forall P evs /\ I (cb (m st).2).

(** [total m]: [m] does not depend on fuel. *)
Definition total {CB A : Type} (m : M CB A) : Prop :=
  forall st, (m st).1 <> OutOfFuel.

(** The callback keeps [I] when it returns. *)
Definition callback_keeps {CB : Type} (I : CB -> Prop) (on_progress : option (Callback (CB := CB)))
  : Prop :=
  forall f msg c c', on_progress = Some f -> I c -> f msg c = inr c' -> I c'.

(** Paths of the output tree. *)
Definition project_dir (output_dir : Path) (u : string) : Path :=
  joinpath output_dir (extract_slug u).
Definition images_dir (output_dir : Path) (u : string) : Path :=
  joinpath (project_dir output_dir u) "images".
Definition metadata_path (output_dir : Path) (u : string) : Path :=
  joinpath (project_dir output_dir u) "metadata.json".
Definition index_path (output_dir : Path) : Path :=
  joinpath output_dir "index.json".

(** Every event but a text write to [p]. *)
Definition not_text_to (p : Path) (ev : Event) : Prop :=
  match ev with
  | WriteText p' _ => p' <> p
  | _ => True
  end.

(** The events of asset downloads: no text write, no progress message. *)
Definition quiet (ev : Event) : Prop :=
  match ev with WriteText _ _ | Progress _ => False | _ => True end.

(** The download tasks of a project page, cover first. *)
Definition asset_tasks (soup : Tag) (imgs : Path) (cover_url : option string) : list Task :=
  (cover_task imgs cover_url).1 ++
  (screenshot_tasks imgs 0 (extract_screenshot_urls soup)).1.

Definition downloads_trace (w : World) (tasks : list Task) : list Event :=
  concat ((fun t : Task => download_trace w t.1.2 t.2) <$> tasks).

(** The message of the completion event of a record. *)
Definition progress_message (m : ProjectRecord) : string :=
  if Py.truthy (title m) then title m else slug m.

(** The [metadata] dict as a function of the page: the field extractions of
    [scrape_project] in source order, without the effects between them. *)
Definition page_metadata (soup : Tag) (u : string) : exn + ProjectRecord :=
  match extract_title soup u with
  | inl e => inl e
  | inr title =>
      match extract_itemprop soup "ratingValue" with
      | inl e => inl e
      | inr rating =>
          match extract_itemprop soup "ratingCount" with
          | inl e => inl e
          | inr rating_count =>
              match extract_cover_url soup with
              | inl e => inl e
              | inr cover_url =>
                  inr {| url := u; title := title; slug := extract_slug u;
                         short_description := extract_short_text soup;
                         description := extract_description soup;
                         tags := extract_tags soup;
                         info := extract_info soup;
                         price := extract_price soup;
                         platforms := extract_platforms soup;
                         rating := rating; rating_count := rating_count;
                         cover_image := (cover_task [] cover_url).2;
                         screenshots := (screenshot_tasks [] 0 (extract_screenshot_urls soup)).2 |}
              end
          end
      end
  end.

(** The events of a project that completes, up to the metadata write. *)
Definition project_events (w : World) (u : string) (output_dir : Path) (soup : Tag)
           (cu : option string) (r : ProjectRecord) : list Event :=
  [HttpGet u; Mkdir (project_dir output_dir u) true; Mkdir (images_dir output_dir u) false]
  ++ downloads_trace w (asset_tasks soup (images_dir output_dir u) cu)
  ++ [WriteText (metadata_path output_dir u) (metadata_json r)].

(** [scrape_creator] up to, and without, the write of the summary. *)
Definition scrape_creator_body {CB : Type} (w : World) (fuel : nat) (creator : string)
           (output_dir : Path) (on_progress : option Callback) : M CB (list ProjectRecord) :=
  (mkdir w output_dir true ;;;
   project_urls <- fetch_project_urls w fuel creator ;;
   match project_urls with
   | [] => raise (ValueError ("No public projects found for '" +:+ creator +:+ "'"))
   | _ =>
       match on_progress with
       | Some f => call_progress f ("__total__" +:+ Py.str_of_nat (length project_urls))
       | None => ret tt
       end ;;;
       scrape_loop w project_urls output_dir on_progress []
   end)%monad.

(** The total-count marker. *)
Definition total_marker (n : nat) : string := "__total__" +:+ Py.str_of_nat n.

(** Lines 238-239 of [scrape_creator]: the announcement of the total. *)
Definition announce_total {CB : Type} (on_progress : option (Callback (CB := CB)))
           (n : nat) : M CB unit :=
  match on_progress with
  | Some f => call_progress f ("__total__" +:+ Py.str_of_nat n)
  | None => ret tt
  end.

(** ** The job registry entry under a sequence of messages *)

(** No entry of a progress list starts with the marker prefix. *)
Definition marker_free (l : list string) : Prop :=
  Forall (fun m => Py.startswith "__total__" m = false) l.

(** A job with another total, and with one more progress entry. *)
Definition with_total (n : Z) (job : App.Job) : App.Job :=
  {| App.status := App.status job; App.progress := App.progress job; App.total := n;
     App.error := App.error job; App.zip := App.zip job |}.
Definition with_progress (msg : string) (job : App.Job) : App.Job :=
  {| App.status := App.status job; App.progress := App.progress job ++ [msg];
     App.total := App.total job; App.error := App.error job; App.zip := App.zip job |}.

(** The job after the callback received [msgs] one after the other; a
    message on which the callback raises ends the run and leaves the job
    as it was. *)
Fixpoint deliver (msgs : list string) (job : App.Job) : App.Job :=
  match msgs with
  | [] => job
  | msg :: rest =>
      match App.on_progress msg job with
      | inr job' => deliver rest job'
      | inl _ => job
      end
  end.

(** What [on_progress] hands to [int]: the message without any occurrence
    of the marker prefix. *)
Definition marker_rest (msg : string) : string := Py.replace "__total__" "" msg.

(** Strings of decimal digits. *)
Fixpoint isdigits (s : string) : bool :=
  match s with
  | EmptyString => true
  | String a s' => bool_decide (is_Some (App.digit a)) && isdigits s'
  end.

(** A project that [scrape_project] can complete: its page is fetched, the
    indexed meta tags carry their content, and the directories and the
    metadata file can be written. *)
Definition project_ready (w : World) (output_dir : Path) (u : string) : Prop :=
  exists resp r cu,
    fetch_ok w u = Some resp /\
    page_metadata (BeautifulSoup w (text resp)) u = inr r /\
    extract_cover_url (BeautifulSoup w (text resp)) = inr cu /\
    mkdir_ok w (project_dir output_dir u) = true /\
    mkdir_ok w (images_dir output_dir u) = true /\
    write_ok w (metadata_path output_dir u) = true.

(** A callback that never raises. *)
Definition never_raises {CB : Type} (on_progress : option (Callback (CB := CB))) : Prop :=
  forall f, on_progress = Some f -> forall msg c, exists c', f msg c = inr c'.

(** ** Further auxiliary definitions *)

(** *** Normalised text *)

(** Every character of [s] is whitespace. *)
Fixpoint all_space (s : string) : bool :=
  match s with
  | EmptyString => true
  | String a s' => Py.isspace a && all_space s'
  end.

(** [single_spaced after_space s]: the only whitespace of [s] is the space
    character and no whitespace follows whitespace; [after_space] tells
    that a space comes just before [s]. *)
Fixpoint single_spaced (after_space : bool) (s : string) : bool :=
  match s with
  | EmptyString => true
  | String a s' =>
      if Py.isspace a
      then Ascii.eqb a " "%char && negb after_space && single_spaced true s'
      else single_spaced false s'
  end.

(** [ends_clean after_space s]: as [single_spaced], and moreover the text
    does not end with a space. *)
Fixpoint ends_clean (after_space : bool) (s : string) : bool :=
  match s with
  | EmptyString => negb after_space
  | String a s' =>
      if Py.isspace a
      then Ascii.eqb a " "%char && negb after_space && ends_clean true s'
      else ends_clean false s'
  end.

(** Normalised text: words separated by single spaces, no whitespace at
    either end; the empty text is normalised. *)
Definition normalized (s : string) : bool :=
  match s with
  | EmptyString => true
  | _ => ends_clean true s
  end.

(** *** Where a run writes *)


(** The destination of a download task. *)
Definition task_dest (t : Task) : Path := t.2.

(** *** Pagination that goes on *)

(** [walk_on seen pages]: every page of [pages] has a next-page link and
    contributes a new URL, so that the paginator asks for one more page
    after each of them. *)
Fixpoint walk_on (seen : list string) (pages : list Tag) : Prop :=
  match pages with
  | [] => True
  | p :: rest =>
      has_next p = true /\ new_urls seen p <> [] /\
      walk_on (seen ++ new_urls seen p) rest
  end.

(** *** The failures of a project *)

(** The four meta tags whose [content] is read by index. *)
Definition indexed_metas : list string :=
  [attr_css "meta" "property" "og:title";
   attr_css "meta" "itemprop" "ratingValue";
   attr_css "meta" "itemprop" "ratingCount";
   attr_css "meta" "property" "og:image"].

(** One of these tags is on the page and has no [content] attribute. *)
Definition lacks_content (soup : Tag) : Prop :=
  exists css el,
    css ∈ indexed_metas /\ select_one soup css = Some el /\ attrs el !! "content" = None.

(** The exceptions that [scrape_project] raises by itself, each with its
    cause: the page fetch failed; the page was fetched and a meta tag that
    is read by index has no [content] attribute; a directory could not be
    made; [metadata.json] could not be written. *)
Inductive project_failure (w : World) (u : string) (output_dir : Path) : exn -> Prop :=
| fail_fetch :
    fetch_ok w u = None -> project_failure w u output_dir (fetch_error w u)
| fail_content resp :
    fetch_ok w u = Some resp ->
    lacks_content (BeautifulSoup w (text resp)) ->
    project_failure w u output_dir (KeyError "content")
| fail_project_dir :
    mkdir_ok w (project_dir output_dir u) = false ->
    project_failure w u output_dir (OSError (project_dir output_dir u))
| fail_images_dir :
    mkdir_ok w (images_dir output_dir u) = false ->
    project_failure w u output_dir (OSError (images_dir output_dir u))
| fail_metadata :
    write_ok w (metadata_path output_dir u) = false ->
    project_failure w u output_dir (OSError (metadata_path output_dir u)).

(** *** Dicts and strings *)

(** [d.get(k)] on a dict kept in insertion order. *)
Fixpoint dict_get (k : string) (d : list (string * string)) : option string :=
  match d with
  | [] => None
  | (k', v) :: d' => if String.eqb k k' then Some v else dict_get k d'
  end.

(** [s.endswith(c)] for a one-character [c]. *)
Fixpoint ends_with (c : ascii) (s : string) : bool :=
  match s with
  | EmptyString => false
  | String a EmptyString => Ascii.eqb a c
  | String _ s' => ends_with c s'
  end.


(** ** [app.py]: the handlers and the background task *)

Module Server.

(** *** Strings *)

(** [s.lower()] on ASCII text: the letters [A-Z] go to [a-z]. *)
Definition lower_char (a : ascii) : ascii :=
  let n := nat_of_ascii a in
  if (65 <=? n)%nat && (n <=? 90)%nat then ascii_of_nat (n + 32) else a.

Fixpoint lower (s : string) : string :=
  match s with
  | EmptyString => EmptyString
  | String a s' => String (lower_char a) (lower s')
  end.

(** The character class [[a-z0-9\-]]. *)
Definition name_char (a : ascii) : bool :=
  let n := nat_of_ascii a in
  ((97 <=? n)%nat && (n <=? 122)%nat) || ((48 <=? n)%nat && (n <=? 57)%nat)
  || (n =? 45)%nat.

(** What is left of [s] after its longest prefix in the class. *)
Fixpoint after_name (s : string) : string :=
  match s with
  | EmptyString => EmptyString
  | String a s' => if name_char a then after_name s' else s
  end.

(** [re.match(r"^[a-z0-9\-]+$", s)] as a truth value: at least one
    character of the class, then the end of the string; [$] also matches
    just before a newline that ends the string. *)
Definition re_match_name (s : string) : bool :=
  match s with
  | EmptyString => false
  | String a _ =>
      name_char a &&
      match after_name s with
      | EmptyString => true
      | String c EmptyString => Ascii.eqb c "010"%char
      | _ => false
      end
  end.

(** [Path(s).name]: the last component. *)
Definition path_name (s : string) : string := List.last (parts s) "".

(** *** Replies *)

(** What a handler gives back: a value, an [HTTPException], or an exception
    that nothing catches. *)
Inductive Reply (A : Type) : Type :=
| Ok (a : A)
| HTTPException (status_code : nat) (detail : string)
| Unhandled (exception : string).
Arguments Ok {A} a.
Arguments HTTPException {A} status_code detail.
Arguments Unhandled {A} exception.

(** [d.get(k)] on a parsed JSON object; a key given twice has the value
    given last, as [json.loads] keeps it. *)
Fixpoint json_get (k : string) (kv : list (string * json)) : option json :=
  match kv with
  | [] => None
  | (k', v) :: kv' =>
      match json_get k kv' with
      | Some later => Some later
      | None => if String.eqb k k' then Some v else None
      end
  end.

(** The effect of an accepted [start_scrape]: the reply, the registry with
    the new entry, and the arguments of the task it creates. *)
Record Started : Type := {
  reply_job_id : string;
  registry : gmap string App.Job;
  task : string * string }.

(** [start_scrape], on the parsed body; [uuid12] is
    [uuid.uuid4().hex[:12]]. *)
Definition start_scrape (jobs : gmap string App.Job) (uuid12 : string) (body : json)
  : Reply Started :=
  match body with
  | JDict kv =>
      match default (JStr "") (json_get "creator" kv) with
      | JStr s =>
          let creator := lower (Py.strip s) in
          if negb (Py.truthy creator) || negb (re_match_name creator)
          then HTTPException 400
                 "Invalid creator name. Use the itch.io username (letters, numbers, hyphens)."
          else
            let job_id := uuid12 in
            Ok {| reply_job_id := job_id;
                  registry := <[job_id := App.new_job]> jobs;
                  task := (job_id, creator) |}
      | _ => Unhandled "AttributeError"
      end
  | _ => Unhandled "AttributeError"
  end.

(** [job_status]; an entry of [jobs] is never an empty dict. *)
Definition job_status (jobs : gmap string App.Job) (job_id : string) : Reply App.Job :=
  match jobs !! job_id with
  | Some job => Ok job
  | None => HTTPException 404 "Job not found"
  end.

(** A [FileResponse]; [path] is the string its [Path] was made from. *)
Record FileResponse : Type := {
  path : string;
  media_type : string;
  filename : string }.

(** [download_zip]; [file_exists] answers [Path(s).exists()]. *)
Definition download_zip (file_exists : string -> bool) (jobs : gmap string App.Job)
           (job_id : string) : Reply FileResponse :=
  match jobs !! job_id with
  | None => HTTPException 404 "Zip not ready"
  | Some job =>
      if negb (Py.truthy_opt (App.zip job))
      then HTTPException 404 "Zip not ready"
      else
        let zip_path := default "" (App.zip job) in
        if negb (file_exists zip_path)
        then HTTPException 404 "Zip file missing"
        else Ok {| path := zip_path; media_type := "application/zip";
                   filename := path_name zip_path |}
  end.

(** *** [_run_scrape] *)

(** How a task ends: it finished and left the job it captured in the given
    state, after the given effects of the scraper; it died of an exception;
    or it is still running when the fuel is spent. *)
Inductive TaskEnd : Type :=
| Finished (job : App.Job) (tr : list Event)
| Crashed (e : exn)
| Unfinished.

(** [str(e)]: the message of a [ValueError]; [describe] answers for the
    exceptions of the libraries. *)
Definition str (describe : exn -> string) (e : exn) : string :=
  match e with
  | ValueError msg => msg
  | _ => describe e
  end.

(** The [except] branch. *)
Definition failed (describe : exn -> string) (e : exn) (job : App.Job) : App.Job :=
  {| App.status := "error"; App.progress := App.progress job; App.total := App.total job;
     App.error := Some (str describe e); App.zip := App.zip job |}.

(** The end of the [try] branch. *)
Definition archived (zip_path : string) (job : App.Job) : App.Job :=
  {| App.status := "done"; App.progress := App.progress job; App.total := App.total job;
     App.error := App.error job; App.zip := Some zip_path |}.

(** [_run_scrape].  [WORK_DIR] is the module constant and [make_archive
    base root_dir] answers [shutil.make_archive(str(base), "zip",
    root_dir=str(root_dir))]: the path of the archive, or the exception.
    The trace of a finished task holds the effects of the scraper; the
    file that the archiver writes at [base] is not an event of it. *)
Definition _run_scrape (w : World) (fuel : nat) (WORK_DIR : Path)
           (make_archive : Path -> Path -> exn + string) (describe : exn -> string)
           (jobs : gmap string App.Job) (job_id creator : string) : TaskEnd :=
  match jobs !! job_id with
  | None => Crashed (KeyError job_id)
  | Some job =>
      let output_dir := joinpath (joinpath WORK_DIR job_id) creator in
      match scrape_creator w fuel creator output_dir (Some App.on_progress) (start job) with
      | (Ret _, st) =>
          let zip_base := joinpath (joinpath WORK_DIR job_id) (creator +:+ "_itch") in
          match make_archive zip_base output_dir with
          | inr zip_path => Finished (archived zip_path (cb st)) (trace st)
          | inl e => Finished (failed describe e (cb st)) (trace st)
          end
      | (Raise e, st) => Finished (failed describe e (cb st)) (trace st)
      | (OutOfFuel, _) => Unfinished
      end
  end.

(** The text of the exception of an empty listing. *)
Definition no_projects (creator : string) : string :=
  "No public projects found for '" +:+ creator +:+ "'".

(** A job as [start_scrape] leaves it, whatever its counters. *)
Definition pending (job : App.Job) : Prop :=
  App.status job = "running" /\ App.error job = None /\ App.zip job = None.

(** Every character of [s] is of the class [[a-z0-9\-]]. *)
Fixpoint all_name (s : string) : bool :=
  match s with
  | EmptyString => true
  | String a s' => name_char a && all_name s'
  end.

End Server.

(** A server for the small site: the work directory, an archiver that
    succeeds, one that fails, and the description of an exception. *)
Module DemoServer.

Definition work_dir : Path := ["tmp"; "itch_scraper"].

Definition make_archive (base root_dir : Path) : exn + string :=
  inr ("/" +:+ Py.join "/" base +:+ ".zip").

Definition disk_full (base root_dir : Path) : exn + string := inl (OSError base).

Definition describe (e : exn) : string := "failure".

Definition jobs : gmap string App.Job := {["job" := App.new_job]}.

End DemoServer.

(** The last character of [s] is whitespace. *)
Fixpoint ends_space (s : string) : bool :=
  match s with
  | EmptyString => false
  | String a EmptyString => Py.isspace a
  | String _ s' => ends_space s'
  end.

(** The detail of the 400 reply of [start_scrape]. *)
Definition invalid_creator : string :=
  "Invalid creator name. Use the itch.io username (letters, numbers, hyphens).".

(** The value that [body.get("creator", "")] finds in [kv] is the string
    [s]. *)
Definition json_get_creator_is (kv : list (string * json)) (s : string) : Prop :=
  default (JStr "") (Server.json_get "creator" kv) = JStr s.

(** *** Names of directory entries *)

(** A path component that names an entry of the directory it is joined to:
    not empty, neither [.] nor [..], and without slash. *)
Definition entry_name (c : string) : Prop :=
  c <> "" /\ c <> "." /\ c <> ".." /\ Py.contains "/"%char c = false.

(** [below root ev]: when [ev] creates a directory or writes a file, its
    path is [root] followed by entry names only: it is [root] or lies below
    it, and no component leads back up.  The [parents] flag is not looked
    at: the predicate is for the events that come after the creation of
    [root], when [parents=True] has nothing to create above it. *)
Definition below (root : Path) (ev : Event) : Prop :=
  match ev with
  | Mkdir p _ | WriteBytes p _ | WriteText p _ =>
      exists rest, p = root ++ rest /\ Forall entry_name rest
  | _ => True
  end.

(** Below the output directory, or below its parent reached through
    [..]. *)
Definition below_or_beside (output_dir : Path) (ev : Event) : Prop :=
  below output_dir ev \/ below (output_dir ++ [".."]) ev.

(** * Properties *)

(** ** Strings *)

Module PyFacts.

Lemma sapp_cons a s t : String a s +:+ t = String a (s +:+ t).
Proof. reflexivity. Qed.

Lemma sapp_nil_r s : s +:+ "" = s.
Proof.
  induction s as [|a s IH]; [reflexivity|]. rewrite sapp_cons, IH. reflexivity.
Qed.

Lemma sapp_assoc s t u : (s +:+ t) +:+ u = s +:+ t +:+ u.
Proof.
  induction s as [|a s IH]; [reflexivity|]. rewrite !sapp_cons, IH. reflexivity.
Qed.

Lemma split_nonempty c s : Py.split c s <> [].
Proof.
  destruct s as [|a s]; simpl; [discriminate|].
  destruct (Ascii.eqb a c); [discriminate|].
  destruct (Py.split c s); discriminate.
Qed.

Lemma split_no_sep c s : Py.contains c s = false -> Py.split c s = [s].
Proof.
  induction s as [|a s IH]; simpl; [reflexivity|].
  destruct (Ascii.eqb a c); [discriminate|].
  intros H. rewrite (IH H). reflexivity.
Qed.

Lemma split_app_sep c x y :
  Py.split c (x +:+ String c y) = Py.split c x ++ Py.split c y.
Proof.
  induction x as [|a x IH]; simpl.
  - rewrite Ascii.eqb_refl. reflexivity.
  - destruct (Ascii.eqb a c); [rewrite IH; reflexivity|].
    rewrite IH.
    pose proof (split_nonempty c x) as Hx.
    destruct (Py.split c x); [congruence|reflexivity].
Qed.

Lemma contains_app c x y :
  Py.contains c (x +:+ y) = Py.contains c x || Py.contains c y.
Proof.
  induction x as [|a x IH]; simpl; [reflexivity|].
  destruct (Ascii.eqb a c); [reflexivity|apply IH].
Qed.

Lemma last_app (l1 l2 : list string) :
  l2 <> [] -> Py.last (l1 ++ l2) = Py.last l2.
Proof.
  intros H. unfold Py.last.
  destruct (exists_last H) as (l & a & ->).
  rewrite app_assoc, !last_last. reflexivity.
Qed.

Lemma join_split c s : Py.join c (Py.split c s) = s.
Proof.
  induction s as [|a s IH]; simpl; [reflexivity|].
  pose proof (split_nonempty c s) as Hne.
  destruct (Ascii.eqb_spec a c) as [->|Hac].
  - destruct (Py.split c s) as [|h t]; [congruence|].
    change (Py.join c ("" :: h :: t)) with ("" +:+ String c (Py.join c (h :: t))).
    rewrite IH. reflexivity.
  - destruct (Py.split c s) as [|h [|h' t]]; [congruence| |].
    + simpl in *. congruence.
    + change (Py.join c (String a h :: h' :: t))
        with (String a h +:+ String c (Py.join c (h' :: t))).
      change (Py.join c (h :: h' :: t))
        with (h +:+ String c (Py.join c (h' :: t))) in IH.
      rewrite <- IH. reflexivity.
Qed.

Lemma rsplit1_nonempty c s : Py.rsplit1 c s <> [].
Proof.
  unfold Py.rsplit1. destruct (rev (Py.split c s)) as [|tl [|x rest]]; discriminate.
Qed.

Lemma last_rsplit1 c s : Py.last (Py.rsplit1 c s) = Py.last (Py.split c s).
Proof.
  unfold Py.rsplit1.
  destruct (rev (Py.split c s)) as [|tl [|x rest]] eqn:E;
    apply (f_equal (@rev string)) in E; rewrite rev_involutive in E.
  - destruct (split_nonempty _ _ E).
  - pose proof (join_split c s) as J. rewrite E in J. simpl in J, E.
    rewrite E, J. reflexivity.
  - rewrite E. simpl. unfold Py.last. rewrite !last_last. reflexivity.
Qed.

(** The text after the last [c] of [x ++ c :: y] is that of [y]. *)
Lemma last_split_app_sep c x y :
  Py.last (Py.split c (x +:+ String c y)) = Py.last (Py.split c y).
Proof. rewrite split_app_sep. apply last_app, split_nonempty. Qed.

Lemma first_split_app_sep c x y :
  Py.contains c x = false -> Py.first (Py.split c (x +:+ String c y)) = x.
Proof. intros H. rewrite split_app_sep, (split_no_sep _ _ H). reflexivity. Qed.

(** The text before the first [c]. *)
Lemma first_split_decomp c s :
  Py.contains c (Py.first (Py.split c s)) = false /\
  (s = Py.first (Py.split c s) \/
   exists q, s = Py.first (Py.split c s) +:+ String c q).
Proof.
  induction s as [|a s IH]; [split; [reflexivity|left; reflexivity]|].
  cbn [Py.split]. destruct (Ascii.eqb_spec a c) as [->|Hac].
  - split; [reflexivity|]. right. exists s. reflexivity.
  - pose proof (split_nonempty c s) as Hne.
    destruct (Py.split c s) as [|h t]; [congruence|].
    cbn [Py.first hd] in *. destruct IH as [Hh Hs]. split.
    + cbn [Py.contains]. destruct (Ascii.eqb_spec a c); [congruence|exact Hh].
    + destruct Hs as [->|[q ->]]; [left; reflexivity|right; exists q; reflexivity].
Qed.

(** The text after the last [c]. *)
Lemma last_split_decomp c s :
  Py.contains c (Py.last (Py.split c s)) = false /\
  (s = Py.last (Py.split c s) \/
   exists d, s = d +:+ String c (Py.last (Py.split c s))).
Proof.
  induction s as [|a s IH]; [split; [reflexivity|left; reflexivity]|].
  pose proof (split_nonempty c s) as Hne.
  pose proof (join_split c s) as Hj.
  cbn [Py.split]. destruct (Ascii.eqb_spec a c) as [->|Hac].
  - change ("" :: Py.split c s) with ([""] ++ Py.split c s).
    rewrite (last_app _ _ Hne). destruct IH as [Hh Hs]. split; [exact Hh|].
    right. destruct Hs as [Hs|[d Hs]].
    + exists "". rewrite <- Hs. reflexivity.
    + exists (String c d). rewrite sapp_cons, <- Hs. reflexivity.
  - destruct (Py.split c s) as [|h [|h' t]] eqn:E; [congruence| |].
    + cbn in Hj. subst h. destruct IH as [Hh _]. cbn in Hh |- *.
      destruct (Ascii.eqb_spec a c); [congruence|]. split; [exact Hh|left; reflexivity].
    + change (Py.last (String a h :: h' :: t)) with (Py.last (h :: h' :: t)).
      destruct IH as [Hh Hs]. split; [exact Hh|]. right.
      destruct Hs as [Hs|[d Hs]].
      * exfalso. rewrite Hs in E at 1.
        rewrite (split_no_sep _ _ Hh) in E. discriminate E.
      * exists (String a d). rewrite sapp_cons, <- Hs. reflexivity.
Qed.

End PyFacts.

(** ** [_ext_from_url] *)

Lemma ext_from_url_path (path query : string) :
  Py.contains "?"%char path = false ->
  (query = "" \/ exists q, query = String "?"%char q) ->
  Py.first (Py.split "?"%char (path +:+ query)) = path.
Proof.
  intros Hp [->|[q ->]].
  - rewrite PyFacts.sapp_nil_r, (PyFacts.split_no_sep _ _ Hp). reflexivity.
  - apply PyFacts.first_split_app_sep, Hp.
Qed.

Lemma ext_from_url_segment (dir seg : string) :
  Py.contains "/"%char seg = false ->
  (dir = "" \/ exists d, dir = d +:+ "/") ->
  Py.last (Py.split "/"%char (dir +:+ seg)) = seg.
Proof.
  intros Hs [->|[d ->]].
  - change ("" +:+ seg) with seg.
    rewrite (PyFacts.split_no_sep _ _ Hs). reflexivity.
  - rewrite PyFacts.sapp_assoc. change ("/" +:+ seg) with (String "/"%char seg).
    rewrite PyFacts.last_split_app_sep, (PyFacts.split_no_sep _ _ Hs). reflexivity.
Qed.

(** Every URL splits into a directory part, a final segment and a query. *)
Lemma url_decomposition (url : string) :
  exists dir seg query,
    url = dir +:+ seg +:+ query /\
    Py.contains "?"%char (dir +:+ seg) = false /\
    Py.contains "/"%char seg = false /\
    (dir = "" \/ exists d, dir = d +:+ "/") /\
    (query = "" \/ exists q, query = String "?"%char q).
Proof.
  destruct (PyFacts.first_split_decomp "?"%char url) as [Hp Hu].
  set (path := Py.first (Py.split "?"%char url)) in *.
  destruct (PyFacts.last_split_decomp "/"%char path) as [Hs Hd].
  set (seg := Py.last (Py.split "/"%char path)) in *.
  assert (exists dir, path = dir +:+ seg /\ (dir = "" \/ exists d, dir = d +:+ "/"))
    as (dir & Hpath & Hdir).
  { destruct Hd as [Hd|[d Hd]].
    - exists "". split; [exact Hd|left; reflexivity].
    - exists (d +:+ "/"). split; [|right; exists d; reflexivity].
      rewrite PyFacts.sapp_assoc. exact Hd. }
  assert (exists query, url = path +:+ query /\
                        (query = "" \/ exists q, query = String "?"%char q))
    as (query & Hurl & Hquery).
  { destruct Hu as [Hu|[q Hu]].
    - exists "". rewrite PyFacts.sapp_nil_r. split; [exact Hu|left; reflexivity].
    - exists (String "?"%char q). split; [exact Hu|right; exists q; reflexivity]. }
  exists dir, seg, query. rewrite Hurl, Hpath, PyFacts.sapp_assoc.
  rewrite <- Hpath. auto.
Qed.

(** C8. A URL is [dir ++ seg ++ query], where [seg] is the final path segment
    (no slash in it, [dir] empty or ending in a slash) and [query] is empty
    or starts at the first question mark.  The extension chosen is the dot
    followed by the text after the last dot of [seg], and [.jpg] when [seg]
    has no dot. *)
Theorem ext_from_url_spec (dir seg query : string) :
  Py.contains "?"%char (dir +:+ seg) = false ->
  Py.contains "/"%char seg = false ->
  (dir = "" \/ exists d, dir = d +:+ "/") ->
  (query = "" \/ exists q, query = String "?"%char q) ->
  (Py.contains "."%char seg = false ->
   _ext_from_url (dir +:+ seg +:+ query) = ".jpg") /\
  (forall stem e, seg = stem +:+ String "."%char e ->
                  Py.contains "."%char e = false ->
                  _ext_from_url (dir +:+ seg +:+ query) = String "."%char e).
Proof.
  intros Hq Hs Hd Hqu.
  assert (Hpath : Py.first (Py.split "?"%char (dir +:+ seg +:+ query)) = dir +:+ seg).
  { rewrite <- PyFacts.sapp_assoc. apply ext_from_url_path; assumption. }
  unfold _ext_from_url. rewrite Hpath, (ext_from_url_segment _ _ Hs Hd).
  split.
  - intros ->. reflexivity.
  - intros stem e -> He.
    rewrite PyFacts.contains_app.
    change (Py.contains "."%char (String "."%char e)) with true.
    rewrite orb_true_r.
    rewrite PyFacts.last_rsplit1, PyFacts.last_split_app_sep,
      (PyFacts.split_no_sep _ _ He).
    reflexivity.
Qed.

(** A cover URL ending in [/download] is saved as [cover.jpg]. *)
Lemma ext_from_url_spec_witness :
  _ext_from_url "https://img.itch.zone/aW1nLzEyMzQ1/original/download" = ".jpg".
Proof.
  apply (ext_from_url_spec "https://img.itch.zone/aW1nLzEyMzQ1/original/" "download" "");
    try reflexivity.
  - right. exists "https://img.itch.zone/aW1nLzEyMzQ1/original". reflexivity.
  - left. reflexivity.
Defined.

(** ** The effect monad *)

Section MonadFacts.

Context {CB : Type}.

Lemma bind_Ret_inv {A B} (m : M CB A) (k : A -> M CB B) st b st' :
  bind m k st = (Ret b, st') ->
  exists a st1, m st = (Ret a, st1) /\ k a st1 = (Ret b, st').
Proof.
  unfold bind. destruct (m st) as [[a|e|] st1]; intros H; try discriminate.
  exists a, st1. split; [reflexivity|assumption].
Qed.

Lemma bind_Ret {A B} (m : M CB A) (k : A -> M CB B) st a st1 :
  m st = (Ret a, st1) -> bind m k st = k a st1.
Proof. unfold bind. intros ->. reflexivity. Qed.

Lemma bind_Raise {A B} (m : M CB A) (k : A -> M CB B) st e st1 :
  m st = (Raise e, st1) -> bind m k st = (Raise e, st1).
Proof. unfold bind. intros ->. reflexivity. Qed.

Lemma state_eta (st : State CB) : {| trace := trace st; cb := cb st |} = st.
Proof. destruct st; reflexivity. Qed.

End MonadFacts.

(** ** [_download_file] *)

Section DownloadFacts.

Context {CB : Type} (w : World).

Lemma download_file_run u dest (st : State CB) :
  _download_file w u dest st =
  (Ret (download_ok w u dest),
   {| trace := trace st ++ download_trace w u dest; cb := cb st |}).
Proof.
  unfold _download_file, try_except, bind, client_get, emit, raise_for_status,
    mkdir, write_bytes, ret, raise, download_ok, download_trace, fetch_ok,
    download_warning.
  simpl.
  destruct (http w u) as [r|]; simpl.
  - destruct (is_success r); simpl.
    + destruct (mkdir_ok w (parent dest)); simpl.
      * destruct (write_ok w dest); simpl; rewrite <- !app_assoc; reflexivity.
      * rewrite <- !app_assoc; reflexivity.
    + rewrite <- !app_assoc; reflexivity.
  - rewrite <- !app_assoc; reflexivity.
Qed.

End DownloadFacts.

(** C7. [_download_file] always returns a boolean, whatever the network and
    the file system do; the callback state is untouched.  It returns [true]
    exactly when the GET was answered with a success status, the parent
    directory was created and the write went through, and then the effects
    are the GET, the [mkdir] of the parent and the write of the whole body
    to the destination.  When it returns [false] nothing was written to the
    destination and the failure was logged. *)
Theorem download_file_never_raises {CB : Type} (w : World) (u : string) (dest : Path)
        (st : State CB) :
  exists b st',
    _download_file w u dest st = (Ret b, st') /\
    cb st' = cb st /\
    (b = true <->
     exists resp, http w u = Responded resp /\ is_success resp = true /\
                  mkdir_ok w (parent dest) = true /\ write_ok w dest = true) /\
    (b = true ->
     exists resp, http w u = Responded resp /\
                  trace st' = trace st ++
                    [HttpGet u; Mkdir (parent dest) true; WriteBytes dest (content resp)]) /\
    (b = false ->
     exists evs, trace st' = trace st ++ evs ++ [LogWarning ("Failed to download " +:+ u)] /\
                 forall p data, WriteBytes p data ∉ evs).
Proof.
  eexists _, _. split; [apply download_file_run|]. simpl.
  split; [reflexivity|].
  assert (Hnil : forall evs : list Event,
             (forall ev, ev ∈ evs -> match ev with WriteBytes _ _ => False | _ => True end) ->
             forall p data, WriteBytes p data ∉ evs).
  { intros evs H p data Hin. exact (H _ Hin). }
  unfold download_ok, download_trace, fetch_ok, download_warning.
  destruct (http w u) as [r|]; [destruct (is_success r) eqn:Hs|];
    [destruct (mkdir_ok w (parent dest)) eqn:Hm; [destruct (write_ok w dest) eqn:Hw|]|..];
    simpl.
  - split; [split; [|reflexivity]|split; [|discriminate]].
    + intros _. exists r. auto.
    + intros _. exists r. auto.
  - split; [split; [discriminate|]|split; [discriminate|]].
    + intros (resp & Hr & _ & _ & H3). congruence.
    + intros _. exists [HttpGet u; Mkdir (parent dest) true]. split; [reflexivity|].
      apply Hnil. intros ev Hin.
      repeat (apply elem_of_cons in Hin as [->|Hin]; [exact I|]). by apply elem_of_nil in Hin.
  - split; [split; [discriminate|]|split; [discriminate|]].
    + intros (resp & Hr & _ & H2 & _). congruence.
    + intros _. exists [HttpGet u]. split; [reflexivity|].
      apply Hnil. intros ev Hin.
      repeat (apply elem_of_cons in Hin as [->|Hin]; [exact I|]). by apply elem_of_nil in Hin.
  - split; [split; [discriminate|]|split; [discriminate|]].
    + intros (resp & Hr & H1 & _). congruence.
    + intros _. exists [HttpGet u]. split; [reflexivity|].
      apply Hnil. intros ev Hin.
      repeat (apply elem_of_cons in Hin as [->|Hin]; [exact I|]). by apply elem_of_nil in Hin.
  - split; [split; [discriminate|]|split; [discriminate|]].
    + intros (resp & Hr & _). congruence.
    + intros _. exists [HttpGet u]. split; [reflexivity|].
      apply Hnil. intros ev Hin.
      repeat (apply elem_of_cons in Hin as [->|Hin]; [exact I|]). by apply elem_of_nil in Hin.
Qed.

(** ** [fetch_project_urls] *)

Section FirstOccurrences.

Implicit Types l seen : list string.

Lemma filter_all (P : string -> Prop) `{!forall x, Decision (P x)} l :
  (forall x, P x) -> filter P l = l.
Proof.
  intros HP. induction l as [|x l IH]; [reflexivity|].
  rewrite filter_cons_True by apply HP. rewrite IH. reflexivity.
Qed.

Lemma elem_of_first_occurrences l x : x ∈ first_occurrences l <-> x ∈ l.
Proof.
  induction l as [|y l IH]; simpl; [reflexivity|].
  rewrite !elem_of_cons, list_elem_of_filter, IH.
  destruct (decide (x = y)); naive_solver.
Qed.

Lemma NoDup_first_occurrences l : NoDup (first_occurrences l).
Proof.
  induction l as [|y l IH]; simpl; constructor.
  - rewrite list_elem_of_filter. naive_solver.
  - apply NoDup_filter, IH.
Qed.

Lemma first_occurrences_app l1 l2 :
  first_occurrences (l1 ++ l2) =
  first_occurrences l1 ++ filter (fun y => y ∉ l1) (first_occurrences l2).
Proof.
  induction l1 as [|x l1 IH]; simpl.
  - symmetry. apply filter_all. intros y H. inversion H.
  - f_equal. rewrite IH, filter_app, list_filter_filter. f_equal.
    apply list_filter_iff. intros y. rewrite elem_of_cons. naive_solver.
Qed.

End FirstOccurrences.

Lemma omap_cons_Some {A B} (f : A -> option B) a l b :
  f a = Some b -> omap f (a :: l) = b :: omap f l.
Proof. intros H. simpl. rewrite H. reflexivity. Qed.

Lemma omap_cons_None {A B} (f : A -> option B) a l :
  f a = None -> omap f (a :: l) = omap f l.
Proof. intros H. simpl. rewrite H. reflexivity. Qed.

Lemma collect_spec (cells : list Tag) (urls : list string) (found : nat) :
  collect cells urls found =
  (urls ++ filter (fun u => u ∉ urls)
                  (first_occurrences (omap (truthy_attr "href") cells)),
   found + length (filter (fun u => u ∉ urls)
                          (first_occurrences (omap (truthy_attr "href") cells)))).
Proof.
  revert urls found. induction cells as [|a rest IH]; intros urls found.
  - simpl. rewrite app_nil_r, Nat.add_0_r. reflexivity.
  - cbn [collect].
    destruct (tag_get a "href") as [h|] eqn:Eh.
    2:{ rewrite (omap_cons_None _ a) by (unfold truthy_attr; rewrite Eh; reflexivity).
        apply IH. }
    destruct (Py.truthy h) eqn:Et.
    2:{ rewrite (omap_cons_None _ a) by (unfold truthy_attr; rewrite Eh, Et; reflexivity).
        apply IH. }
    rewrite (omap_cons_Some _ a _ h) by (unfold truthy_attr; rewrite Eh, Et; reflexivity).
    cbn [first_occurrences andb].
    destruct (bool_decide_reflect (h ∈ urls)) as [Hin|Hin]; cbn [negb].
    + rewrite IH. rewrite filter_cons_False by (intros H; exact (H Hin)).
      rewrite list_filter_filter_l; [reflexivity|].
      intros x Hx ->. exact (Hx Hin).
    + rewrite IH. rewrite filter_cons_True by exact Hin.
      rewrite list_filter_filter.
      rewrite (list_filter_iff (fun u => u ∉ urls ++ [h])
                               (fun u => (u ∉ urls) /\ u <> h)).
      * rewrite <- app_assoc. cbn [app length]. f_equal. lia.
      * intros x. rewrite elem_of_app, list_elem_of_singleton. naive_solver.
Qed.

Section FetchFacts.

Context {CB : Type} (w : World).

Lemma logged_logged (st : State CB) evs evs' : logged (logged st evs) evs' = logged st (evs ++ evs').
Proof. unfold logged. simpl. rewrite <- app_assoc. reflexivity. Qed.

Lemma fetch_run u (st : State CB) :
  _fetch w u st =
  (match fetch_ok w u with
   | Some r => Ret r
   | None => Raise (fetch_error w u)
   end, logged st [HttpGet u]).
Proof.
  unfold fetch_ok, fetch_error, logged.
  cbv [_fetch bind client_get emit raise_for_status ret raise].
  destruct (http w u) as [r|]; [destruct (is_success r)|]; reflexivity.
Qed.

Lemma fetch_loop_step fuel base page seen (st : State CB) :
  fetch_loop w (S fuel) base page seen st =
  match listing_page w base page with
  | None => (Raise (fetch_error w (page_url base page)),
             logged st [HttpGet (page_url base page)])
  | Some soup =>
      if negb (has_next soup) || Nat.eqb (length (new_urls seen soup)) 0
      then (Ret (seen ++ new_urls seen soup), logged st [HttpGet (page_url base page)])
      else fetch_loop w fuel base (page + 1) (seen ++ new_urls seen soup)
                      (logged st [HttpGet (page_url base page)])
  end.
Proof.
  cbn [fetch_loop]. unfold bind at 1. rewrite fetch_run.
  unfold listing_page. destruct (fetch_ok w (page_url base page)) as [r|]; simpl;
    [|reflexivity].
  rewrite collect_spec. fold (listing_hrefs (BeautifulSoup w (text r))).
  fold (new_urls seen (BeautifulSoup w (text r))). unfold has_next.
  cbn [Nat.add]. destruct (negb _ || _); reflexivity.
Qed.

Lemma urls_app (seen a b : list string) :
  seen ++ filter (fun u => u ∉ seen) (first_occurrences (a ++ b)) =
  (seen ++ filter (fun u => u ∉ seen) (first_occurrences a)) ++
  filter (fun u => u ∉ seen ++ filter (fun u => u ∉ seen) (first_occurrences a))
         (first_occurrences b).
Proof.
  rewrite first_occurrences_app, filter_app, list_filter_filter, <- app_assoc.
  do 2 f_equal. apply list_filter_iff. intros x.
  rewrite elem_of_app, list_elem_of_filter, elem_of_first_occurrences. tauto.
Qed.

Lemma walk_nonempty seen pages : walk seen pages -> pages <> [].
Proof. destruct pages; [intros []|discriminate]. Qed.

Lemma listing_gets_S base page n :
  listing_gets base page (S n) =
  HttpGet (page_url base page) :: listing_gets base (page + 1) n.
Proof. unfold listing_gets. rewrite Nat.add_1_r. reflexivity. Qed.

Lemma fetch_loop_spec fuel base page seen (st : State CB) urls st' :
  fetch_loop w fuel base page seen st = (Ret urls, st') <->
  exists pages,
    length pages <= fuel /\
    (forall i p, pages !! i = Some p -> listing_page w base (page + i) = Some p) /\
    walk seen pages /\
    urls = seen ++ filter (fun u => u ∉ seen)
                          (first_occurrences (concat (listing_hrefs <$> pages))) /\
    st' = logged st (listing_gets base page (length pages)).
Proof.
  split.
  - revert page seen st. induction fuel as [|fuel IH]; intros page seen st H.
    { discriminate H. }
    rewrite fetch_loop_step in H.
    destruct (listing_page w base page) as [soup|] eqn:Hp; [|discriminate H].
    destruct (negb (has_next soup) || Nat.eqb (length (new_urls seen soup)) 0) eqn:Hc.
    + injection H as <- <-. exists [soup]. split; [simpl; lia|].
      split; [|split; [|split]].
      * intros [|i] p Hi; [|discriminate Hi]. injection Hi as <-.
        rewrite Nat.add_0_r. exact Hp.
      * simpl. apply orb_true_iff in Hc as [Hc|Hc].
        -- left. destruct (has_next soup); [discriminate|reflexivity].
        -- right. apply Nat.eqb_eq in Hc.
           destruct (new_urls seen soup); [reflexivity|discriminate].
      * simpl. rewrite app_nil_r. reflexivity.
      * reflexivity.
    + apply IH in H as (pages & Hlen & Hpages & Hwalk & -> & ->).
      apply orb_false_iff in Hc as [Hn Hnew].
      exists (soup :: pages). split; [simpl; lia|].
      split; [|split; [|split]].
      * intros [|i] p Hi.
        -- injection Hi as <-. rewrite Nat.add_0_r. exact Hp.
        -- replace (page + S i) with (page + 1 + i) by lia. apply Hpages, Hi.
      * pose proof (walk_nonempty _ _ Hwalk) as Hne.
        simpl. destruct pages as [|p' pages']; [congruence|].
        split; [destruct (has_next soup); [reflexivity|discriminate]|].
        split; [|exact Hwalk].
        intros E. rewrite E in Hnew. discriminate.
      * simpl. unfold new_urls. symmetry. apply urls_app.
      * rewrite logged_logged. cbn [length]. rewrite listing_gets_S. reflexivity.
  - intros (pages & Hlen & Hpages & Hwalk & -> & ->).
    revert fuel page seen st Hlen Hpages Hwalk.
    induction pages as [|soup pages IH]; intros fuel page seen st Hlen Hpages Hwalk.
    { destruct Hwalk. }
    destruct fuel as [|fuel]; [simpl in Hlen; lia|].
    rewrite fetch_loop_step.
    pose proof (Hpages 0 soup eq_refl) as Hp. rewrite Nat.add_0_r in Hp. rewrite Hp.
    destruct pages as [|p' pages'].
    + simpl in Hwalk.
      assert (negb (has_next soup) || Nat.eqb (length (new_urls seen soup)) 0 = true)
        as ->.
      { destruct Hwalk as [-> | ->]; [reflexivity|apply orb_true_r]. }
      simpl. rewrite app_nil_r. reflexivity.
    + destruct Hwalk as (Hn & Hnew & Hwalk).
      assert (negb (has_next soup) || Nat.eqb (length (new_urls seen soup)) 0 = false)
        as ->.
      { rewrite Hn. simpl. destruct (new_urls seen soup); [congruence|reflexivity]. }
      rewrite (IH fuel (page + 1) _ _); [| simpl in *; lia | | exact Hwalk].
      * rewrite logged_logged. f_equal.
        -- f_equal. change (listing_hrefs <$> soup :: p' :: pages')
             with (listing_hrefs soup :: (listing_hrefs <$> p' :: pages')).
           cbn [concat]. unfold new_urls. symmetry. apply urls_app.
        -- cbn [length]. rewrite (listing_gets_S base page). reflexivity.
      * intros i p Hi. replace (page + 1 + i) with (page + S i) by lia.
        apply Hpages. exact Hi.
Qed.

End FetchFacts.

Lemma elem_of_concat (x : string) (ls : list (list string)) :
  x ∈ concat ls <-> exists l, x ∈ l /\ l ∈ ls.
Proof.
  induction ls as [|l ls IH]; simpl.
  - split; [intros H; inversion H|intros (l & _ & H); inversion H].
  - rewrite elem_of_app, IH. split.
    + intros [H|(l' & H1 & H2)]; [exists l; split; [exact H|left]|].
      exists l'. split; [exact H1|right; exact H2].
    + intros (l' & H1 & H2). apply elem_of_cons in H2 as [->|H2]; [left; exact H1|].
      right. exists l'. split; assumption.
Qed.

(** C4. [fetch_project_urls] returns [urls] exactly when the site has
    listing pages 1, ..., n (n within the fuel) that are fetched one after
    the other, where every page but the last has a next-page link and
    contributes at least one URL not seen before, and the last one lacks the
    link or contributes nothing new.  The GETs performed are those of pages
    1 to n, in order, and the result lists every link of these pages once,
    at the place of its first occurrence. *)
Theorem fetch_project_urls_spec {CB : Type} (w : World) (fuel : nat) (creator : string)
        (st : State CB) (urls : list string) (st' : State CB) :
  fetch_project_urls w fuel creator st = (Ret urls, st') <->
  exists pages,
    length pages <= fuel /\
    (forall i p, pages !! i = Some p ->
                 listing_page w (creator_base creator) (S i) = Some p) /\
    walk [] pages /\
    urls = first_occurrences (concat (listing_hrefs <$> pages)) /\
    NoDup urls /\
    (forall u, u ∈ urls <-> exists p, p ∈ pages /\ u ∈ listing_hrefs p) /\
    trace st' = trace st ++ listing_gets (creator_base creator) 1 (length pages) /\
    cb st' = cb st.
Proof.
  unfold fetch_project_urls. fold (creator_base creator).
  rewrite fetch_loop_spec. cbn [app].
  split.
  - intros (pages & Hlen & Hpages & Hwalk & -> & ->).
    rewrite filter_all by (intros x H; inversion H).
    exists pages.
    split; [exact Hlen|]. split; [exact Hpages|]. split; [exact Hwalk|].
    split; [reflexivity|]. split; [apply NoDup_first_occurrences|].
    split; [|split; reflexivity].
    intros u. rewrite elem_of_first_occurrences, elem_of_concat. split.
    + intros (l & Hu & Hl).
      apply list_elem_of_fmap in Hl as (p & -> & Hp). eauto.
    + intros (p & Hp & Hu). exists (listing_hrefs p). split; [exact Hu|].
      apply list_elem_of_fmap. eauto.
  - intros (pages & Hlen & Hpages & Hwalk & -> & _ & _ & Htr & Hcb).
    exists pages. repeat split; auto.
    + rewrite filter_all by (intros x H; inversion H). reflexivity.
    + destruct st'. unfold logged. simpl in *. congruence.
Qed.

(** The two-page site: two URLs, after exactly two GETs. *)
Lemma fetch_project_urls_spec_witness :
  fetch_project_urls Demo.world 5 "dev" (start tt) =
  (Ret [Demo.alpha_url; Demo.beta_url],
   {| trace := [HttpGet "https://dev.itch.io"; HttpGet "https://dev.itch.io?page=2"];
      cb := tt |}).
Proof.
  apply (fetch_project_urls_spec Demo.world 5 "dev" (start tt)).
  exists [Demo.listing1; Demo.listing2].
  split; [simpl; lia|].
  split.
  { intros [|[|i]] p Hi; try discriminate Hi; injection Hi as <-; reflexivity. }
  split.
  { split; [reflexivity|]. split; [discriminate|]. left. reflexivity. }
  split; [reflexivity|].
  split.
  { apply NoDup_cons. split; [|apply NoDup_singleton].
    intros H. apply list_elem_of_singleton in H. discriminate H. }
  split; [|split; reflexivity].
  intros u. split.
  - intros H. apply elem_of_cons in H as [->|H].
    + exists Demo.listing1. split; [left|left].
    + apply list_elem_of_singleton in H as ->.
      exists Demo.listing2. split; [right; left|right; left].
  - intros (p & Hp & Hu).
    apply elem_of_cons in Hp as [->|Hp]; [|apply list_elem_of_singleton in Hp as ->].
    + apply elem_of_cons in Hu as [->|Hu]; [left|].
      apply list_elem_of_singleton in Hu as ->. left.
    + apply elem_of_cons in Hu as [->|Hu]; [left|].
      apply list_elem_of_singleton in Hu as ->. right; left.
Defined.

(** ** What a computation may emit, whatever its outcome *)

Section Emits.

Context {CB : Type} (w : World) (P : Event -> Prop) (I : CB -> Prop).

Lemma emits_ret {A} (a : A) : emits P I (ret (CB := CB) a).
Proof. intros st HI. exists []. rewrite app_nil_r. auto. Qed.

Lemma emits_raise {A} e : emits P I (raise (CB := CB) (A := A) e).
Proof. intros st HI. exists []. rewrite app_nil_r. auto. Qed.

Lemma emits_out_of_fuel {A} : emits P I (out_of_fuel (CB := CB) (A := A)).
Proof. intros st HI. exists []. rewrite app_nil_r. auto. Qed.

Lemma emits_lift {A} (r : exn + A) : emits P I (lift (CB := CB) r).
Proof. destruct r; [apply emits_raise|apply emits_ret]. Qed.

Lemma emits_emit ev : P ev -> emits P I (emit (CB := CB) ev).
Proof. intros HP st HI. exists [ev]. simpl. auto. Qed.

Lemma emits_bind {A B} (m : M CB A) (k : A -> M CB B) :
  emits P I m -> (forall a, emits P I (k a)) -> emits P I (bind m k).
Proof.
  intros Hm Hk st HI. destruct (Hm st HI) as (evs & Ht & HP & HI1).
  unfold bind. destruct (m st) as [[a|e|] st1]; simpl in *.
  - destruct (Hk a st1 HI1) as (evs' & Ht' & HP' & HI2).
    exists (evs ++ evs'). rewrite Ht', Ht, app_assoc.
    split; [reflexivity|]. split; [apply Forall_app; auto|exact HI2].
  - exists evs. auto.
  - exists evs. auto.
Qed.

Lemma emits_try {A} (m : M CB A) (h : exn -> M CB A) :
  emits P I m -> (forall e, emits P I (h e)) -> emits P I (try_except m h).
Proof.
  intros Hm Hh st HI. destruct (Hm st HI) as (evs & Ht & HP & HI1).
  unfold try_except. destruct (m st) as [[a|e|] st1]; simpl in *.
  - exists evs. auto.
  - destruct (Hh e st1 HI1) as (evs' & Ht' & HP' & HI2).
    exists (evs ++ evs'). rewrite Ht', Ht, app_assoc.
    split; [reflexivity|]. split; [apply Forall_app; auto|exact HI2].
  - exists evs. auto.
Qed.

Lemma emits_client_get u : P (HttpGet u) -> emits P I (client_get (CB := CB) w u).
Proof.
  intros HP. apply emits_bind; [apply emits_emit, HP|]. intros _.
  destruct (http w u); [apply emits_ret|apply emits_raise].
Qed.

Lemma emits_raise_for_status u resp : emits P I (raise_for_status (CB := CB) u resp).
Proof.
  unfold raise_for_status. destruct (is_success resp); [apply emits_ret|apply emits_raise].
Qed.

Lemma emits_fetch u : P (HttpGet u) -> emits P I (_fetch (CB := CB) w u).
Proof.
  intros HP. apply emits_bind; [apply emits_client_get, HP|]. intros resp.
  apply emits_bind; [apply emits_raise_for_status|]. intros _. apply emits_ret.
Qed.

Lemma emits_mkdir p parents : P (Mkdir p parents) -> emits P I (mkdir (CB := CB) w p parents).
Proof.
  intros HP. unfold mkdir. destruct (mkdir_ok w p); [apply emits_emit, HP|apply emits_raise].
Qed.

Lemma emits_write_bytes p data :
  P (WriteBytes p data) -> emits P I (write_bytes (CB := CB) w p data).
Proof.
  intros HP. unfold write_bytes.
  destruct (write_ok w p); [apply emits_emit, HP|apply emits_raise].
Qed.

Lemma emits_write_text p doc :
  P (WriteText p doc) -> emits P I (write_text (CB := CB) w p doc).
Proof.
  intros HP. unfold write_text.
  destruct (write_ok w p); [apply emits_emit, HP|apply emits_raise].
Qed.

Lemma emits_call_progress on_progress f msg :
  callback_keeps I on_progress -> on_progress = Some f ->
  P (Progress msg) -> emits P I (call_progress f msg).
Proof.
  intros Hk Hf HP st HI. exists [Progress msg]. unfold call_progress.
  destruct (f msg (cb st)) as [e|c] eqn:E; simpl.
  - auto.
  - split; [reflexivity|]. split; [auto|]. exact (Hk f msg _ _ Hf HI E).
Qed.

End Emits.

Section Total.

Context {CB : Type} (w : World).

Lemma total_ret {A} (a : A) : total (ret (CB := CB) a).
Proof. intros st. discriminate. Qed.

Lemma total_raise {A} e : total (raise (CB := CB) (A := A) e).
Proof. intros st. discriminate. Qed.

Lemma total_lift {A} (r : exn + A) : total (lift (CB := CB) r).
Proof. destruct r; [apply total_raise|apply total_ret]. Qed.

Lemma total_emit ev : total (emit (CB := CB) ev).
Proof. intros st. discriminate. Qed.

Lemma total_bind {A B} (m : M CB A) (k : A -> M CB B) :
  total m -> (forall a, total (k a)) -> total (bind m k).
Proof.
  intros Hm Hk st. specialize (Hm st). unfold bind.
  destruct (m st) as [[a|e|] st1]; simpl in *; [apply Hk|discriminate|congruence].
Qed.

Lemma total_fetch u : total (_fetch (CB := CB) w u).
Proof. intros st. rewrite fetch_run. simpl. destruct (fetch_ok w u); discriminate. Qed.

Lemma total_mkdir p parents : total (mkdir (CB := CB) w p parents).
Proof. unfold mkdir. destruct (mkdir_ok w p); [apply total_emit|apply total_raise]. Qed.

Lemma total_write_text p doc : total (write_text (CB := CB) w p doc).
Proof. unfold write_text. destruct (write_ok w p); [apply total_emit|apply total_raise]. Qed.

Lemma total_call_progress (f : Callback) msg : total (call_progress (CB := CB) f msg).
Proof. intros st. unfold call_progress. destruct (f msg (cb st)); discriminate. Qed.

Lemma total_run_downloads tasks : total (run_downloads (CB := CB) w tasks).
Proof.
  induction tasks as [|[[lbl u] dest] rest IH]; [apply total_ret|].
  apply total_bind; [|intros _; exact IH].
  intros st. rewrite download_file_run. discriminate.
Qed.

End Total.

(** ** [scrape_project] *)

Section ProjectFacts.

Context {CB : Type} (w : World).

Lemma run_downloads_run tasks (st : State CB) :
  run_downloads w tasks st = (Ret tt, logged st (downloads_trace w tasks)).
Proof.
  revert st. induction tasks as [|[[lbl u] dest] rest IH]; intros st.
  - unfold logged, downloads_trace. simpl. rewrite app_nil_r, state_eta. reflexivity.
  - cbn [run_downloads]. unfold bind. rewrite download_file_run, IH.
    unfold logged, downloads_trace. simpl. rewrite <- app_assoc. reflexivity.
Qed.

Lemma download_trace_quiet u dest : Forall quiet (download_trace w u dest).
Proof.
  unfold download_trace, download_warning.
  destruct (fetch_ok w u); [destruct (mkdir_ok w (parent dest)); [destruct (write_ok w dest)|]|];
    repeat constructor.
Qed.

Lemma downloads_trace_quiet tasks : Forall quiet (downloads_trace w tasks).
Proof.
  unfold downloads_trace. induction tasks as [|t rest IH]; [constructor|].
  rewrite fmap_cons. cbn [concat].
  apply Forall_app. split; [apply download_trace_quiet|exact IH].
Qed.

Lemma emits_run_downloads (P : Event -> Prop) (I : CB -> Prop) tasks :
  (forall ev, quiet ev -> P ev) -> emits P I (run_downloads w tasks).
Proof.
  intros HP st HI. rewrite run_downloads_run. simpl.
  exists (downloads_trace w tasks). split; [reflexivity|]. split; [|exact HI].
  eapply Forall_impl; [apply downloads_trace_quiet|exact HP].
Qed.

Ltac emits_step HP :=
  cbv zeta;
  lazymatch goal with
  | |- emits _ _ (bind _ _) => apply emits_bind; [|intros ?]
  | |- emits _ _ (ret _) => apply emits_ret
  | |- emits _ _ (raise _) => apply emits_raise
  | |- emits _ _ (lift _) => apply emits_lift
  | |- emits _ _ (_fetch _ _) => apply emits_fetch, HP; exact I
  | |- emits _ _ (mkdir _ _ _) => apply emits_mkdir, HP; exact I
  | |- emits _ _ (run_downloads _ _) => apply emits_run_downloads, HP
  | |- emits _ _ (match ?x with _ => _ end) => destruct x
  end.

Lemma emits_scrape_project (P : Event -> Prop) (I : CB -> Prop) u output_dir on_progress :
  (forall ev, quiet ev -> P ev) ->
  (forall doc, P (WriteText (metadata_path output_dir u) doc)) ->
  (forall msg, P (Progress msg)) ->
  callback_keeps I on_progress ->
  emits P I (scrape_project w u output_dir on_progress).
Proof.
  intros HP Hmd Hpr Hcb. unfold scrape_project.
  do 11 emits_step HP.
  - apply emits_write_text. apply Hmd.
  - emits_step HP.
    + destruct on_progress as [f|]; [|apply emits_ret].
      eapply emits_call_progress; [exact Hcb|reflexivity|apply Hpr].
    + emits_step HP.
Qed.

Lemma total_scrape_project u output_dir on_progress :
  total (scrape_project (CB := CB) w u output_dir on_progress).
Proof.
  unfold scrape_project.
  repeat (cbv zeta;
          lazymatch goal with
          | |- total (bind _ _) => apply total_bind; [|intros ?]
          | |- total (ret _) => apply total_ret
          | |- total (lift _) => apply total_lift
          | |- total (_fetch _ _) => apply total_fetch
          | |- total (mkdir _ _ _) => apply total_mkdir
          | |- total (write_text _ _ _) => apply total_write_text
          | |- total (run_downloads _ _) => apply total_run_downloads
          | |- total (call_progress _ _) => apply total_call_progress
          | |- total (match ?x with _ => _ end) => destruct x
          end).
Qed.

Lemma scrape_project_fetch_fails u output_dir on_progress (st : State CB) :
  fetch_ok w u = None ->
  scrape_project w u output_dir on_progress st =
  (Raise (fetch_error w u), logged st [HttpGet u]).
Proof.
  intros H. unfold scrape_project, bind at 1. rewrite fetch_run, H. reflexivity.
Qed.

Lemma lift_Ret_inv {A} (r : exn + A) (st : State CB) a st' :
  lift r st = (Ret a, st') -> r = inr a /\ st' = st.
Proof. destruct r; intros H; inversion H; auto. Qed.

Lemma mkdir_Ret_inv p parents (st : State CB) x st' :
  mkdir w p parents st = (Ret x, st') ->
  mkdir_ok w p = true /\ st' = logged st [Mkdir p parents].
Proof.
  unfold mkdir. destruct (mkdir_ok w p); intros H; inversion H; auto.
Qed.

Lemma write_text_Ret_inv p doc (st : State CB) x st' :
  write_text w p doc st = (Ret x, st') ->
  write_ok w p = true /\ st' = logged st [WriteText p doc].
Proof.
  unfold write_text. destruct (write_ok w p); intros H; inversion H; auto.
Qed.

Lemma call_progress_Ret_inv (f : Callback) msg (st : State CB) x st' :
  call_progress f msg st = (Ret x, st') ->
  f msg (cb st) = inr (cb st') /\ trace st' = trace st ++ [Progress msg].
Proof.
  unfold call_progress. destruct (f msg (cb st)); intros H; inversion H; auto.
Qed.

Lemma cover_task_saved d d' cu : (cover_task d cu).2 = (cover_task d' cu).2.
Proof. unfold cover_task. destruct cu as [c|]; [destruct (Py.truthy c)|]; reflexivity. Qed.

Lemma screenshot_tasks_saved d d' i surls :
  (screenshot_tasks d i surls).2 = (screenshot_tasks d' i surls).2.
Proof.
  revert i. induction surls as [|s rest IH]; intros i; [reflexivity|].
  cbn [screenshot_tasks]. specialize (IH (S i)).
  destruct (screenshot_tasks d (S i) rest), (screenshot_tasks d' (S i) rest).
  simpl in *. congruence.
Qed.

Lemma scrape_project_Ret_inv u output_dir on_progress (st : State CB) r st' :
  scrape_project w u output_dir on_progress st = (Ret r, st') ->
  exists resp cu,
    fetch_ok w u = Some resp /\
    page_metadata (BeautifulSoup w (text resp)) u = inr r /\
    extract_cover_url (BeautifulSoup w (text resp)) = inr cu /\
    mkdir_ok w (project_dir output_dir u) = true /\
    mkdir_ok w (images_dir output_dir u) = true /\
    write_ok w (metadata_path output_dir u) = true /\
    match on_progress with
    | None =>
        st' = logged st (project_events w u output_dir (BeautifulSoup w (text resp)) cu r)
    | Some f =>
        f (progress_message r) (cb st) = inr (cb st') /\
        trace st' = trace st ++
                    project_events w u output_dir (BeautifulSoup w (text resp)) cu r ++
                    [Progress (progress_message r)]
    end.
Proof.
  unfold scrape_project. intros H.
  apply bind_Ret_inv in H as (resp & s1 & H1 & H).
  rewrite fetch_run in H1. destruct (fetch_ok w u) as [resp'|] eqn:Hf; [|discriminate].
  injection H1 as -> <-. cbv zeta in H.
  apply bind_Ret_inv in H as (title & s2 & H2 & H).
  apply lift_Ret_inv in H2 as [Ht ->].
  apply bind_Ret_inv in H as (x3 & s3 & H3 & H).
  apply mkdir_Ret_inv in H3 as [Hm1 ->].
  apply bind_Ret_inv in H as (rating & s4 & H4 & H).
  apply lift_Ret_inv in H4 as [Hr ->].
  apply bind_Ret_inv in H as (rating_count & s5 & H5 & H).
  apply lift_Ret_inv in H5 as [Hrc ->].
  apply bind_Ret_inv in H as (x6 & s6 & H6 & H).
  apply mkdir_Ret_inv in H6 as [Hm2 ->].
  apply bind_Ret_inv in H as (cu & s7 & H7 & H).
  apply lift_Ret_inv in H7 as [Hcu ->].
  destruct (cover_task _ cu) as [ctasks csaved] eqn:Hct.
  destruct (screenshot_tasks _ 0 _) as [stasks ssaved] eqn:Hst.
  apply bind_Ret_inv in H as (x8 & s8 & H8 & H).
  rewrite run_downloads_run in H8. injection H8 as _ <-.
  apply bind_Ret_inv in H as (x9 & s9 & H9 & H).
  apply write_text_Ret_inv in H9 as [Hw ->].
  apply bind_Ret_inv in H as (x10 & s10 & H10 & H).
  injection H as Er <-. rewrite Er in H10.
  exists resp, cu.
  assert (Hmeta : page_metadata (BeautifulSoup w (text resp)) u = inr r).
  { unfold page_metadata. rewrite Ht, Hr, Hrc, Hcu.
    rewrite (cover_task_saved [] (joinpath (joinpath output_dir (extract_slug u)) "images")),
      (screenshot_tasks_saved [] (joinpath (joinpath output_dir (extract_slug u)) "images")).
    rewrite Hct, Hst, <- Er. reflexivity. }
  split; [reflexivity|]. repeat (split; [assumption|]).
  rewrite !logged_logged in H10.
  assert (Hev : [HttpGet u] ++ [Mkdir (joinpath output_dir (extract_slug u)) true] ++
                [Mkdir (joinpath (joinpath output_dir (extract_slug u)) "images") false] ++
                downloads_trace w (ctasks ++ stasks) ++
                [WriteText (joinpath (joinpath output_dir (extract_slug u)) "metadata.json")
                           (metadata_json r)]
                = project_events w u output_dir (BeautifulSoup w (text resp)) cu r).
  { unfold project_events, asset_tasks, images_dir, project_dir, metadata_path.
    rewrite Hct, Hst. reflexivity. }
  rewrite Hev in H10.
  destruct on_progress as [f|].
  - apply call_progress_Ret_inv in H10 as [Hc Htr]. subst r. split; [exact Hc|].
    rewrite Htr. unfold logged. simpl. rewrite <- app_assoc. reflexivity.
  - injection H10 as _ <-. reflexivity.
Qed.

Lemma scrape_project_completes u output_dir on_progress (st : State CB) resp r cu :
  fetch_ok w u = Some resp ->
  page_metadata (BeautifulSoup w (text resp)) u = inr r ->
  extract_cover_url (BeautifulSoup w (text resp)) = inr cu ->
  mkdir_ok w (project_dir output_dir u) = true ->
  mkdir_ok w (images_dir output_dir u) = true ->
  write_ok w (metadata_path output_dir u) = true ->
  (forall f, on_progress = Some f -> exists c, f (progress_message r) (cb st) = inr c) ->
  exists st',
    scrape_project w u output_dir on_progress st = (Ret r, st') /\
    trace st' = trace st ++
                project_events w u output_dir (BeautifulSoup w (text resp)) cu r ++
                match on_progress with
                | Some _ => [Progress (progress_message r)]
                | None => []
                end.
Proof.
  intros Hf Hmeta Hcu Hm1 Hm2 Hw Hcb.
  unfold page_metadata in Hmeta. rewrite Hcu in Hmeta.
  destruct (extract_title _ u) as [|ttl] eqn:Ht; [discriminate|].
  destruct (extract_itemprop _ "ratingValue") as [|rating] eqn:Hr; [discriminate|].
  destruct (extract_itemprop _ "ratingCount") as [|rating_count] eqn:Hrc; [discriminate|].
  injection Hmeta as Er.
  unfold images_dir, metadata_path, project_dir in *.
  unfold scrape_project.
  erewrite bind_Ret by (rewrite fetch_run, Hf; reflexivity). cbv zeta.
  erewrite bind_Ret by (rewrite Ht; reflexivity).
  erewrite bind_Ret by (unfold mkdir; rewrite Hm1; reflexivity).
  erewrite bind_Ret by (rewrite Hr; reflexivity).
  erewrite bind_Ret by (rewrite Hrc; reflexivity).
  erewrite bind_Ret by (unfold mkdir; rewrite Hm2; reflexivity).
  erewrite bind_Ret by (rewrite Hcu; reflexivity).
  rewrite (cover_task_saved [] (joinpath (joinpath output_dir (extract_slug u)) "images")),
    (screenshot_tasks_saved [] (joinpath (joinpath output_dir (extract_slug u)) "images"))
    in Er.
  unfold project_events, asset_tasks, images_dir, project_dir, metadata_path.
  destruct (cover_task _ cu) as [ctasks csaved] eqn:Hct.
  destruct (screenshot_tasks _ 0 _) as [stasks ssaved] eqn:Hst.
  cbn [fst snd] in *.
  erewrite bind_Ret by apply run_downloads_run.
  subst r.
  erewrite bind_Ret by (unfold write_text; rewrite Hw; reflexivity).
  destruct on_progress as [f|].
  - destruct (Hcb f eq_refl) as [c Hc].
    unfold progress_message in Hc. cbn [title slug] in Hc.
    erewrite bind_Ret.
    2:{ unfold call_progress. cbn [cb emit logged]. rewrite Hc. reflexivity. }
    eexists. split; [reflexivity|]. cbn [trace logged emit].
    rewrite <- !app_assoc. reflexivity.
  - erewrite bind_Ret by reflexivity.
    eexists. split; [reflexivity|]. cbn [trace logged emit].
    rewrite <- !app_assoc. reflexivity.
Qed.

End ProjectFacts.

(** ** Paths and trace projections *)

Lemma parts_metadata : parts "metadata.json" = ["metadata.json"].
Proof. reflexivity. Qed.

Lemma parts_index : parts "index.json" = ["index.json"].
Proof. reflexivity. Qed.

Lemma metadata_path_not_index output_dir u :
  metadata_path output_dir u <> index_path output_dir.
Proof.
  unfold metadata_path, index_path, joinpath. rewrite parts_metadata, parts_index.
  intros H. apply app_inj_tail in H as [_ H]. discriminate H.
Qed.

Lemma progress_of_app tr tr' : progress_of (tr ++ tr') = progress_of tr ++ progress_of tr'.
Proof. apply omap_app. Qed.

Lemma texts_written_app p tr tr' :
  texts_written p (tr ++ tr') = texts_written p tr ++ texts_written p tr'.
Proof. apply omap_app. Qed.

Lemma progress_of_quiet evs : Forall quiet evs -> progress_of evs = [].
Proof.
  induction 1 as [|ev evs Hq _ IH]; [reflexivity|].
  destruct ev; simpl in Hq; try contradiction;
    unfold progress_of; rewrite omap_cons_None by reflexivity; exact IH.
Qed.

Lemma texts_written_none p evs : Forall (not_text_to p) evs -> texts_written p evs = [].
Proof.
  induction 1 as [|ev evs Hq _ IH]; [reflexivity|].
  unfold texts_written. rewrite omap_cons_None; [exact IH|].
  destruct ev; simpl in *; try reflexivity.
  destruct (decide (p0 = p)); [contradiction|reflexivity].
Qed.

Lemma quiet_not_text p ev : quiet ev -> not_text_to p ev.
Proof. destruct ev; simpl; tauto. Qed.

Lemma progress_of_listing_gets base page n : progress_of (listing_gets base page n) = [].
Proof.
  unfold listing_gets. generalize (seq page n). intros l.
  induction l as [|i l IH]; [reflexivity|exact IH].
Qed.

Lemma progress_of_project_events w u output_dir soup cu r :
  progress_of (project_events w u output_dir soup cu r) = [].
Proof.
  unfold project_events. rewrite !progress_of_app.
  rewrite (progress_of_quiet _ (downloads_trace_quiet w _)). reflexivity.
Qed.

(** ** [scrape_creator] *)

Section CreatorFacts.

Context {CB : Type} (w : World).

Lemma page_metadata_url soup u r : page_metadata soup u = inr r -> url r = u.
Proof.
  unfold page_metadata.
  destruct (extract_title soup u); [discriminate|].
  destruct (extract_itemprop soup "ratingValue"); [discriminate|].
  destruct (extract_itemprop soup "ratingCount"); [discriminate|].
  destruct (extract_cover_url soup); [discriminate|].
  intros H. injection H as <-. reflexivity.
Qed.

Lemma scrape_project_Ret_trace u output_dir on_progress (st : State CB) r st' :
  scrape_project w u output_dir on_progress st = (Ret r, st') ->
  url r = u /\
  progress_of (trace st') =
    progress_of (trace st) ++
    match on_progress with Some _ => [progress_message r] | None => [] end /\
  WriteText (metadata_path output_dir u) (metadata_json r) ∈ trace st' /\
  exists evs, trace st' = trace st ++ evs.
Proof.
  intros H. apply scrape_project_Ret_inv in H
    as (resp & cu & Hf & Hmeta & Hcu & Hm1 & Hm2 & Hw & H).
  split; [exact (page_metadata_url _ _ _ Hmeta)|].
  assert (Hin : WriteText (metadata_path output_dir u) (metadata_json r)
                ∈ project_events w u output_dir (BeautifulSoup w (text resp)) cu r).
  { unfold project_events. rewrite !elem_of_app. right. right. left. }
  destruct on_progress as [f|].
  - destruct H as [_ ->]. rewrite !progress_of_app, progress_of_project_events.
    split; [reflexivity|]. split; [|eauto].
    rewrite !elem_of_app. right. left. exact Hin.
  - subst st'. unfold logged. simpl.
    rewrite !progress_of_app, progress_of_project_events.
    split; [reflexivity|]. split; [|eauto].
    rewrite !elem_of_app. right. exact Hin.
Qed.

Lemma scrape_loop_Ret_inv urls output_dir on_progress acc (st : State CB) results st' :
  scrape_loop w urls output_dir on_progress acc st = (Ret results, st') ->
  exists metas,
    results = acc ++ metas /\
    url <$> metas = urls /\
    progress_of (trace st') =
      progress_of (trace st) ++
      match on_progress with Some _ => progress_message <$> metas | None => [] end /\
    (forall r, r ∈ metas ->
               WriteText (metadata_path output_dir (url r)) (metadata_json r) ∈ trace st') /\
    exists evs, trace st' = trace st ++ evs.
Proof.
  revert acc st. induction urls as [|u rest IH]; intros acc st H.
  - injection H as <- <-. exists []. rewrite !app_nil_r.
    repeat split; try reflexivity.
    + destruct on_progress; rewrite app_nil_r; reflexivity.
    + intros r Hr. inversion Hr.
    + exists []. rewrite app_nil_r. reflexivity.
  - cbn [scrape_loop] in H. apply bind_Ret_inv in H as (meta & s1 & H1 & H).
    apply scrape_project_Ret_trace in H1 as (Hu & Hp & Hw & evs1 & He1).
    apply IH in H as (metas & -> & Hus & Hp' & Hws & evs2 & He2).
    exists (meta :: metas). rewrite <- app_assoc. split; [reflexivity|].
    split; [rewrite fmap_cons, Hu, Hus; reflexivity|].
    split; [|split].
    + rewrite Hp', Hp. destruct on_progress; rewrite <- app_assoc; reflexivity.
    + intros r Hr. apply elem_of_cons in Hr as [->|Hr]; [|apply Hws, Hr].
      rewrite He2, Hu. apply elem_of_app. left. exact Hw.
    + exists (evs1 ++ evs2). rewrite He2, He1, app_assoc. reflexivity.
Qed.

Lemma scrape_loop_Raise_inv urls output_dir on_progress acc (st : State CB) e st' :
  scrape_loop w urls output_dir on_progress acc st = (Raise e, st') ->
  exists pre u post metas st2,
    urls = pre ++ u :: post /\
    scrape_loop w pre output_dir on_progress acc st = (Ret (acc ++ metas), st2) /\
    scrape_project w u output_dir on_progress st2 = (Raise e, st').
Proof.
  revert acc st. induction urls as [|u rest IH]; intros acc st H; [discriminate H|].
  cbn [scrape_loop] in H. unfold bind in H.
  destruct (scrape_project w u output_dir on_progress st) as [[meta|e1|] s1] eqn:E;
    [|injection H as <- <-|discriminate H].
  - apply IH in H as (pre & u' & post & metas & st2 & -> & Hpre & Hfail).
    exists (u :: pre), u', post, (meta :: metas), st2.
    split; [reflexivity|]. split; [|exact Hfail].
    cbn [scrape_loop]. unfold bind. rewrite E, Hpre, <- app_assoc. reflexivity.
  - exists [], u, rest, [], st. rewrite app_nil_r. auto.
Qed.

Lemma total_scrape_loop urls output_dir on_progress acc :
  total (scrape_loop (CB := CB) w urls output_dir on_progress acc).
Proof.
  revert acc. induction urls as [|u rest IH]; intros acc; [apply total_ret|].
  apply total_bind; [apply total_scrape_project|intros meta; apply IH].
Qed.

Lemma scrape_loop_fetch_fails urls output_dir on_progress acc (st : State CB) :
  (exists u, u ∈ urls /\ fetch_ok w u = None) ->
  exists e st', scrape_loop w urls output_dir on_progress acc st = (Raise e, st').
Proof.
  revert acc st. induction urls as [|u rest IH]; intros acc st (v & Hv & Hf).
  { inversion Hv. }
  cbn [scrape_loop]. unfold bind.
  destruct (scrape_project w u output_dir on_progress st) as [[meta|e1|] s1] eqn:E.
  - apply elem_of_cons in Hv as [->|Hv].
    + rewrite (scrape_project_fetch_fails w _ _ _ _ Hf) in E. discriminate E.
    + apply IH. eauto.
  - eauto.
  - pose proof (total_scrape_project w u output_dir on_progress st) as Ht.
    rewrite E in Ht. destruct (Ht eq_refl).
Qed.

Lemma emits_scrape_loop (I : CB -> Prop) urls output_dir on_progress acc :
  callback_keeps I on_progress ->
  emits (not_text_to (index_path output_dir)) I
        (scrape_loop w urls output_dir on_progress acc).
Proof.
  intros Hcb. revert acc. induction urls as [|u rest IH]; intros acc; [apply emits_ret|].
  apply emits_bind; [|intros meta; apply IH].
  apply emits_scrape_project; [apply quiet_not_text| |exact (fun _ => Logic.I)|exact Hcb].
  intros doc. apply metadata_path_not_index.
Qed.

Lemma emits_fetch_loop (P : Event -> Prop) (I : CB -> Prop) fuel base page seen :
  (forall u, P (HttpGet u)) -> emits P I (fetch_loop (CB := CB) w fuel base page seen).
Proof.
  intros HP. revert page seen. induction fuel as [|fuel IH]; intros page seen.
  - apply emits_out_of_fuel.
  - cbn [fetch_loop]. apply emits_bind; [apply emits_fetch, HP|]. intros resp. cbv zeta.
    destruct (collect _ seen 0) as [urls found].
    destruct (negb _ || _); [apply emits_ret|apply IH].
Qed.

Lemma emits_scrape_creator_body (I : CB -> Prop) fuel creator output_dir on_progress :
  callback_keeps I on_progress ->
  emits (not_text_to (index_path output_dir)) I
        (scrape_creator_body w fuel creator output_dir on_progress).
Proof.
  intros Hcb. unfold scrape_creator_body.
  apply emits_bind; [apply emits_mkdir; exact Logic.I|]. intros _.
  apply emits_bind; [apply emits_fetch_loop; intros; exact Logic.I|]. intros urls.
  destruct urls as [|u urls]; [apply emits_raise|].
  apply emits_bind; [|intros _; apply emits_scrape_loop, Hcb].
  destruct on_progress as [f|] eqn:E; [|apply emits_ret].
  eapply emits_call_progress; [exact Hcb|reflexivity|exact Logic.I].
Qed.

Lemma scrape_creator_eq fuel creator output_dir on_progress (st : State CB) :
  scrape_creator w fuel creator output_dir on_progress st =
  bind (scrape_creator_body w fuel creator output_dir on_progress)
       (fun results =>
          write_text w (joinpath output_dir "index.json") (index_json creator results) ;;;
          ret results) st.
Proof.
  unfold scrape_creator, scrape_creator_body, bind.
  destruct (mkdir w output_dir true st) as [[?|?|] s0]; try reflexivity.
  destruct (fetch_project_urls w fuel creator s0) as [[urls|?|] s1]; try reflexivity.
  destruct urls as [|u urls]; [reflexivity|].
  destruct on_progress as [f|].
  - destruct (call_progress f _ s1) as [[?|?|] s2]; reflexivity.
  - reflexivity.
Qed.

End CreatorFacts.

Section CreatorRuns.

Context {CB : Type} (w : World).

Lemma scrape_creator_body_Ret_inv fuel creator output_dir on_progress (st : State CB)
      results st3 :
  scrape_creator_body w fuel creator output_dir on_progress st = (Ret results, st3) ->
  mkdir_ok w output_dir = true /\
  exists urls st1 st2,
    fetch_project_urls w fuel creator (logged st [Mkdir output_dir true]) = (Ret urls, st1) /\
    urls <> [] /\
    progress_of (trace st2) =
      progress_of (trace st) ++
      match on_progress with Some _ => [total_marker (length urls)] | None => [] end /\
    scrape_loop w urls output_dir on_progress [] st2 = (Ret results, st3).
Proof.
  unfold scrape_creator_body. intros H.
  apply bind_Ret_inv in H as (x0 & s0 & H0 & H).
  apply mkdir_Ret_inv in H0 as [Hm ->]. split; [exact Hm|].
  apply bind_Ret_inv in H as (urls & s1 & H1 & H).
  destruct urls as [|u urls]; [discriminate H|].
  apply bind_Ret_inv in H as (x2 & s2 & H2 & H).
  exists (u :: urls), s1, s2. split; [exact H1|]. split; [discriminate|].
  split; [|exact H].
  apply fetch_loop_spec in H1 as (pages & _ & _ & _ & _ & Htr).
  assert (Hp1 : progress_of (trace s1) = progress_of (trace st)).
  { rewrite Htr. unfold logged. cbn [trace].
    rewrite !progress_of_app, progress_of_listing_gets.
    cbn. rewrite !app_nil_r. reflexivity. }
  destruct on_progress as [f|].
  - apply call_progress_Ret_inv in H2 as [_ ->].
    rewrite progress_of_app, Hp1. reflexivity.
  - injection H2 as _ <-. rewrite Hp1, app_nil_r. reflexivity.
Qed.

Lemma scrape_creator_Ret_inv fuel creator output_dir on_progress (st : State CB)
      results st' :
  scrape_creator w fuel creator output_dir on_progress st = (Ret results, st') ->
  exists st3,
    scrape_creator_body w fuel creator output_dir on_progress st = (Ret results, st3) /\
    write_ok w (index_path output_dir) = true /\
    st' = logged st3 [WriteText (index_path output_dir) (index_json creator results)].
Proof.
  rewrite scrape_creator_eq. intros H.
  apply bind_Ret_inv in H as (res & st3 & Hb & H).
  apply bind_Ret_inv in H as (x & s4 & Hw & H).
  injection H as <- <-.
  apply write_text_Ret_inv in Hw as [Hw ->].
  exists st3. auto.
Qed.

End CreatorRuns.

Section Completion.

Context {CB : Type} (w : World).

Lemma scrape_loop_completes urls output_dir on_progress acc (st : State CB) :
  (forall u, u ∈ urls -> project_ready w output_dir u) ->
  never_raises on_progress ->
  exists results st',
    scrape_loop w urls output_dir on_progress acc st = (Ret results, st').
Proof.
  intros Hready Hcb. revert acc st.
  induction urls as [|u rest IH]; intros acc st; [eexists _, _; reflexivity|].
  destruct (Hready u) as (resp & r & cu & Hf & Hmeta & Hcu & Hm1 & Hm2 & Hw); [left|].
  destruct (scrape_project_completes w u output_dir on_progress st resp r cu
              Hf Hmeta Hcu Hm1 Hm2 Hw) as (s1 & Hrun & _).
  { intros f Hf'. apply (Hcb f Hf'). }
  cbn [scrape_loop]. erewrite bind_Ret by exact Hrun.
  apply IH. intros v Hv. apply Hready. right. exact Hv.
Qed.

(** A run completes as soon as discovery returns at least one URL, every
    project is ready, the summary can be written and the callback does not
    raise. *)
Lemma scrape_creator_completes fuel creator output_dir on_progress (st : State CB)
      urls st1 :
  mkdir_ok w output_dir = true ->
  fetch_project_urls w fuel creator (logged st [Mkdir output_dir true]) = (Ret urls, st1) ->
  urls <> [] ->
  (forall u, u ∈ urls -> project_ready w output_dir u) ->
  write_ok w (index_path output_dir) = true ->
  never_raises on_progress ->
  exists results st',
    scrape_creator w fuel creator output_dir on_progress st = (Ret results, st').
Proof.
  intros Hm Hf Hne Hready Hw Hcb. unfold scrape_creator.
  erewrite bind_Ret by (unfold mkdir; rewrite Hm; reflexivity).
  erewrite bind_Ret by exact Hf.
  destruct urls as [|u0 urls']; [congruence|].
  assert (exists s2, announce_total on_progress (length (u0 :: urls')) st1 = (Ret tt, s2))
    as [s2 Ha].
  { unfold announce_total. destruct on_progress as [f|]; [|eexists; reflexivity].
    unfold call_progress. destruct (Hcb f eq_refl ("__total__" +:+ Py.str_of_nat
                                                    (length (u0 :: urls'))) (cb st1))
      as [c' ->].
    eexists. reflexivity. }
  unfold announce_total in Ha. erewrite bind_Ret by exact Ha.
  destruct (scrape_loop_completes (u0 :: urls') output_dir on_progress [] s2 Hready Hcb)
    as (results & s3 & Hl).
  erewrite bind_Ret by exact Hl.
  erewrite bind_Ret by (unfold write_text; fold (index_path output_dir);
                        rewrite Hw; reflexivity).
  eexists _, _. reflexivity.
Qed.

End Completion.

(** C6. In a run of [scrape_creator] that completes, the messages handed to
    the progress callback are, in this order: the total-count marker, made
    of the prefix [__total__] and the decimal number of discovered URLs,
    then one message per project in discovery order, which is the title of
    its record, or its slug when the title is empty. *)
Theorem scrape_creator_progress {CB : Type} (w : World) (fuel : nat) (creator : string)
        (output_dir : Path) (f : Callback) (c : CB)
        (results : list ProjectRecord) (st' : State CB) :
  scrape_creator w fuel creator output_dir (Some f) (start c) = (Ret results, st') ->
  exists urls,
    (exists st1, fetch_project_urls w fuel creator
                   (logged (start c) [Mkdir output_dir true]) = (Ret urls, st1)) /\
    url <$> results = urls /\
    progress_of (trace st') =
      ("__total__" +:+ Py.str_of_nat (length urls)) ::
      ((fun m => if Py.truthy (title m) then title m else slug m) <$> results).
Proof.
  intros H. apply scrape_creator_Ret_inv in H as (st3 & Hb & _ & ->).
  apply scrape_creator_body_Ret_inv in Hb as (_ & urls & st1 & st2 & Hf & _ & Hp & Hl).
  apply scrape_loop_Ret_inv in Hl as (metas & -> & Hu & Hp' & _).
  exists urls. split; [eauto|]. split; [exact Hu|].
  unfold logged. cbn [trace]. rewrite progress_of_app, Hp', Hp.
  cbn. rewrite app_nil_r. reflexivity.
Qed.

(** C9. In a run of [scrape_creator] that completes, the last effect is the
    write of [index.json] and nothing was written to that path before it,
    so that it is written once;
    the document holds the creator, the number of records as
    [project_count], and the records of the projects in discovery order;
    the [metadata.json] of every project was written before. *)
Theorem scrape_creator_index {CB : Type} (w : World) (fuel : nat) (creator : string)
        (output_dir : Path) (on_progress : option Callback) (c : CB)
        (results : list ProjectRecord) (st' : State CB) :
  scrape_creator w fuel creator output_dir on_progress (start c) = (Ret results, st') ->
  exists urls evs,
    (exists st1, fetch_project_urls w fuel creator
                   (logged (start c) [Mkdir output_dir true]) = (Ret urls, st1)) /\
    url <$> results = urls /\
    trace st' = evs ++
      [WriteText (joinpath output_dir "index.json")
         (JDict [("creator", JStr creator);
                 ("project_count", JInt (Z.of_nat (length results)));
                 ("projects", JList (metadata_json <$> results))])] /\
    texts_written (joinpath output_dir "index.json") evs = [] /\
    length (texts_written (joinpath output_dir "index.json") (trace st')) = 1 /\
    (forall r, r ∈ results ->
               WriteText (metadata_path output_dir (url r)) (metadata_json r) ∈ evs).
Proof.
  intros H. apply scrape_creator_Ret_inv in H as (st3 & Hb & _ & ->).
  pose proof (emits_scrape_creator_body w (fun _ => True) fuel creator output_dir
                on_progress (fun _ _ _ _ _ _ _ => Logic.I) (start c) Logic.I)
    as (evs & Htr & HP & _).
  rewrite Hb in Htr. cbn in Htr.
  apply scrape_creator_body_Ret_inv in Hb as (_ & urls & st1 & st2 & Hf & _ & _ & Hl).
  apply scrape_loop_Ret_inv in Hl as (metas & -> & Hu & _ & Hw & _).
  assert (Hnone : texts_written (joinpath output_dir "index.json") (trace st3) = []).
  { rewrite Htr. apply texts_written_none, HP. }
  exists urls, (trace st3). split; [eauto|]. split; [exact Hu|].
  split; [|split; [|split]].
  - reflexivity.
  - exact Hnone.
  - unfold logged. cbn [trace]. rewrite texts_written_app, Hnone.
    unfold texts_written. cbn. rewrite decide_True by reflexivity. reflexivity.
  - exact Hw.
Qed.

Lemma scrape_loop_app {CB : Type} (w : World) pre rest output_dir on_progress acc
      (st : State CB) :
  scrape_loop w (pre ++ rest) output_dir on_progress acc st =
  bind (scrape_loop w pre output_dir on_progress acc)
       (fun res => scrape_loop w rest output_dir on_progress res) st.
Proof.
  revert acc st. induction pre as [|u pre IH]; intros acc st; [reflexivity|].
  cbn [app scrape_loop]. unfold bind.
  destruct (scrape_project w u output_dir on_progress st) as [[meta|e|] s1];
    [rewrite IH; reflexivity|reflexivity|reflexivity].
Qed.

(** C5. Take a run of [scrape_creator] whose output directory can be made
    and whose discovery returns [urls].  If [urls] is empty, or if the page
    of one of the projects cannot be fetched, the run raises, and nothing
    has been written to [index.json]; with no URL the exception is the
    [ValueError] that no public projects were found.  When the projects
    [pre] before [u] complete and the fetch of [u] fails, the exception is
    the fetch error of [u], and the [metadata.json] written for each project
    of [pre] is in the trace of the aborted run. *)
Theorem scrape_creator_fatal {CB : Type} (w : World) (fuel : nat) (creator : string)
        (output_dir : Path) (on_progress : option Callback) (c : CB)
        (urls : list string) (st1 : State CB) :
  mkdir_ok w output_dir = true ->
  fetch_project_urls w fuel creator (logged (start c) [Mkdir output_dir true])
    = (Ret urls, st1) ->
  urls = [] \/ (exists u, u ∈ urls /\ fetch_ok w u = None) ->
  exists e st',
    scrape_creator w fuel creator output_dir on_progress (start c) = (Raise e, st') /\
    (urls = [] ->
     e = ValueError ("No public projects found for '" +:+ creator +:+ "'")) /\
    texts_written (joinpath output_dir "index.json") (trace st') = [] /\
    (forall st2 pre u post metas stp,
        announce_total on_progress (length urls) st1 = (Ret tt, st2) ->
        urls = pre ++ u :: post ->
        scrape_loop w pre output_dir on_progress [] st2 = (Ret metas, stp) ->
        fetch_ok w u = None ->
        e = fetch_error w u /\
        st' = logged stp [HttpGet u] /\
        forall r, r ∈ metas ->
                  WriteText (metadata_path output_dir (url r)) (metadata_json r)
                  ∈ trace st').
Proof.
  intros Hm Hf Hcase.
  pose proof (emits_scrape_creator_body w (fun _ => True) fuel creator output_dir
                on_progress (fun _ _ _ _ _ _ _ => Logic.I) (start c) Logic.I)
    as (evs & Htr & HP & _).
  assert (Hbody : scrape_creator_body w fuel creator output_dir on_progress (start c) =
                  match urls with
                  | [] => (Raise (ValueError ("No public projects found for '"
                                                +:+ creator +:+ "'")), st1)
                  | _ => bind (announce_total on_progress (length urls))
                              (fun _ => scrape_loop w urls output_dir on_progress []) st1
                  end).
  { unfold scrape_creator_body.
    erewrite bind_Ret by (unfold mkdir; rewrite Hm; reflexivity).
    erewrite bind_Ret by exact Hf.
    destruct urls; reflexivity. }
  assert (Hraise : exists e st',
             scrape_creator_body w fuel creator output_dir on_progress (start c)
             = (Raise e, st') /\
             (urls = [] ->
              e = ValueError ("No public projects found for '" +:+ creator +:+ "'"))).
  { rewrite Hbody. destruct urls as [|u0 urls'].
    - eauto.
    - destruct Hcase as [Hnil|Hfail]; [discriminate Hnil|].
      unfold bind.
      destruct (announce_total on_progress (length (u0 :: urls')) st1)
        as [[[]|e|] s2] eqn:Ec.
      + destruct (scrape_loop_fetch_fails w (u0 :: urls') output_dir on_progress [] s2 Hfail)
          as (e & st' & ->).
        exists e, st'. split; [reflexivity|discriminate].
      + exists e, s2. split; [reflexivity|discriminate].
      + unfold announce_total in Ec. destruct on_progress as [f|]; [|discriminate Ec].
        exfalso. exact (total_call_progress f _ st1 (f_equal fst Ec)). }
  destruct Hraise as (e & st' & Hb & He).
  exists e, st'. rewrite Hb in Htr. cbn in Htr.
  split; [rewrite scrape_creator_eq; apply bind_Raise, Hb|].
  split; [exact He|]. split; [rewrite Htr; apply texts_written_none, HP|].
  intros st2 pre u post metas stp Hc Hu Hpre Hfu.
  rewrite Hbody in Hb.
  assert (Hrun : scrape_loop w urls output_dir on_progress [] st2 =
                 (Raise (fetch_error w u), logged stp [HttpGet u])).
  { rewrite Hu, scrape_loop_app. erewrite bind_Ret by exact Hpre.
    cbn [scrape_loop]. apply bind_Raise, scrape_project_fetch_fails, Hfu. }
  assert (Hb' : (@Raise (list ProjectRecord) e, st') =
                (Raise (fetch_error w u), logged stp [HttpGet u])).
  { rewrite <- Hb, <- Hrun. destruct urls as [|u0 urls'].
    - destruct pre; discriminate Hu.
    - erewrite bind_Ret by exact Hc. reflexivity. }
  injection Hb' as -> ->.
  split; [reflexivity|]. split; [reflexivity|].
  intros r Hr.
  apply scrape_loop_Ret_inv in Hpre as (metas' & Hm' & _ & _ & Hw & _).
  cbn [app] in Hm'. subst metas'.
  unfold logged. cbn [trace]. apply elem_of_app. left. apply Hw, Hr.
Qed.

(** ** Assets, rating and title of a project *)

Lemma screenshot_tasks_names d i surls :
  (screenshot_tasks d i surls).2 =
  imap (fun j surl => "images/" +:+ "screenshot_" +:+ Py.str_of_nat (i + j)
                      +:+ _ext_from_url surl) surls.
Proof.
  revert i. induction surls as [|s rest IH]; intros i; [reflexivity|].
  cbn [screenshot_tasks]. specialize (IH (S i)).
  destruct (screenshot_tasks d (S i) rest) as [tasks saved]. cbn [snd] in *.
  rewrite imap_cons, Nat.add_0_r, IH. f_equal.
  apply imap_ext. intros j x _. cbn. replace (i + S j) with (S (i + j)) by lia.
  reflexivity.
Qed.

Lemma download_trace_written w u dest :
  download_ok w u dest = true ->
  exists resp, http w u = Responded resp /\
               WriteBytes dest (content resp) ∈ download_trace w u dest.
Proof.
  unfold download_ok, download_trace, fetch_ok.
  destruct (http w u) as [resp|]; [|discriminate].
  destruct (is_success resp); [|discriminate].
  destruct (mkdir_ok w (parent dest)); [|discriminate].
  destruct (write_ok w dest); [|discriminate].
  intros _. exists resp. split; [reflexivity|]. do 2 right. left.
Qed.

Lemma downloads_trace_written w tasks (t : Task) :
  t ∈ tasks -> download_ok w t.1.2 t.2 = true ->
  exists resp, http w t.1.2 = Responded resp /\
               WriteBytes t.2 (content resp) ∈ downloads_trace w tasks.
Proof.
  intros Hin Hok. destruct (download_trace_written _ _ _ Hok) as (resp & Hr & Hw).
  exists resp. split; [exact Hr|]. unfold downloads_trace.
  induction tasks as [|t' rest IH]; [inversion Hin|].
  rewrite fmap_cons. cbn [concat]. apply elem_of_app.
  apply elem_of_cons in Hin as [<-|Hin]; [left; exact Hw|right; apply IH, Hin].
Qed.

(** C1 (as amended). The outcome of an asset download changes neither the
    result of [scrape_project] nor the record it persists.  When the page is
    fetched, its fields are extracted and the directories and
    [metadata.json] can be written, the run completes whatever the
    downloads do: [cover_image] is the cover path as soon as a cover URL was
    found, [screenshots] lists one path per screenshot URL, [metadata.json]
    is written with this record, and every asset whose download succeeds is
    written to its destination. *)
Theorem scrape_project_lists_every_asset {CB : Type} (w : World) (u : string)
        (output_dir : Path) (on_progress : option Callback) (st : State CB)
        (resp : Response) (r : ProjectRecord) (cu : option string) :
  fetch_ok w u = Some resp ->
  page_metadata (BeautifulSoup w (text resp)) u = inr r ->
  extract_cover_url (BeautifulSoup w (text resp)) = inr cu ->
  mkdir_ok w (project_dir output_dir u) = true ->
  mkdir_ok w (images_dir output_dir u) = true ->
  write_ok w (metadata_path output_dir u) = true ->
  (forall f, on_progress = Some f -> exists c, f (progress_message r) (cb st) = inr c) ->
  exists st',
    scrape_project w u output_dir on_progress st = (Ret r, st') /\
    cover_image r =
      (if Py.truthy_opt cu
       then Some ("images/cover" +:+ _ext_from_url (default "" cu))
       else None) /\
    screenshots r =
      imap (fun i surl => "images/" +:+ "screenshot_" +:+ Py.str_of_nat i
                          +:+ _ext_from_url surl)
           (extract_screenshot_urls (BeautifulSoup w (text resp))) /\
    WriteText (metadata_path output_dir u) (metadata_json r) ∈ trace st' /\
    (forall t : Task,
        t ∈ asset_tasks (BeautifulSoup w (text resp)) (images_dir output_dir u) cu ->
        download_ok w t.1.2 t.2 = true ->
        exists resp', http w t.1.2 = Responded resp' /\
                      WriteBytes t.2 (content resp') ∈ trace st').
Proof.
  intros Hf Hmeta Hcu Hm1 Hm2 Hw Hcb.
  destruct (scrape_project_completes w u output_dir on_progress st resp r cu
              Hf Hmeta Hcu Hm1 Hm2 Hw Hcb) as (st' & Hrun & Htr).
  exists st'. split; [exact Hrun|].
  unfold page_metadata in Hmeta. rewrite Hcu in Hmeta.
  destruct (extract_title _ u) as [|ttl]; [discriminate|].
  destruct (extract_itemprop _ "ratingValue") as [|rt]; [discriminate|].
  destruct (extract_itemprop _ "ratingCount") as [|rc]; [discriminate|].
  injection Hmeta as <-. cbn [cover_image screenshots].
  split; [|split; [|split]].
  - unfold cover_task. destruct cu as [c|]; [destruct (Py.truthy c) eqn:E|];
      cbn; rewrite ?E; reflexivity.
  - apply screenshot_tasks_names.
  - rewrite Htr. unfold project_events. rewrite !elem_of_app.
    right. left. right. right. left.
  - intros t Hin Hok.
    destruct (downloads_trace_written w _ t Hin Hok) as (resp' & Hr & Hin').
    exists resp'. split; [exact Hr|]. rewrite Htr. unfold project_events.
    rewrite !elem_of_app. right. left. right. left. exact Hin'.
Qed.

(** On the demo site the cover of [alpha] answers 404, and the record
    completes with its path all the same. *)
Lemma scrape_project_lists_every_asset_witness :
  exists st',
    scrape_project Demo.world Demo.alpha_url Demo.out None (start tt)
    = (Ret Demo.alpha_record, st') /\
    cover_image Demo.alpha_record = Some "images/cover.png" /\
    WriteText (metadata_path Demo.out Demo.alpha_url) (metadata_json Demo.alpha_record)
    ∈ trace st'.
Proof.
  destruct (scrape_project_lists_every_asset
              Demo.world Demo.alpha_url Demo.out None (start tt)
              {| is_success := true; text := "alpha"; content := "alpha" |}
              Demo.alpha_record (Some "https://img.itch.zone/a/cover.png?v=2"))
    as (st' & Hrun & Hcover & _ & Hmd & _).
  - vm_compute. reflexivity.
  - vm_compute. reflexivity.
  - vm_compute. reflexivity.
  - reflexivity.
  - reflexivity.
  - reflexivity.
  - intros f Hf. discriminate Hf.
  - exists st'. split; [exact Hrun|]. split; [exact Hcover|exact Hmd].
Defined.

(** C1 (as stated) fails: the cover download of [alpha] fails, and so does
    that of its first screenshot, yet the record returned and persisted
    holds both paths. *)
Lemma failed_download_path_still_listed :
  exists r st',
    scrape_project Demo.world Demo.alpha_url Demo.out None (start tt) = (Ret r, st') /\
    download_ok Demo.world "https://img.itch.zone/a/cover.png?v=2"
                (Demo.out ++ ["alpha"; "images"; "cover.png"]) = false /\
    cover_image r = Some "images/cover.png" /\
    download_ok Demo.world "https://img.itch.zone/a/s0.png"
                (Demo.out ++ ["alpha"; "images"; "screenshot_0.png"]) = false /\
    screenshots r = ["images/screenshot_0.png"; "images/screenshot_1.jpg"] /\
    WriteText (metadata_path Demo.out Demo.alpha_url) (metadata_json r) ∈ trace st' /\
    (forall data, WriteBytes (Demo.out ++ ["alpha"; "images"; "cover.png"]) data ∉ trace st').
Proof.
  eexists _, _. split; [vm_compute; reflexivity|].
  repeat split; try reflexivity.
  - cbn [trace]. rewrite !elem_of_cons. do 10 right. left. reflexivity.
  - intros data H. cbn [trace] in H.
    repeat (apply elem_of_cons in H as [H|H]; [discriminate H|]).
    inversion H.
Qed.

Lemma extract_itemprop_no_tag soup prop :
  select_one soup (attr_css "meta" "itemprop" prop) = None ->
  extract_itemprop soup prop = inr None.
Proof. unfold extract_itemprop. intros ->. reflexivity. Qed.

(** C2 fails on the code: a page whose [ratingValue] meta tag has no
    [content] attribute makes [scrape_project] raise [KeyError], after the
    project directory was made and before anything is written. *)
Theorem scrape_project_raises_on_rating_tag_without_content :
  scrape_project Demo.world "https://dev.itch.io/gamma" Demo.out None (start tt) =
  (Raise (KeyError "content"),
   {| trace := [HttpGet "https://dev.itch.io/gamma";
                Mkdir (Demo.out ++ ["gamma"]) true];
      cb := tt |}).
Proof. vm_compute. reflexivity. Qed.




(** The two-project site: total 2, then the two titles. *)
Lemma scrape_creator_progress_witness :
  exists results st',
    scrape_creator Demo.world 5 "dev" Demo.out (Some Demo.silent) (start tt)
    = (Ret results, st') /\
    progress_of (trace st') = ["__total__2"; "Alpha Quest"; "Beta"].
Proof.
  assert (Hrun : scrape_creator Demo.world 5 "dev" Demo.out (Some Demo.silent) (start tt)
                 = (Ret [Demo.alpha_record; Demo.beta_record],
                    (scrape_creator Demo.world 5 "dev" Demo.out (Some Demo.silent)
                                    (start tt)).2))
    by (vm_compute; reflexivity).
  destruct (scrape_creator_progress _ _ _ _ _ _ _ _ Hrun) as (urls & _ & Hu & Hp).
  eexists _, _. split; [exact Hrun|]. rewrite Hp, <- Hu. vm_compute. reflexivity.
Defined.

(** The two-project site: one [index.json], last, with [project_count] 2. *)
Lemma scrape_creator_index_witness :
  exists results st' evs,
    scrape_creator Demo.world 5 "dev" Demo.out (Some Demo.silent) (start tt)
    = (Ret results, st') /\
    trace st' = evs ++
      [WriteText (Demo.out ++ ["index.json"])
         (JDict [("creator", JStr "dev"); ("project_count", JInt 2);
                 ("projects", JList (metadata_json <$> results))])] /\
    texts_written (Demo.out ++ ["index.json"]) evs = [].
Proof.
  assert (Hrun : scrape_creator Demo.world 5 "dev" Demo.out (Some Demo.silent) (start tt)
                 = (Ret [Demo.alpha_record; Demo.beta_record],
                    (scrape_creator Demo.world 5 "dev" Demo.out (Some Demo.silent)
                                    (start tt)).2))
    by (vm_compute; reflexivity).
  destruct (scrape_creator_index _ _ _ _ _ _ _ _ Hrun)
    as (urls & evs & _ & _ & Htr & Hnone & _ & _).
  eexists _, _, evs. split; [exact Hrun|]. split; [exact Htr|exact Hnone].
Defined.

(** A creator without projects, and the site while [beta] is unreachable. *)
Lemma scrape_creator_fatal_witness :
  (exists st',
      scrape_creator Demo.world 5 "nobody" Demo.out (Some Demo.silent) (start tt)
      = (Raise (ValueError "No public projects found for 'nobody'"), st') /\
      texts_written (Demo.out ++ ["index.json"]) (trace st') = []) /\
  (exists st',
      scrape_creator Demo.broken 5 "dev" Demo.out (Some Demo.silent) (start tt)
      = (Raise (RequestError Demo.beta_url), st') /\
      texts_written (Demo.out ++ ["index.json"]) (trace st') = [] /\
      WriteText (metadata_path Demo.out Demo.alpha_url) (metadata_json Demo.alpha_record)
      ∈ trace st').
Proof.
  split.
  - destruct (scrape_creator_fatal Demo.world 5 "nobody" Demo.out (Some Demo.silent) tt []
                {| trace := [Mkdir Demo.out true; HttpGet "https://nobody.itch.io"];
                   cb := tt |})
      as (e & st' & Hrun & He & Hidx & _).
    + reflexivity.
    + vm_compute. reflexivity.
    + left. reflexivity.
    + exists st'. rewrite (He eq_refl) in Hrun. split; [exact Hrun|exact Hidx].
  - destruct (scrape_creator_fatal Demo.broken 5 "dev" Demo.out (Some Demo.silent) tt
                [Demo.alpha_url; Demo.beta_url]
                {| trace := [Mkdir Demo.out true; HttpGet "https://dev.itch.io";
                             HttpGet "https://dev.itch.io?page=2"];
                   cb := tt |})
      as (e & st' & Hrun & _ & Hidx & Hprior).
    + reflexivity.
    + vm_compute. reflexivity.
    + right. exists Demo.beta_url. split; [right; left|reflexivity].
    + destruct (Hprior
                  (announce_total (Some Demo.silent) 2
                     {| trace := [Mkdir Demo.out true; HttpGet "https://dev.itch.io";
                                  HttpGet "https://dev.itch.io?page=2"];
                        cb := tt |}).2
                  [Demo.alpha_url] Demo.beta_url [] [Demo.alpha_record]
                  (scrape_loop Demo.broken [Demo.alpha_url] Demo.out (Some Demo.silent) []
                     (announce_total (Some Demo.silent) 2
                        {| trace := [Mkdir Demo.out true; HttpGet "https://dev.itch.io";
                                     HttpGet "https://dev.itch.io?page=2"];
                           cb := tt |}).2).2)
        as (-> & _ & Hw).
      * reflexivity.
      * reflexivity.
      * vm_compute. reflexivity.
      * reflexivity.
      * exists st'. split; [exact Hrun|]. split; [exact Hidx|].
        apply (Hw Demo.alpha_record). left.
Defined.

(** ** The progress callback of [app.py] *)

Lemma emits_weaken {CB A : Type} (P Q : Event -> Prop) (I : CB -> Prop) (m : M CB A) :
  (forall ev, P ev -> Q ev) -> emits P I m -> emits Q I m.
Proof.
  intros HPQ Hm st HI. destruct (Hm st HI) as (evs & Ht & HP & HI').
  exists evs. split; [exact Ht|]. split; [|exact HI'].
  eapply Forall_impl; [exact HP|exact HPQ].
Qed.

Lemma emits_scrape_creator {CB : Type} (w : World) (I : CB -> Prop) fuel creator
      output_dir on_progress :
  callback_keeps I on_progress ->
  emits (fun _ => True) I (scrape_creator w fuel creator output_dir on_progress).
Proof.
  intros Hcb st HI.
  assert (He : emits (fun _ => True) I
                 (bind (scrape_creator_body w fuel creator output_dir on_progress)
                       (fun results =>
                          write_text w (joinpath output_dir "index.json")
                                     (index_json creator results) ;;;
                          ret results))).
  { apply emits_bind.
    - eapply emits_weaken; [|apply emits_scrape_creator_body, Hcb]. auto.
    - intros results. apply emits_bind; [apply emits_write_text; exact Logic.I|].
      intros _. apply emits_ret. }
  specialize (He st HI). rewrite <- scrape_creator_eq in He. exact He.
Qed.

(** *** The total marker reads back as the number it was made of *)

Lemma digit_chars a :
  is_Some (App.digit a) ->
  Py.isspace a = false /\ Ascii.eqb a "_"%char = false /\
  a <> "+"%char /\ a <> "-"%char /\ a <> "_"%char.
Proof.
  destruct a as [[] [] [] [] [] [] [] []]; intros [d Hd];
    try discriminate Hd; repeat split; discriminate.
Qed.

Lemma isdigits_uint d : isdigits (NilEmpty.string_of_uint d) = true.
Proof. induction d; cbn; auto. Qed.

Lemma digits_go_uint d acc b :
  d <> Decimal.Nil \/ b = true ->
  App.digits_go (Z.of_nat acc) b (NilEmpty.string_of_uint d) =
  Some (Z.of_nat (Nat.of_uint_acc d acc)).
Proof.
  revert acc b. induction d; intros acc b H;
    [destruct H as [H| ->]; [congruence|reflexivity]|..];
    cbn [NilEmpty.string_of_uint App.digits_go Nat.of_uint_acc];
    match goal with
    | |- context [App.digit ?c] =>
        let v := eval cbv in (App.digit c) in change (App.digit c) with v
    end;
    cbv iota beta;
    match goal with
    | |- App.digits_go ?z true _ = Some (Z.of_nat (Nat.of_uint_acc _ ?a)) =>
        replace z with (Z.of_nat a) by (rewrite Nat.tail_mul_spec; lia)
    end;
    apply IHd; right; reflexivity.
Qed.

Lemma isdigits_cons a s :
  isdigits (String a s) = true -> is_Some (App.digit a) /\ isdigits s = true.
Proof.
  cbn [isdigits]. intros H. apply andb_true_iff in H as [Ha Hs].
  apply bool_decide_eq_true in Ha. auto.
Qed.

Lemma int_space_digit a : is_Some (App.digit a) -> App.int_space a = false.
Proof.
  destruct a as [[] [] [] [] [] [] [] []]; intros [d Hd];
    try discriminate Hd; reflexivity.
Qed.

Lemma literal_char_digit a : is_Some (App.digit a) -> App.literal_char a = true.
Proof. unfold App.literal_char. intros [d ->]. reflexivity. Qed.

Lemma split_sign_digit a s :
  is_Some (App.digit a) -> App.split_sign (String a s) = (false, String a s).
Proof.
  destruct a as [[] [] [] [] [] [] [] []]; intros [d Hd];
    try discriminate Hd; reflexivity.
Qed.

Lemma lstrip_int_digits s : isdigits s = true -> App.lstrip_int s = s.
Proof.
  destruct s as [|a s]; [reflexivity|]. intros H.
  apply isdigits_cons in H as [Ha _]. cbn [App.lstrip_int].
  rewrite (int_space_digit a Ha). reflexivity.
Qed.

Lemma literal_digits s : isdigits s = true -> App.literal s = s.
Proof.
  induction s as [|a s IH]; [reflexivity|]. intros H.
  apply isdigits_cons in H as [Ha Hs]. cbn [App.literal].
  rewrite (literal_char_digit a Ha), (IH Hs). reflexivity.
Qed.

Lemma after_literal_digits s : isdigits s = true -> App.after_literal s = "".
Proof.
  induction s as [|a s IH]; [reflexivity|]. intros H.
  apply isdigits_cons in H as [Ha Hs]. cbn [App.after_literal].
  rewrite (literal_char_digit a Ha). exact (IH Hs).
Qed.

Lemma count_digits_digits s :
  isdigits s = true -> App.count_digits s = N.of_nat (String.length s).
Proof.
  induction s as [|a s IH]; [reflexivity|]. intros H.
  apply isdigits_cons in H as [[d Hd] Hs]. cbn [App.count_digits String.length].
  rewrite Hd, (IH Hs). lia.
Qed.

(** [int] on a run of digits: its value, unless the run is too long. *)
Lemma int_digits s v :
  isdigits s = true -> App.digits_go 0 false s = Some v ->
  App.int s =
  if (App.max_str_digits <? N.of_nat (String.length s))%N
  then inl (App.exceeds_limit (N.of_nat (String.length s)))
  else inr v.
Proof.
  intros Hd Hv. unfold App.int. rewrite (lstrip_int_digits s Hd).
  destruct s as [|a s]; [discriminate Hv|].
  pose proof (isdigits_cons _ _ Hd) as [Ha _].
  rewrite (split_sign_digit a s Ha).
  rewrite (literal_digits _ Hd), Hv, (count_digits_digits _ Hd), (after_literal_digits _ Hd).
  reflexivity.
Qed.

Lemma replace_go_digits new s :
  isdigits s = true -> Py.replace_go "__total__" new 0 s = s.
Proof.
  induction s as [|a s IH]; [reflexivity|]. intros H.
  cbn in H. apply andb_true_iff in H as [Ha Hs]. apply bool_decide_eq_true in Ha.
  destruct (digit_chars a Ha) as (_ & _ & _ & _ & Hne).
  cbn [Py.replace_go String.prefix].
  destruct (ascii_dec "_" a) as [E|_]; [congruence|].
  rewrite (IH Hs). reflexivity.
Qed.

Lemma replace_marker s :
  isdigits s = true -> Py.replace "__total__" "" ("__total__" +:+ s) = s.
Proof.
  intros H. cbv [Py.replace String.append]. cbn.
  assert (Hnil : String.prefix "" s = true) by (destruct s; reflexivity).
  rewrite Hnil. change ("" +:+ Py.replace_go "__total__" "" 0 s)
    with (Py.replace_go "__total__" "" 0 s).
  apply replace_go_digits, H.
Qed.

Lemma isdigits_string_of_uint d : isdigits (NilZero.string_of_uint d) = true.
Proof.
  unfold NilZero.string_of_uint. destruct d; try reflexivity; apply isdigits_uint.
Qed.

Lemma digits_go_string_of_uint d :
  App.digits_go 0 false (NilZero.string_of_uint d) = Some (Z.of_nat (Nat.of_uint d)).
Proof.
  destruct d; [reflexivity|..];
    unfold NilZero.string_of_uint;
    match goal with
    | |- context [NilEmpty.string_of_uint ?d] =>
        apply (digits_go_uint d 0 false); left; discriminate
    end.
Qed.

Lemma digits_go_str_of_nat n :
  App.digits_go 0 false (Py.str_of_nat n) = Some (Z.of_nat n).
Proof.
  unfold Py.str_of_nat. rewrite digits_go_string_of_uint, Unsigned.of_to. reflexivity.
Qed.

(** The marker of a count reads back as the count, unless it has more
    digits than [int] accepts. *)
Lemma int_str_of_nat n :
  App.int (Py.str_of_nat n) =
  if (App.max_str_digits <? N.of_nat (String.length (Py.str_of_nat n)))%N
  then inl (App.exceeds_limit (N.of_nat (String.length (Py.str_of_nat n))))
  else inr (Z.of_nat n).
Proof.
  apply int_digits; [apply isdigits_string_of_uint|apply digits_go_str_of_nat].
Qed.

Lemma startswith_append p s : Py.startswith p (p +:+ s) = true.
Proof.
  unfold Py.startswith. induction p as [|a p IH]; [destruct s; reflexivity|].
  rewrite PyFacts.sapp_cons. cbn [String.prefix].
  destruct (ascii_dec a a); [exact IH|congruence].
Qed.

Lemma on_progress_marker n job :
  App.on_progress (total_marker n) job =
  if (App.max_str_digits <? N.of_nat (String.length (Py.str_of_nat n)))%N
  then inl (App.exceeds_limit (N.of_nat (String.length (Py.str_of_nat n))))
  else inr (with_total (Z.of_nat n) job).
Proof.
  unfold App.on_progress, total_marker.
  rewrite startswith_append, replace_marker by apply isdigits_string_of_uint.
  rewrite int_str_of_nat. destruct (_ <? _)%N; reflexivity.
Qed.

Lemma on_progress_total_marker n job :
  (N.of_nat (String.length (Py.str_of_nat n)) <= App.max_str_digits)%N ->
  App.on_progress (total_marker n) job = inr (with_total (Z.of_nat n) job).
Proof.
  intros H. rewrite on_progress_marker.
  destruct (N.ltb_spec0 App.max_str_digits (N.of_nat (String.length (Py.str_of_nat n))));
    [lia|reflexivity].
Qed.

Lemma on_progress_total_marker_inv n job job' :
  App.on_progress (total_marker n) job = inr job' ->
  job' = with_total (Z.of_nat n) job.
Proof.
  rewrite on_progress_marker. destruct (_ <? _)%N; [discriminate|].
  intros H. injection H as <-. reflexivity.
Qed.

Lemma on_progress_keeps_marker_free msg job job' :
  App.on_progress msg job = inr job' ->
  marker_free (App.progress job) -> marker_free (App.progress job').
Proof.
  unfold App.on_progress, marker_free.
  destruct (Py.startswith "__total__" msg) eqn:E.
  - destruct (App.int _); intros H; inversion H; subst; auto.
  - intros H; inversion H; subst. cbn. intros Hf.
    apply Forall_app. split; [exact Hf|]. constructor; [exact E|constructor].
Qed.

Lemma count_digits_cons a s :
  App.count_digits (String a s) = 0%N -> App.digit a = None /\ App.count_digits s = 0%N.
Proof. cbn [App.count_digits]. destruct (App.digit a); [lia|auto]. Qed.

Lemma count_digits_lstrip s :
  App.count_digits s = 0%N -> App.count_digits (App.lstrip_int s) = 0%N.
Proof.
  induction s as [|a s IH]; [reflexivity|]. intros H. cbn [App.lstrip_int].
  destruct (App.int_space a); [|exact H].
  apply count_digits_cons in H as [_ H]. exact (IH H).
Qed.

Lemma count_digits_split_sign s :
  App.count_digits s = 0%N -> App.count_digits (App.split_sign s).2 = 0%N.
Proof.
  intros H. destruct s as [|a s]; [exact H|].
  pose proof (count_digits_cons _ _ H) as [_ Hs].
  destruct a as [[] [] [] [] [] [] [] []]; first [exact H|exact Hs].
Qed.

Lemma digits_go_no_digit acc s :
  App.count_digits s = 0%N -> App.digits_go acc false (App.literal s) = None.
Proof.
  destruct s as [|a s]; [reflexivity|]. intros H.
  apply count_digits_cons in H as [Ha _]. cbn [App.literal].
  unfold App.literal_char. rewrite Ha.
  destruct (Ascii.eqb a "_"%char) eqn:E; [|reflexivity].
  cbn [App.digits_go]. rewrite Ha, E. reflexivity.
Qed.

(** Text without a digit is no integer. *)
Lemma int_no_digit s :
  App.count_digits s = 0%N -> App.int s = inl (App.invalid_literal s).
Proof.
  intros H. unfold App.int.
  pose proof (count_digits_split_sign _ (count_digits_lstrip _ H)) as Hb.
  destruct (App.split_sign (App.lstrip_int s)) as [negative body]. cbn [snd] in Hb.
  rewrite (digits_go_no_digit 0 body Hb). reflexivity.
Qed.

(** [int] raises [ValueError] only. *)
Lemma int_error s e : App.int s = inl e -> exists text, e = ValueError text.
Proof.
  unfold App.int. destruct (App.split_sign _) as [negative body].
  destruct (App.digits_go _ _ _); [|intros H; injection H as <-; eexists; reflexivity].
  destruct (_ <? _)%N; [intros H; injection H as <-; eexists; reflexivity|].
  destruct (App.all_int_space _); [discriminate|].
  intros H; injection H as <-; eexists; reflexivity.
Qed.

(** C10 (as amended). A message that starts with [__total__] is never
    appended to the progress list: the callback either sets the total and
    changes nothing else, or raises [ValueError] and changes nothing.  It
    sets the total when the message without any occurrence of the prefix
    is a decimal numeral of at most 4300 digits, to the value of that
    numeral; the total marker of [scrape_creator] is of this kind.  It
    raises when what is left is ASCII text without a digit, as the title of
    a project may be.  Every other message is appended to the progress list
    and nothing else changes.  Hence no entry of the progress list starts
    with the prefix, after any sequence of messages and at the end of any
    run of [scrape_creator] reporting to this callback. *)
Theorem on_progress_spec (msg : string) (job : App.Job) :
  (Py.startswith "__total__" msg = true ->
   (forall job', App.on_progress msg job = inr job' -> exists n, job' = with_total n job) /\
   (forall e, App.on_progress msg job = inl e -> exists text, e = ValueError text) /\
   (forall d, NilZero.uint_of_string (marker_rest msg) = Some d ->
              (N.of_nat (String.length (marker_rest msg)) <= 4300)%N ->
              App.on_progress msg job = inr (with_total (Z.of_nat (Nat.of_uint d)) job)) /\
   (Py.isascii (marker_rest msg) = true -> App.count_digits (marker_rest msg) = 0%N ->
    exists text, App.on_progress msg job = inl (ValueError text))) /\
  (Py.startswith "__total__" msg = false ->
   App.on_progress msg job = inr (with_progress msg job)) /\
  (forall n, (N.of_nat (String.length (Py.str_of_nat n)) <= 4300)%N ->
             App.on_progress ("__total__" +:+ Py.str_of_nat n) job
             = inr (with_total (Z.of_nat n) job)) /\
  (forall msgs,
      marker_free (App.progress job) ->
      marker_free (App.progress (deliver msgs job))) /\
  (forall w fuel creator output_dir,
      marker_free (App.progress job) ->
      marker_free
        (App.progress
           (cb (scrape_creator w fuel creator output_dir (Some App.on_progress)
                               (start job)).2))).
Proof.
  split; [|split; [|split; [|split]]].
  - intros E. unfold App.on_progress, marker_rest. rewrite E.
    split; [|split; [|split]].
    + intros job'. destruct (App.int _) as [e|n]; [discriminate|].
      intros H. injection H as <-. exists n. reflexivity.
    + intros e. destruct (App.int _) as [e'|n] eqn:Hi; [|discriminate].
      intros H. injection H as <-. exact (int_error _ _ Hi).
    + intros d Hd Hlen. apply NilZero.sus in Hd. rewrite <- Hd in Hlen |- *.
      rewrite (int_digits _ _ (isdigits_string_of_uint d) (digits_go_string_of_uint d)).
      destruct (N.ltb_spec0 App.max_str_digits
                  (N.of_nat (String.length (NilZero.string_of_uint d))));
        [unfold App.max_str_digits in *; lia|reflexivity].
    + intros _ Hc. rewrite (int_no_digit _ Hc). eexists. reflexivity.
  - intros E. unfold App.on_progress. rewrite E. reflexivity.
  - intros n Hn. apply on_progress_total_marker. exact Hn.
  - intros msgs. revert job. induction msgs as [|m rest IH]; intros job Hj; [exact Hj|].
    cbn [deliver]. destruct (App.on_progress m job) as [e|job'] eqn:E; [exact Hj|].
    apply IH. exact (on_progress_keeps_marker_free _ _ _ E Hj).
  - intros w fuel creator output_dir Hj.
    destruct (emits_scrape_creator w (fun j => marker_free (App.progress j))
                fuel creator output_dir (Some App.on_progress)) with (st := start job)
      as (evs & _ & _ & HI).
    + intros f m c c' Hf Hc Hr. injection Hf as <-.
      exact (on_progress_keeps_marker_free _ _ _ Hr Hc).
    + exact Hj.
    + exact HI.
Qed.

(** The marker of a two-project run sets the total; a title that starts
    with the prefix makes the callback raise; another title is appended. *)
Lemma on_progress_spec_witness :
  App.on_progress "__total__2" App.new_job = inr (with_total 2 App.new_job) /\
  (exists text, App.on_progress "__total__ war" App.new_job = inl (ValueError text)) /\
  App.on_progress "Alpha Quest" App.new_job = inr (with_progress "Alpha Quest" App.new_job).
Proof.
  split; [|split].
  - exact (proj1 (proj2 (proj2 (proj1 (on_progress_spec "__total__2" App.new_job) eq_refl)))
             (Decimal.D2 Decimal.Nil) eq_refl ltac:(vm_compute; discriminate)).
  - exact (proj2 (proj2 (proj2 (proj1 (on_progress_spec "__total__ war" App.new_job)
                                      eq_refl)))
             eq_refl eq_refl).
  - exact (proj1 (proj2 (on_progress_spec "Alpha Quest" App.new_job)) eq_refl).
Defined.

(** C10 (as stated) fails: a message that starts with the prefix and is not
    followed by an integer, such as the title of a project, makes the
    callback raise instead of setting the total; and the integer set is read
    after removing every occurrence of the prefix, not from the text after
    the first. *)
Lemma on_progress_prefix_counterexample :
  (Py.startswith "__total__" "__total__ war" = true /\
   (forall n, App.on_progress "__total__ war" App.new_job
              <> inr (with_total n App.new_job)) /\
   App.on_progress "__total__ war" App.new_job
   = inl (ValueError "invalid literal for int() with base 10: ' war'")) /\
  (Py.startswith "__total__" "__total__1__total__2" = true /\
   App.on_progress "__total__1__total__2" App.new_job = inr (with_total 12 App.new_job) /\
   App.int "1__total__2"
   = inl (ValueError "invalid literal for int() with base 10: '1__total__2'")).
Proof.
  split; split; try reflexivity.
  - split; [intros n H; discriminate H|]. vm_compute. reflexivity.
  - split; vm_compute; reflexivity.
Qed.

(** * Further properties of the code *)

(** ** [_clean] *)

Section CleanFacts.

Lemma single_spaced_sub_spaces b s : single_spaced b (Py.sub_spaces_go b s) = true.
Proof.
  revert b. induction s as [|a s IH]; intros b; [reflexivity|].
  cbn [Py.sub_spaces_go]. destruct (Py.isspace a) eqn:Ea.
  - destruct b; [apply IH|].
    cbn [single_spaced]. change (Py.isspace " "%char) with true.
    cbn. apply IH.
  - cbn [single_spaced]. rewrite Ea. apply IH.
Qed.

Lemma single_spaced_lstrip b s :
  single_spaced b s = true -> single_spaced true (Py.lstrip_ws s) = true.
Proof.
  revert b. induction s as [|a s IH]; intros b H; [reflexivity|].
  cbn [Py.lstrip_ws]. cbn [single_spaced] in H.
  destruct (Py.isspace a) eqn:Ea.
  - apply andb_true_iff in H as [_ H]. exact (IH _ H).
  - cbn [single_spaced]. rewrite Ea. exact H.
Qed.

Lemma lstrip_head s : Py.lstrip_ws s = "" \/
                      exists a r, Py.lstrip_ws s = String a r /\ Py.isspace a = false.
Proof.
  induction s as [|a s IH]; [left; reflexivity|].
  cbn [Py.lstrip_ws]. destruct (Py.isspace a) eqn:Ea; [exact IH|].
  right. eauto.
Qed.

Lemma ends_clean_rstrip b s :
  single_spaced b s = true ->
  Py.rstrip_ws s = "" \/ ends_clean b (Py.rstrip_ws s) = true.
Proof.
  revert b. induction s as [|a s IH]; intros b H; [left; reflexivity|].
  cbn [single_spaced] in H. cbn [Py.rstrip_ws].
  destruct (Py.isspace a) eqn:Ea.
  - apply andb_true_iff in H as [H1 H]. destruct (IH _ H) as [->|IH'].
    + left. reflexivity.
    + destruct (Py.rstrip_ws s) as [|a' r] eqn:Er; [left; reflexivity|].
      right. cbn [ends_clean]. rewrite Ea, H1. exact IH'.
  - destruct (IH _ H) as [->|IH'].
    + right. cbn. rewrite Ea. reflexivity.
    + destruct (Py.rstrip_ws s) as [|a' r] eqn:Er.
      * right. cbn. rewrite Ea. reflexivity.
      * right. cbn [ends_clean]. rewrite Ea. exact IH'.
Qed.

Lemma rstrip_head a r :
  Py.isspace a = false -> exists r', Py.rstrip_ws (String a r) = String a r'.
Proof.
  intros Ea. cbn [Py.rstrip_ws]. destruct (Py.rstrip_ws r); rewrite ?Ea; eauto.
Qed.

Lemma normalized_clean_string s : normalized (Py.strip (Py.sub_spaces s)) = true.
Proof.
  unfold Py.strip, Py.sub_spaces.
  pose proof (single_spaced_lstrip _ _ (single_spaced_sub_spaces false s)) as H.
  destruct (ends_clean_rstrip _ _ H) as [->|H']; [reflexivity|].
  unfold normalized. destruct (Py.rstrip_ws _); [reflexivity|exact H'].
Qed.

Lemma ends_clean_sub_spaces b s :
  ends_clean b s = true -> Py.sub_spaces_go b s = s.
Proof.
  revert b. induction s as [|a s IH]; intros b H; [reflexivity|].
  cbn [ends_clean] in H. cbn [Py.sub_spaces_go].
  destruct (Py.isspace a) eqn:Ea.
  - apply andb_true_iff in H as [H1 H]. apply andb_true_iff in H1 as [H0 H1].
    apply Ascii.eqb_eq in H0. subst a. destruct b; [discriminate H1|].
    rewrite (IH _ H). reflexivity.
  - rewrite (IH _ H). reflexivity.
Qed.

Lemma ends_clean_rstrip_id b s : ends_clean b s = true -> Py.rstrip_ws s = s.
Proof.
  revert b. induction s as [|a s IH]; intros b H; [reflexivity|].
  cbn [ends_clean] in H. cbn [Py.rstrip_ws].
  destruct (Py.isspace a) eqn:Ea.
  - apply andb_true_iff in H as [_ H]. rewrite (IH _ H).
    destruct s; [discriminate H|reflexivity].
  - rewrite (IH _ H). destruct s; rewrite ?Ea; reflexivity.
Qed.

Lemma normalized_fixed s :
  normalized s = true -> Py.strip (Py.sub_spaces s) = s.
Proof.
  destruct s as [|a s]; [reflexivity|]. unfold normalized. intros H.
  assert (Ea : Py.isspace a = false).
  { cbn [ends_clean] in H. destruct (Py.isspace a); [|reflexivity].
    rewrite andb_false_r in H. discriminate H. }
  unfold Py.strip, Py.sub_spaces.
  assert (Hs : Py.sub_spaces_go false (String a s) = String a s).
  { cbn [Py.sub_spaces_go]. rewrite Ea. f_equal.
    cbn [ends_clean] in H. rewrite Ea in H. apply (ends_clean_sub_spaces _ _ H). }
  rewrite Hs. cbn [Py.lstrip_ws]. rewrite Ea.
  apply (ends_clean_rstrip_id _ _ H).
Qed.

End CleanFacts.

Lemma isascii_cons a s :
  Py.isascii (String a s) = true -> (nat_of_ascii a <? 128)%nat = true /\ Py.isascii s = true.
Proof. cbn [Py.isascii]. intros H. apply andb_true_iff in H. exact H. Qed.

Lemma isascii_sub_spaces b s :
  Py.isascii s = true -> Py.isascii (Py.sub_spaces_go b s) = true.
Proof.
  revert b. induction s as [|a s IH]; intros b H; [reflexivity|].
  apply isascii_cons in H as [Ha Hs]. cbn [Py.sub_spaces_go].
  destruct (Py.isspace a); [destruct b|].
  - apply IH, Hs.
  - cbn [Py.isascii]. change (nat_of_ascii " " <? 128)%nat with true. apply IH, Hs.
  - cbn [Py.isascii]. rewrite Ha. apply IH, Hs.
Qed.

Lemma isascii_lstrip s : Py.isascii s = true -> Py.isascii (Py.lstrip_ws s) = true.
Proof.
  induction s as [|a s IH]; [reflexivity|]. intros H. cbn [Py.lstrip_ws].
  destruct (Py.isspace a); [|exact H]. apply isascii_cons in H as [_ Hs]. exact (IH Hs).
Qed.

Lemma isascii_rstrip s : Py.isascii s = true -> Py.isascii (Py.rstrip_ws s) = true.
Proof.
  induction s as [|a s IH]; [reflexivity|]. intros H.
  apply isascii_cons in H as [Ha Hs]. specialize (IH Hs). cbn [Py.rstrip_ws].
  destruct (Py.rstrip_ws s) as [|a' r].
  - destruct (Py.isspace a); [reflexivity|]. cbn [Py.isascii]. rewrite Ha. reflexivity.
  - cbn [Py.isascii] in *. rewrite Ha. exact IH.
Qed.

Lemma isascii_clean text :
  (forall s, text = Some s -> Py.isascii s = true) -> Py.isascii (_clean text) = true.
Proof.
  intros H. unfold _clean. destruct (negb (Py.truthy_opt text)); [reflexivity|].
  destruct text as [s|]; [|reflexivity]. cbn [default].
  apply isascii_rstrip, isascii_lstrip, isascii_sub_spaces, H. reflexivity.
Qed.

(** X1. On ASCII text, [_clean] returns normalised text: words separated by
    single spaces, without whitespace at either end, and ASCII again.  It
    leaves normalised ASCII text as it is, and is therefore idempotent. *)
Theorem clean_normalizes (text : option string) :
  (forall s, text = Some s -> Py.isascii s = true) ->
  normalized (_clean text) = true /\
  Py.isascii (_clean text) = true /\
  (forall s, Py.isascii s = true -> normalized s = true -> _clean (Some s) = s) /\
  _clean (Some (_clean text)) = _clean text.
Proof.
  intros Hascii.
  assert (Hn : forall t, normalized (_clean t) = true).
  { intros t. unfold _clean. destruct (negb (Py.truthy_opt t)); [reflexivity|].
    apply normalized_clean_string. }
  assert (Hf : forall s, normalized s = true -> _clean (Some s) = s).
  { intros s H. unfold _clean. destruct s as [|a s]; [reflexivity|].
    cbn [Py.truthy_opt Py.truthy negb default]. apply normalized_fixed, H. }
  split; [apply Hn|]. split; [apply isascii_clean, Hascii|].
  split; [intros s _; apply Hf|]. apply Hf, Hn.
Qed.

(** A heading with blanks around and a line break inside. *)
Lemma clean_normalizes_witness :
  normalized "Alpha Quest" = true /\
  Py.isascii "Alpha Quest" = true /\
  (forall s, Py.isascii s = true -> normalized s = true -> _clean (Some s) = s) /\
  _clean (Some "Alpha Quest") = "Alpha Quest".
Proof.
  exact (clean_normalizes (Some "  Alpha
 Quest ") ltac:(intros s H; injection H as <-; reflexivity)).
Defined.

Lemma all_space_sub_spaces b s : all_space (Py.sub_spaces_go b s) = all_space s.
Proof.
  revert b. induction s as [|a s IH]; intros b; [reflexivity|].
  cbn [Py.sub_spaces_go all_space]. destruct (Py.isspace a) eqn:Ea.
  - destruct b; [apply IH|]. cbn [all_space].
    change (Py.isspace " "%char) with true. apply IH.
  - cbn [all_space]. rewrite Ea. reflexivity.
Qed.

Lemma all_space_lstrip s : all_space (Py.lstrip_ws s) = all_space s.
Proof.
  induction s as [|a s IH]; [reflexivity|].
  cbn [Py.lstrip_ws all_space]. destruct (Py.isspace a) eqn:Ea; [exact IH|].
  cbn [all_space]. rewrite Ea. reflexivity.
Qed.

Lemma all_space_rstrip s : all_space (Py.rstrip_ws s) = all_space s.
Proof.
  induction s as [|a s IH]; [reflexivity|].
  cbn [Py.rstrip_ws all_space]. rewrite <- IH.
  destruct (Py.rstrip_ws s) as [|a' r].
  - destruct (Py.isspace a) eqn:Ea; [reflexivity|]. cbn. rewrite Ea. reflexivity.
  - reflexivity.
Qed.

Lemma normalized_all_space s : normalized s = true -> all_space s = true -> s = "".
Proof.
  destruct s as [|a s]; [reflexivity|]. unfold normalized. cbn [ends_clean all_space].
  destruct (Py.isspace a); [|discriminate].
  rewrite andb_false_r. discriminate.
Qed.

(** X2. On ASCII text, [_clean] returns the empty string exactly for [None]
    and for strings made of whitespace only (the empty string among
    them). *)
Theorem clean_empty_iff (text : option string) :
  (forall s, text = Some s -> Py.isascii s = true) ->
  _clean text = "" <->
  text = None \/ exists s, text = Some s /\ all_space s = true.
Proof.
  intros _.
  assert (Hall : forall s, all_space (Py.strip (Py.sub_spaces s)) = all_space s).
  { intros s. unfold Py.strip, Py.sub_spaces.
    rewrite all_space_rstrip, all_space_lstrip, all_space_sub_spaces. reflexivity. }
  destruct text as [s|]; [|split; [left|]; reflexivity].
  destruct s as [|a s].
  - split; [right; exists ""; split; reflexivity|reflexivity].
  - change (_clean (Some (String a s))) with (Py.strip (Py.sub_spaces (String a s))).
    split.
    + intros H. right. exists (String a s). split; [reflexivity|].
      rewrite <- Hall, H. reflexivity.
    + intros [H|(s' & H & Hs)]; [discriminate H|]. injection H as <-.
      apply normalized_all_space; [apply normalized_clean_string|].
      rewrite Hall. exact Hs.
Qed.

(** Blanks and line breaks only. *)
Lemma clean_empty_iff_witness :
  _clean (Some "  
 ") = "" <->
  Some "  
 " = None \/ exists s, Some "  
 " = Some s /\ all_space s = true.
Proof.
  exact (clean_empty_iff (Some "  
 ") ltac:(intros s H; injection H as <-; reflexivity)).
Defined.

(** ** [_ext_from_url] and file names *)

Lemma contains_last_split d c s :
  Py.contains d s = false -> Py.contains d (Py.last (Py.split c s)) = false.
Proof.
  intros H. destruct (PyFacts.last_split_decomp c s) as [_ [E|[p E]]].
  - rewrite <- E. exact H.
  - rewrite E, PyFacts.contains_app in H. apply orb_false_iff in H as [_ H].
    cbn [Py.contains] in H. destruct (Ascii.eqb c d); [discriminate H|exact H].
Qed.

Lemma contains_first_split d c s :
  Py.contains d s = false -> Py.contains d (Py.first (Py.split c s)) = false.
Proof.
  intros H. destruct (PyFacts.first_split_decomp c s) as [_ [E|[q E]]].
  - rewrite <- E. exact H.
  - rewrite E, PyFacts.contains_app in H. apply orb_false_iff in H as [H _]. exact H.
Qed.

Lemma ext_from_url_shape url :
  exists e, _ext_from_url url = String "."%char e /\
            Py.contains "."%char e = false /\
            Py.contains "/"%char e = false /\
            Py.contains "?"%char e = false.
Proof.
  unfold _ext_from_url.
  destruct (PyFacts.first_split_decomp "?"%char url) as [Hq _].
  set (path := Py.first (Py.split "?"%char url)) in *.
  destruct (PyFacts.last_split_decomp "/"%char path) as [Hs _].
  pose proof (contains_last_split "?"%char "/"%char path Hq) as Hsq.
  set (seg := Py.last (Py.split "/"%char path)) in *.
  destruct (Py.contains "."%char seg).
  - rewrite PyFacts.last_rsplit1.
    exists (Py.last (Py.split "."%char seg)). split; [reflexivity|].
    destruct (PyFacts.last_split_decomp "."%char seg) as [Hd _].
    split; [exact Hd|]. split; apply contains_last_split; assumption.
  - exists "jpg". repeat split; reflexivity.
Qed.

Lemma parts_single s :
  Py.contains "/"%char s = false -> s <> "" -> s <> "." -> parts s = [s].
Proof.
  intros Hc Hne Hnd. unfold parts. rewrite (PyFacts.split_no_sep _ _ Hc).
  cbn [List.filter].
  destruct (String.eqb_spec s ""); [congruence|].
  destruct (String.eqb_spec s "."); [congruence|]. reflexivity.
Qed.

Lemma asset_name_single stem url :
  Py.contains "/"%char stem = false -> stem <> "" ->
  parts (stem +:+ _ext_from_url url) = [stem +:+ _ext_from_url url].
Proof.
  intros Hs Hne. destruct (ext_from_url_shape url) as (e & -> & _ & He & _).
  apply parts_single.
  - rewrite PyFacts.contains_app, Hs. cbn [Py.contains orb].
    change (Ascii.eqb "." "/") with false. cbn. exact He.
  - destruct stem; [congruence|discriminate].
  - destruct stem as [|a r]; [congruence|]. rewrite PyFacts.sapp_cons.
    intros H. injection H as _ H. destruct r; discriminate H.
Qed.

Lemma digit_not_punct a :
  is_Some (App.digit a) ->
  Ascii.eqb a "/"%char = false /\ Ascii.eqb a "."%char = false.
Proof.
  destruct a as [[] [] [] [] [] [] [] []]; intros [d Hd];
    try discriminate Hd; split; reflexivity.
Qed.

Lemma isdigits_str_of_nat n : isdigits (Py.str_of_nat n) = true.
Proof.
  unfold Py.str_of_nat, NilZero.string_of_uint.
  destruct (Nat.to_uint n); try reflexivity; apply isdigits_uint.
Qed.

Lemma digits_no_slash s : isdigits s = true -> Py.contains "/"%char s = false.
Proof.
  induction s as [|a s IH]; [reflexivity|]. cbn [isdigits Py.contains].
  intros H. apply andb_true_iff in H as [Ha Hs]. apply bool_decide_eq_true in Ha.
  destruct (digit_not_punct a Ha) as [-> _]. exact (IH Hs).
Qed.

Lemma joinpath_cover dir url :
  joinpath dir ("cover" +:+ _ext_from_url url) = dir ++ ["cover" +:+ _ext_from_url url].
Proof.
  unfold joinpath. rewrite asset_name_single; [reflexivity|reflexivity|discriminate].
Qed.

Lemma joinpath_screenshot dir i url :
  joinpath dir ("screenshot_" +:+ Py.str_of_nat i +:+ _ext_from_url url)
  = dir ++ ["screenshot_" +:+ Py.str_of_nat i +:+ _ext_from_url url].
Proof.
  unfold joinpath. rewrite <- PyFacts.sapp_assoc.
  rewrite asset_name_single; [reflexivity| |discriminate].
  rewrite PyFacts.contains_app.
  rewrite (digits_no_slash _ (isdigits_str_of_nat i)). reflexivity.
Qed.

(** X3. The extension chosen by [_ext_from_url] is always a dot followed
    by text without dot, slash or question mark; so the file names
    [cover<ext>] and [screenshot_<i><ext>] are single path components and
    the asset lands directly in the directory it is joined to. *)
Theorem ext_from_url_is_safe (url : string) (dir : Path) (i : nat) :
  (exists e, _ext_from_url url = String "."%char e /\
             Py.contains "."%char e = false /\
             Py.contains "/"%char e = false /\
             Py.contains "?"%char e = false) /\
  joinpath dir ("cover" +:+ _ext_from_url url) = dir ++ ["cover" +:+ _ext_from_url url] /\
  joinpath dir ("screenshot_" +:+ Py.str_of_nat i +:+ _ext_from_url url)
  = dir ++ ["screenshot_" +:+ Py.str_of_nat i +:+ _ext_from_url url] /\
  parent (joinpath dir ("cover" +:+ _ext_from_url url)) = dir.
Proof.
  split; [apply ext_from_url_shape|].
  split; [apply joinpath_cover|]. split; [apply joinpath_screenshot|].
  rewrite joinpath_cover. unfold parent. apply removelast_last.
Qed.

(** ** Where [scrape_project] and [scrape_creator] write *)

Lemma slug_no_slash u : Py.contains "/"%char (extract_slug u) = false.
Proof.
  unfold extract_slug. rewrite PyFacts.last_rsplit1.
  apply (PyFacts.last_split_decomp "/"%char).
Qed.

Lemma project_dir_cases output_dir u :
  (extract_slug u = "" \/ extract_slug u = ".") /\ project_dir output_dir u = output_dir \/
  project_dir output_dir u = output_dir ++ [extract_slug u].
Proof.
  unfold project_dir, joinpath.
  destruct (String.eqb_spec (extract_slug u) "") as [E|N1].
  { left. split; [left; exact E|]. rewrite E. apply app_nil_r. }
  destruct (String.eqb_spec (extract_slug u) ".") as [E|N2].
  { left. split; [right; exact E|]. rewrite E. apply app_nil_r. }
  right. rewrite parts_single; [reflexivity|apply slug_no_slash|assumption|assumption].
Qed.

Lemma rstrip_app_dots c s : c <> "."%char -> Py.rstrip c (s +:+ "..") = s +:+ "..".
Proof.
  intros Hc. induction s as [|a s IH].
  - assert (E : Ascii.eqb "."%char c = false) by (apply Ascii.eqb_neq; congruence).
    change ("" +:+ "..") with "..". cbn [Py.rstrip]. rewrite E. reflexivity.
  - rewrite PyFacts.sapp_cons. cbn [Py.rstrip]. rewrite IH.
    destruct s; reflexivity.
Qed.

Lemma slug_dotdot base : extract_slug (base +:+ "/..") = "..".
Proof.
  unfold extract_slug.
  change (base +:+ "/..") with (base +:+ String "/"%char "..").
  assert (H : Py.rstrip "/"%char (base +:+ String "/"%char "..")
              = base +:+ String "/"%char "..").
  { replace (base +:+ String "/"%char "..") with ((base +:+ "/") +:+ "..")
      by (rewrite PyFacts.sapp_assoc; reflexivity).
    apply rstrip_app_dots. discriminate. }
  rewrite H, PyFacts.last_rsplit1, PyFacts.last_split_app_sep. reflexivity.
Qed.

(** X4. The slug of a URL never contains a slash.  The project directory
    is the output directory itself when the slug is empty or a single dot;
    it is the parent of the output directory ([output_dir/..]) when the
    slug is [..], which is the slug of every URL that ends in [/..]; in
    every other case the slug names an entry and the project directory is
    that child of the output directory. *)
Theorem slug_is_one_component (output_dir : Path) (u : string) :
  Py.contains "/"%char (extract_slug u) = false /\
  (((extract_slug u = "" \/ extract_slug u = ".") /\
    project_dir output_dir u = output_dir) \/
   (extract_slug u = ".." /\ project_dir output_dir u = output_dir ++ [".."]) \/
   (entry_name (extract_slug u) /\
    project_dir output_dir u = output_dir ++ [extract_slug u])) /\
  (forall base, extract_slug (base +:+ "/..") = "..").
Proof.
  split; [apply slug_no_slash|]. split; [|apply slug_dotdot].
  destruct (project_dir_cases output_dir u) as [H|H]; [left; exact H|].
  destruct (String.eqb_spec (extract_slug u) "") as [E|N1].
  { left. split; [left; exact E|]. unfold project_dir, joinpath. rewrite E. apply app_nil_r. }
  destruct (String.eqb_spec (extract_slug u) ".") as [E|N2].
  { left. split; [right; exact E|]. unfold project_dir, joinpath. rewrite E. apply app_nil_r. }
  destruct (String.eqb_spec (extract_slug u) "..") as [E|N3].
  { right. left. split; [exact E|]. rewrite H, E. reflexivity. }
  right. right. split; [|exact H].
  repeat split; try assumption. apply slug_no_slash.
Qed.

Section Confinement.

Context {CB : Type} (w : World).







End Confinement.


Section Containment.

Context {CB : Type} (w : World).

Lemma entry_name_literal c :
  c <> "" -> c <> "." -> c <> ".." -> Py.contains "/"%char c = false -> entry_name c.
Proof. unfold entry_name. auto. Qed.

Lemma entry_name_asset stem url a r :
  stem = String a r -> a <> "."%char -> Py.contains "/"%char stem = false ->
  entry_name (stem +:+ _ext_from_url url).
Proof.
  intros -> Ha Hs. destruct (ext_from_url_shape url) as (e & -> & _ & He & _).
  rewrite PyFacts.sapp_cons. apply entry_name_literal.
  - discriminate.
  - intros H. injection H as H _. congruence.
  - intros H. injection H as H _. congruence.
  - change (String a (r +:+ String "." e)) with (String a r +:+ String "." e).
    rewrite PyFacts.contains_app, Hs. cbn [Py.contains orb].
    change (Ascii.eqb "." "/") with false. cbn. exact He.
Qed.

Lemma cover_task_names imgs cu (t : Task) :
  t ∈ (cover_task imgs cu).1 -> exists name, t.2 = imgs ++ [name] /\ entry_name name.
Proof.
  unfold cover_task. destruct cu as [c|]; [destruct (Py.truthy c)|];
    cbn [fst]; intros H; try (inversion H; fail).
  apply list_elem_of_singleton in H as ->. cbn [snd].
  eexists. split; [apply joinpath_cover|].
  eapply entry_name_asset; [reflexivity|discriminate|reflexivity].
Qed.

Lemma screenshot_tasks_names_entry imgs i surls (t : Task) :
  t ∈ (screenshot_tasks imgs i surls).1 ->
  exists name, t.2 = imgs ++ [name] /\ entry_name name.
Proof.
  revert i. induction surls as [|s rest IH]; intros i; [intros H; inversion H|].
  cbn [screenshot_tasks]. specialize (IH (S i)).
  destruct (screenshot_tasks imgs (S i) rest) as [tasks saved]. cbn [fst] in *.
  intros H. apply elem_of_cons in H as [->|H]; [|exact (IH H)].
  cbn [snd]. eexists. split; [apply joinpath_screenshot|].
  rewrite <- PyFacts.sapp_assoc.
  eapply entry_name_asset; [rewrite PyFacts.sapp_cons; reflexivity|discriminate|].
  rewrite PyFacts.contains_app, (digits_no_slash _ (isdigits_str_of_nat i)). reflexivity.
Qed.

Lemma download_trace_below root sub name u :
  Forall entry_name sub -> entry_name name ->
  Forall (below root) (download_trace w u ((root ++ sub) ++ [name])).
Proof.
  intros Hsub Hname. unfold download_trace, download_warning, parent.
  rewrite removelast_last.
  assert (Hd : below root (Mkdir (root ++ sub) true)) by (exists sub; auto).
  assert (Hw : forall data, below root (WriteBytes ((root ++ sub) ++ [name]) data)).
  { intros data. exists (sub ++ [name]). split; [rewrite app_assoc; reflexivity|].
    apply Forall_app. split; [exact Hsub|]. constructor; [exact Hname|constructor]. }
  destruct (fetch_ok w u); [destruct (mkdir_ok w (root ++ sub));
                            [destruct (write_ok w _)|]|];
    repeat first [exact Logic.I | exact Hd | apply Hw | constructor].
Qed.

Lemma downloads_trace_below root sub tasks :
  Forall entry_name sub ->
  (forall t : Task, t ∈ tasks -> exists name, t.2 = (root ++ sub) ++ [name] /\ entry_name name) ->
  Forall (below root) (downloads_trace w tasks).
Proof.
  intros Hsub Ht. unfold downloads_trace.
  induction tasks as [|t rest IH]; [constructor|].
  rewrite fmap_cons. cbn [concat]. apply Forall_app. split.
  - destruct (Ht t) as (name & Hn & He); [left|]. rewrite Hn.
    apply download_trace_below; assumption.
  - apply IH. intros t' H. apply Ht. right. exact H.
Qed.

Lemma entry_name_images : entry_name "images".
Proof. apply entry_name_literal; [discriminate..|reflexivity]. Qed.

Lemma entry_name_metadata : entry_name "metadata.json".
Proof. apply entry_name_literal; [discriminate..|reflexivity]. Qed.

Lemma entry_name_index : entry_name "index.json".
Proof. apply entry_name_literal; [discriminate..|reflexivity]. Qed.

Lemma emits_scrape_project_below (I : CB -> Prop) u output_dir on_progress :
  callback_keeps I on_progress ->
  emits (below (project_dir output_dir u)) I
        (scrape_project w u output_dir on_progress).
Proof.
  intros Hcb. unfold scrape_project.
  fold (project_dir output_dir u). fold (images_dir output_dir u).
  assert (Himgs : images_dir output_dir u = project_dir output_dir u ++ ["images"])
    by reflexivity.
  apply emits_bind; [apply emits_fetch; exact Logic.I|]. intros resp. cbv zeta.
  apply emits_bind; [apply emits_lift|]. intros ttl.
  apply emits_bind.
  { apply emits_mkdir. exists []. rewrite app_nil_r. split; [reflexivity|constructor]. }
  intros _.
  apply emits_bind; [apply emits_lift|]. intros rating.
  apply emits_bind; [apply emits_lift|]. intros rating_count.
  apply emits_bind.
  { apply emits_mkdir. exists ["images"]. split; [exact Himgs|].
    constructor; [exact entry_name_images|constructor]. }
  intros _.
  apply emits_bind; [apply emits_lift|]. intros cu.
  pose proof (cover_task_names (images_dir output_dir u) cu) as Hc.
  pose proof (screenshot_tasks_names_entry (images_dir output_dir u) 0
                (extract_screenshot_urls (BeautifulSoup w (text resp)))) as Hs.
  destruct (cover_task (images_dir output_dir u) cu) as [ctasks csaved].
  destruct (screenshot_tasks (images_dir output_dir u) 0 _) as [stasks ssaved].
  cbn [fst] in Hc, Hs.
  apply emits_bind.
  { intros st HI. rewrite run_downloads_run. cbn.
    exists (downloads_trace w (ctasks ++ stasks)).
    split; [reflexivity|]. split; [|exact HI].
    apply (downloads_trace_below _ ["images"]).
    - constructor; [exact entry_name_images|constructor].
    - intros t Ht. rewrite <- Himgs. apply elem_of_app in Ht as [Ht|Ht]; auto. }
  intros _.
  apply emits_bind.
  { apply emits_write_text. exists ["metadata.json"]. split; [reflexivity|].
    constructor; [exact entry_name_metadata|constructor]. }
  intros _.
  apply emits_bind; [|intros _; apply emits_ret].
  destruct on_progress as [f|]; [|apply emits_ret].
  eapply emits_call_progress; [exact Hcb|reflexivity|exact Logic.I].
Qed.

Lemma below_child root c ev : entry_name c -> below (root ++ [c]) ev -> below root ev.
Proof.
  intros Hc. destruct ev; cbn; auto; intros (rest & -> & Hr);
    (exists (c :: rest); split; [rewrite <- app_assoc; reflexivity|constructor; assumption]).
Qed.

(** The project directory by the kind of its slug. *)
Lemma project_dir_kinds output_dir u :
  ((extract_slug u = "" \/ extract_slug u = ".") /\
   project_dir output_dir u = output_dir) \/
  (extract_slug u = ".." /\ project_dir output_dir u = output_dir ++ [".."]) \/
  (entry_name (extract_slug u) /\
   project_dir output_dir u = output_dir ++ [extract_slug u]).
Proof.
  destruct (project_dir_cases output_dir u) as [H|H]; [left; exact H|].
  destruct (String.eqb_spec (extract_slug u) "") as [E|N1].
  { left. split; [left; exact E|]. unfold project_dir, joinpath. rewrite E. apply app_nil_r. }
  destruct (String.eqb_spec (extract_slug u) ".") as [E|N2].
  { left. split; [right; exact E|]. unfold project_dir, joinpath. rewrite E. apply app_nil_r. }
  destruct (String.eqb_spec (extract_slug u) "..") as [E|N3].
  { right. left. split; [exact E|]. rewrite H, E. reflexivity. }
  right. right. split; [|exact H].
  repeat split; try assumption. apply slug_no_slash.
Qed.

Lemma emits_scrape_loop_beside (I : CB -> Prop) urls output_dir on_progress acc :
  callback_keeps I on_progress ->
  emits (below_or_beside output_dir) I (scrape_loop w urls output_dir on_progress acc).
Proof.
  intros Hcb. revert acc. induction urls as [|u rest IH]; intros acc; [apply emits_ret|].
  apply emits_bind; [|intros meta; apply IH].
  eapply emits_weaken; [|apply emits_scrape_project_below, Hcb].
  intros ev Hev. unfold below_or_beside.
  destruct (project_dir_kinds output_dir u) as [[_ E]|[[_ E]|[Hn E]]];
    rewrite E in Hev; [left; exact Hev|right; exact Hev|left].
  exact (below_child _ _ _ Hn Hev).
Qed.

Lemma emits_scrape_loop_below (I : CB -> Prop) urls output_dir on_progress acc :
  callback_keeps I on_progress ->
  Forall (fun u => extract_slug u <> "..") urls ->
  emits (below output_dir) I (scrape_loop w urls output_dir on_progress acc).
Proof.
  intros Hcb Hu. revert acc.
  induction urls as [|u rest IH]; intros acc; [apply emits_ret|].
  apply Forall_cons in Hu as [Hu Hrest].
  apply emits_bind; [|intros meta; apply IH, Hrest].
  eapply emits_weaken; [|apply emits_scrape_project_below, Hcb].
  intros ev Hev.
  destruct (project_dir_kinds output_dir u) as [[_ E]|[[E _]|[Hn E]]];
    [rewrite E in Hev; exact Hev|congruence|].
  rewrite E in Hev. exact (below_child _ _ _ Hn Hev).
Qed.

Lemma below_index output_dir doc :
  below output_dir (WriteText (joinpath output_dir "index.json") doc).
Proof.
  exists ["index.json"]. split; [reflexivity|].
  constructor; [exact entry_name_index|constructor].
Qed.

(** What [scrape_creator] does with a list of URLs that is not empty. *)
Lemma emits_projects (Q : Event -> Prop) (I : CB -> Prop) urls output_dir on_progress
      creator :
  callback_keeps I on_progress ->
  (forall msg, Q (Progress msg)) ->
  (forall doc, Q (WriteText (joinpath output_dir "index.json") doc)) ->
  (forall acc, emits Q I (scrape_loop w urls output_dir on_progress acc)) ->
  emits Q I
    (bind (match on_progress with
           | Some f => call_progress f ("__total__" +:+ Py.str_of_nat (length urls))
           | None => ret tt
           end)
          (fun _ =>
             bind (scrape_loop w urls output_dir on_progress [])
                  (fun results =>
                     bind (write_text w (joinpath output_dir "index.json")
                                      (index_json creator results))
                          (fun _ => ret results)))).
Proof.
  intros Hcb Hp Hi Hl.
  apply emits_bind.
  { destruct on_progress as [f|] eqn:E; [|apply emits_ret].
    eapply emits_call_progress; [exact Hcb|reflexivity|apply Hp]. }
  intros _. apply emits_bind; [apply Hl|]. intros results.
  apply emits_bind; [|intros _; apply emits_ret].
  apply emits_write_text. apply Hi.
Qed.

End Containment.

(** X6. What [scrape_creator] creates and writes.  Its first effect is the
    creation of the output directory, with the ancestors that are missing.
    Every directory or file after that is named by a path that goes from
    the output directory down through names of entries, or, for a project
    whose slug is [..], from [output_dir/..] down: nothing else leaves the
    output directory.  When no discovered URL has the slug [..], every such
    path lies in the output directory. *)
Theorem scrape_creator_confined {CB : Type} (w : World) (fuel : nat) (creator : string)
        (output_dir : Path) (on_progress : option Callback) (st : State CB) :
  exists evs,
    trace (scrape_creator w fuel creator output_dir on_progress st).2
    = trace st ++ (if mkdir_ok w output_dir then Mkdir output_dir true :: evs else []) /\
    Forall (below_or_beside output_dir) evs /\
    ((forall urls st1,
         fetch_project_urls w fuel creator (logged st [Mkdir output_dir true])
         = (Ret urls, st1) ->
         Forall (fun u => extract_slug u <> "..") urls) ->
     Forall (below output_dir) evs).
Proof.
  unfold scrape_creator, bind at 1, mkdir.
  destruct (mkdir_ok w output_dir).
  2:{ exists []. cbn. rewrite app_nil_r. split; [reflexivity|]. split; intros; constructor. }
  cbn [emit]. fold (logged st [Mkdir output_dir true]).
  set (s0 := logged st [Mkdir output_dir true]).
  assert (Hk : callback_keeps (fun _ : CB => True) on_progress)
    by (intros f msg c c' _ _ _; exact Logic.I).
  destruct (emits_fetch_loop w (below output_dir) (fun _ => True) fuel
              ("https://" +:+ creator +:+ ".itch.io") 1 []
              (fun _ => Logic.I) s0 Logic.I) as (evs1 & Ht1 & Hb1 & _).
  fold (fetch_project_urls (CB := CB) w fuel creator) in Ht1.
  unfold bind at 1.
  destruct (fetch_project_urls w fuel creator s0) as [[urls|e|] s1] eqn:Hf;
    cbn [snd] in Ht1.
  - destruct urls as [|u0 urls'].
    + exists evs1. cbn [raise snd]. rewrite Ht1. unfold s0, logged. cbn [trace].
      rewrite <- app_assoc. split; [reflexivity|].
      split; [|intros _; exact Hb1].
      eapply Forall_impl; [exact Hb1|]. intros ev H. left. exact H.
    + destruct (emits_projects w (below_or_beside output_dir) (fun _ => True)
                  (u0 :: urls') output_dir on_progress creator Hk
                  (fun _ => or_introl Logic.I)
                  (fun doc => or_introl (below_index output_dir doc))
                  (fun acc => emits_scrape_loop_beside w _ _ _ _ acc Hk) s1 Logic.I)
        as (evs2 & Ht2 & Hq2 & _).
      exists (evs1 ++ evs2). rewrite Ht2, Ht1. unfold s0, logged. cbn [trace].
      rewrite <- !app_assoc. split; [reflexivity|]. split.
      * apply Forall_app. split; [|exact Hq2].
        eapply Forall_impl; [exact Hb1|]. intros ev H. left. exact H.
      * intros Hu. specialize (Hu _ _ eq_refl).
        destruct (emits_projects w (below output_dir) (fun _ => True)
                    (u0 :: urls') output_dir on_progress creator Hk
                    (fun _ => Logic.I) (below_index output_dir)
                    (fun acc => emits_scrape_loop_below w _ _ _ _ acc Hk Hu) s1 Logic.I)
          as (evs2' & Ht2' & Hq2' & _).
        rewrite Ht2 in Ht2'. apply app_inv_head in Ht2'. subst evs2'.
        apply Forall_app. split; assumption.
  - exists evs1. cbn [snd]. rewrite Ht1. unfold s0, logged. cbn [trace].
    rewrite <- app_assoc. split; [reflexivity|].
    split; [|intros _; exact Hb1].
    eapply Forall_impl; [exact Hb1|]. intros ev H. left. exact H.
  - exists evs1. cbn [snd]. rewrite Ht1. unfold s0, logged. cbn [trace].
    rewrite <- app_assoc. split; [reflexivity|].
    split; [|intros _; exact Hb1].
    eapply Forall_impl; [exact Hb1|]. intros ev H. left. exact H.
Qed.

(** The two-project site: no slug is [..], and everything lies in the
    output directory. *)
Lemma scrape_creator_confined_witness :
  exists evs,
    trace (scrape_creator Demo.world 5 "dev" Demo.out None (start tt)).2
    = [] ++ Mkdir Demo.out true :: evs /\
    Forall (below Demo.out) evs.
Proof.
  destruct (scrape_creator_confined Demo.world 5 "dev" Demo.out None (start tt))
    as (evs & Ht & _ & Hb).
  exists evs. split; [exact Ht|]. apply Hb.
  intros urls st1 H. vm_compute in H. injection H as <- _.
  repeat constructor; vm_compute; discriminate.
Defined.


(** ** Asset file names do not collide *)

Lemma str_of_nat_inj i j : Py.str_of_nat i = Py.str_of_nat j -> i = j.
Proof.
  intros H. pose proof (digits_go_str_of_nat i) as Hi.
  rewrite H, digits_go_str_of_nat in Hi. injection Hi as Hi. lia.
Qed.

Lemma digits_dot_inj d1 d2 x y :
  isdigits d1 = true -> isdigits d2 = true ->
  d1 +:+ String "."%char x = d2 +:+ String "."%char y -> d1 = d2.
Proof.
  revert d2. induction d1 as [|a d1 IH]; intros [|b d2] H1 H2 E.
  - reflexivity.
  - exfalso. cbn in H2. apply andb_true_iff in H2 as [Hb _].
    apply bool_decide_eq_true in Hb. destruct (digit_not_punct b Hb) as [_ Hd].
    rewrite PyFacts.sapp_cons in E. injection E as <- _. discriminate Hd.
  - exfalso. cbn in H1. apply andb_true_iff in H1 as [Ha _].
    apply bool_decide_eq_true in Ha. destruct (digit_not_punct a Ha) as [_ Hd].
    rewrite PyFacts.sapp_cons in E. injection E as -> _. discriminate Hd.
  - rewrite !PyFacts.sapp_cons in E. injection E as -> E.
    cbn in H1, H2. apply andb_true_iff in H1 as [_ H1]. apply andb_true_iff in H2 as [_ H2].
    f_equal. exact (IH _ H1 H2 E).
Qed.

Lemma screenshot_name_inj i j u v :
  "screenshot_" +:+ Py.str_of_nat i +:+ _ext_from_url u
  = "screenshot_" +:+ Py.str_of_nat j +:+ _ext_from_url v -> i = j.
Proof.
  intros E. apply (inj (String.app "screenshot_")) in E.
  destruct (ext_from_url_shape u) as (e1 & E1 & _).
  destruct (ext_from_url_shape v) as (e2 & E2 & _).
  rewrite E1, E2 in E.
  apply str_of_nat_inj.
  exact (digits_dot_inj _ _ _ _ (isdigits_str_of_nat i) (isdigits_str_of_nat j) E).
Qed.

Lemma screenshot_tasks_dest_list imgs i surls :
  task_dest <$> (screenshot_tasks imgs i surls).1 =
  imap (fun k surl => imgs ++ ["screenshot_" +:+ Py.str_of_nat (i + k)
                                 +:+ _ext_from_url surl]) surls.
Proof.
  revert i. induction surls as [|s rest IH]; intros i; [reflexivity|].
  cbn [screenshot_tasks]. specialize (IH (S i)).
  destruct (screenshot_tasks imgs (S i) rest) as [tasks saved]. cbn [fst] in *.
  rewrite fmap_cons, imap_cons, IH, Nat.add_0_r. f_equal.
  - unfold task_dest. cbn [snd]. apply joinpath_screenshot.
  - apply imap_ext. intros k x _. cbn. replace (i + S k) with (S (i + k)) by lia.
    reflexivity.
Qed.

Lemma singleton_inj {A} (x y : A) : [x] = [y] -> x = y.
Proof. intros H. injection H as H. exact H. Qed.

Lemma NoDup_imap_inj {A B} (f : nat -> A -> B) (l : list A) :
  (forall i j x y, f i x = f j y -> i = j) -> NoDup (imap f l).
Proof.
  intros Hf. apply NoDup_alt. intros i j b Hi Hj.
  rewrite list_lookup_imap in Hi, Hj.
  destruct (l !! i) as [x|]; [|discriminate Hi].
  destruct (l !! j) as [y|]; [|discriminate Hj].
  cbn in Hi, Hj. injection Hi as Hi. injection Hj as Hj.
  apply (Hf i j x y). congruence.
Qed.

(** X7. The download destinations of one project are pairwise distinct:
    the cover and the screenshots, numbered from 0, never share a file, and
    neither do the relative paths listed under [screenshots]. *)
Theorem asset_destinations_distinct (soup : Tag) (imgs : Path) (cu : option string) :
  NoDup (task_dest <$> asset_tasks soup imgs cu) /\
  NoDup (screenshot_tasks imgs 0 (extract_screenshot_urls soup)).2.
Proof.
  split.
  - unfold asset_tasks. rewrite fmap_app, screenshot_tasks_dest_list.
    apply NoDup_app. split; [|split].
    + unfold cover_task. destruct cu as [c|]; [destruct (Py.truthy c)|];
        cbn; try apply NoDup_nil_2. apply NoDup_singleton.
    + intros p Hc Hs.
      apply elem_of_lookup_imap in Hs as (k & surl & -> & _).
      unfold cover_task in Hc. destruct cu as [c|]; [destruct (Py.truthy c)|];
        cbn in Hc; try (inversion Hc; fail).
      apply list_elem_of_singleton in Hc. unfold task_dest in Hc. cbn [snd] in Hc.
      rewrite joinpath_cover in Hc. apply app_inv_head, singleton_inj in Hc.
      discriminate Hc.
    + apply NoDup_imap_inj. intros i j x y E.
      apply app_inv_head, singleton_inj in E.
      replace i with (0 + i) by lia. replace j with (0 + j) by lia.
      rewrite (screenshot_name_inj _ _ _ _ E). reflexivity.
  - rewrite screenshot_tasks_names. apply NoDup_imap_inj. intros i j x y E.
    apply (inj (String.app "images/")) in E.
    replace i with (0 + i) by lia. replace j with (0 + j) by lia.
    rewrite (screenshot_name_inj _ _ _ _ E). reflexivity.
Qed.

(** ** Edge cases of [fetch_project_urls] *)

Lemma listing_hrefs_truthy soup u : u ∈ listing_hrefs soup -> u <> "".
Proof.
  unfold listing_hrefs. intros H. apply list_elem_of_omap in H as (a & _ & H).
  unfold truthy_attr in H. destruct (tag_get a "href") as [v|]; [|discriminate H].
  destruct v; [discriminate H|]. injection H as <-. discriminate.
Qed.

Lemma first_occurrences_nil l : first_occurrences l = [] -> l = [].
Proof. destruct l; [reflexivity|discriminate]. Qed.

Lemma new_urls_nil soup : new_urls [] soup = [] <-> listing_hrefs soup = [].
Proof.
  unfold new_urls. rewrite filter_all by (intros x H; inversion H). split.
  - apply first_occurrences_nil.
  - intros ->. reflexivity.
Qed.

(** X8. No URL returned by [fetch_project_urls] is the empty string: a
    cell without [href], or with an empty one, contributes nothing. *)
Theorem fetch_project_urls_no_empty_url {CB : Type} (w : World) (fuel : nat)
        (creator : string) (st : State CB) (urls : list string) (st' : State CB) :
  fetch_project_urls w fuel creator st = (Ret urls, st') ->
  Forall (fun u => u <> "") urls.
Proof.
  unfold fetch_project_urls. intros H.
  apply fetch_loop_spec in H as (pages & _ & _ & _ & -> & _).
  cbn [app]. apply Forall_forall. intros u Hu.
  apply list_elem_of_filter in Hu as [_ Hu].
  apply elem_of_first_occurrences, elem_of_concat in Hu as (l & Hu & Hl).
  apply list_elem_of_fmap in Hl as (p & -> & _).
  exact (listing_hrefs_truthy _ _ Hu).
Qed.

(** The two-page demo site. *)
Lemma fetch_project_urls_no_empty_url_witness :
  Forall (fun u => u <> "") [Demo.alpha_url; Demo.beta_url].
Proof.
  apply (fetch_project_urls_no_empty_url Demo.world 5 "dev" (start tt) _
           (fetch_project_urls Demo.world 5 "dev" (start tt)).2).
  vm_compute. reflexivity.
Defined.

(** X9. [fetch_project_urls] returns the empty list exactly when the first
    listing page is fetched and offers no project link; it then stops after
    this single request, next-page link or not. *)
Theorem fetch_project_urls_empty_iff {CB : Type} (w : World) (fuel : nat)
        (creator : string) (st : State CB) (st' : State CB) :
  fetch_project_urls w fuel creator st = (Ret [], st') <->
  0 < fuel /\
  exists soup, listing_page w (creator_base creator) 1 = Some soup /\
               listing_hrefs soup = [] /\
               st' = logged st [HttpGet (creator_base creator)].
Proof.
  unfold fetch_project_urls. fold (creator_base creator).
  destruct fuel as [|fuel].
  { split; [intros H; discriminate H|intros [H _]; lia]. }
  rewrite fetch_loop_step. change (page_url (creator_base creator) 1)
    with (creator_base creator).
  destruct (listing_page w (creator_base creator) 1) as [soup|].
  2:{ split; [intros H; discriminate H|intros (_ & s & H & _); discriminate H]. }
  cbn [app].
  destruct (negb (has_next soup) || Nat.eqb (length (new_urls [] soup)) 0) eqn:Hc.
  - split.
    + intros H. injection H as Hn <-. split; [lia|]. exists soup.
      split; [reflexivity|]. split; [apply new_urls_nil, Hn|reflexivity].
    + intros (_ & s & Hs & Hh & ->). injection Hs as <-.
      apply new_urls_nil in Hh. rewrite Hh. reflexivity.
  - apply orb_false_iff in Hc as [_ Hn]. split.
    + intros H. apply fetch_loop_spec in H as (pages & _ & _ & _ & Hu & _).
      destruct (new_urls [] soup); [discriminate Hn|discriminate Hu].
    + intros (_ & s & Hs & Hh & _). injection Hs as <-.
      apply new_urls_nil in Hh. rewrite Hh in Hn. discriminate Hn.
Qed.

Section FetchErrors.

Context {CB : Type} (w : World).

Lemma fetch_loop_Raise_iff fuel base page seen (st : State CB) e st' :
  fetch_loop w fuel base page seen st = (Raise e, st') <->
  exists pages,
    length pages < fuel /\
    (forall i p, pages !! i = Some p -> listing_page w base (page + i) = Some p) /\
    walk_on seen pages /\
    listing_page w base (page + length pages) = None /\
    e = fetch_error w (page_url base (page + length pages)) /\
    st' = logged st (listing_gets base page (S (length pages))).
Proof.
  split.
  - revert page seen st. induction fuel as [|fuel IH]; intros page seen st H.
    { discriminate H. }
    rewrite fetch_loop_step in H.
    destruct (listing_page w base page) as [soup|] eqn:Hp.
    + destruct (negb (has_next soup) || Nat.eqb (length (new_urls seen soup)) 0) eqn:Hc;
        [discriminate H|].
      apply IH in H as (pages & Hlen & Hpages & Hwalk & Hnone & -> & ->).
      apply orb_false_iff in Hc as [Hn Hnew].
      exists (soup :: pages). cbn [length].
      replace (page + S (length pages)) with (page + 1 + length pages) by lia.
      split; [lia|]. split; [|split; [|split; [exact Hnone|split; [reflexivity|]]]].
      * intros [|i] p Hi.
        -- injection Hi as <-. rewrite Nat.add_0_r. exact Hp.
        -- replace (page + S i) with (page + 1 + i) by lia. apply Hpages, Hi.
      * cbn [walk_on]. split; [destruct (has_next soup); [reflexivity|discriminate]|].
        split; [|exact Hwalk]. intros E. rewrite E in Hnew. discriminate.
      * rewrite logged_logged, (listing_gets_S base page). reflexivity.
    + injection H as <- <-. exists []. cbn [length]. rewrite Nat.add_0_r.
      split; [lia|]. split; [intros i p Hi; discriminate Hi|].
      split; [exact Logic.I|]. split; [exact Hp|]. split; reflexivity.
  - intros (pages & Hlen & Hpages & Hwalk & Hnone & -> & ->).
    revert fuel page seen st Hlen Hpages Hwalk Hnone.
    induction pages as [|soup pages IH]; intros fuel page seen st Hlen Hpages Hwalk Hnone;
      (destruct fuel as [|fuel]; [cbn in Hlen; lia|]); rewrite fetch_loop_step.
    + cbn [length] in *. rewrite Nat.add_0_r in *. rewrite Hnone. reflexivity.
    + pose proof (Hpages 0 soup eq_refl) as Hp. rewrite Nat.add_0_r in Hp. rewrite Hp.
      destruct Hwalk as (Hn & Hnew & Hwalk).
      assert (negb (has_next soup) || Nat.eqb (length (new_urls seen soup)) 0 = false)
        as ->.
      { rewrite Hn. cbn. destruct (new_urls seen soup); [congruence|reflexivity]. }
      cbn [length] in *.
      replace (page + S (length pages)) with (page + 1 + length pages) in * by lia.
      rewrite (IH fuel (page + 1)); [|lia| |exact Hwalk|exact Hnone].
      * rewrite logged_logged, (listing_gets_S base page). reflexivity.
      * intros i p Hi. replace (page + 1 + i) with (page + S i) by lia.
        apply Hpages. exact Hi.
Qed.

End FetchErrors.

(** X10. [fetch_project_urls] raises exactly when, after some listing pages
    that each have a next-page link and contribute a new URL, the fetch of
    the following page fails; the exception is the error of that fetch, and
    the URLs collected so far are lost. *)
Theorem fetch_project_urls_raises_iff {CB : Type} (w : World) (fuel : nat)
        (creator : string) (st : State CB) (e : exn) (st' : State CB) :
  fetch_project_urls w fuel creator st = (Raise e, st') <->
  exists pages,
    length pages < fuel /\
    (forall i p, pages !! i = Some p ->
                 listing_page w (creator_base creator) (S i) = Some p) /\
    walk_on [] pages /\
    listing_page w (creator_base creator) (S (length pages)) = None /\
    e = fetch_error w (page_url (creator_base creator) (S (length pages))) /\
    st' = logged st (listing_gets (creator_base creator) 1 (S (length pages))).
Proof.
  unfold fetch_project_urls. fold (creator_base creator).
  apply fetch_loop_Raise_iff.
Qed.

(** On the demo site while the second listing page is gone. *)
Lemma fetch_project_urls_raises_iff_witness :
  fetch_project_urls
    {| http := fun u => if String.eqb u "https://dev.itch.io?page=2"
                        then Demo.not_found else http Demo.world u;
       BeautifulSoup := BeautifulSoup Demo.world;
       mkdir_ok := mkdir_ok Demo.world; write_ok := write_ok Demo.world |}
    5 "dev" (start tt)
  = (Raise (HTTPStatusError "https://dev.itch.io?page=2"),
     {| trace := [HttpGet "https://dev.itch.io"; HttpGet "https://dev.itch.io?page=2"];
        cb := tt |}).
Proof.
  apply fetch_project_urls_raises_iff. exists [Demo.listing1].
  split; [cbn; lia|]. split.
  { intros [|i] p Hi; [|discriminate Hi]. injection Hi as <-. reflexivity. }
  split; [split; [reflexivity|split; [discriminate|exact Logic.I]]|].
  split; [reflexivity|]. split; reflexivity.
Defined.

(** ** How [scrape_creator] and [scrape_project] fail *)

(** X11. When the output directory can be made and the first listing page
    of the creator cannot be fetched, [scrape_creator] raises the error of
    that fetch after these two effects only: no project is requested, the
    callback is not called and no file is written. *)
Theorem scrape_creator_listing_unreachable {CB : Type} (w : World) (fuel : nat)
        (creator : string) (output_dir : Path) (on_progress : option Callback)
        (st : State CB) :
  mkdir_ok w output_dir = true ->
  0 < fuel ->
  fetch_ok w (creator_base creator) = None ->
  scrape_creator w fuel creator output_dir on_progress st =
  (Raise (fetch_error w (creator_base creator)),
   logged st [Mkdir output_dir true; HttpGet (creator_base creator)]).
Proof.
  intros Hm Hfuel Hf. unfold scrape_creator.
  erewrite bind_Ret by (unfold mkdir; rewrite Hm; reflexivity).
  destruct fuel as [|fuel]; [lia|].
  erewrite bind_Raise; [reflexivity|].
  unfold fetch_project_urls. fold (creator_base creator).
  rewrite fetch_loop_step. unfold listing_page.
  change (page_url (creator_base creator) 1) with (creator_base creator).
  rewrite Hf. cbn. unfold logged. cbn. rewrite <- app_assoc. reflexivity.
Qed.

(** A creator the demo site does not know. *)
Lemma scrape_creator_listing_unreachable_witness :
  scrape_creator Demo.world 5 "ghost" Demo.out (Some Demo.silent) (start tt) =
  (Raise (RequestError "https://ghost.itch.io"),
   {| trace := [Mkdir Demo.out true; HttpGet "https://ghost.itch.io"]; cb := tt |}).
Proof.
  apply (scrape_creator_listing_unreachable Demo.world 5 "ghost" Demo.out
           (Some Demo.silent) (start tt)); [reflexivity|lia|reflexivity].
Defined.

Section ProjectErrors.

Context {CB : Type} (w : World).

Lemma bind_Raise_inv {A B} (m : M CB A) (k : A -> M CB B) st e st' :
  bind m k st = (Raise e, st') ->
  m st = (Raise e, st') \/
  exists a st1, m st = (Ret a, st1) /\ k a st1 = (Raise e, st').
Proof.
  unfold bind. destruct (m st) as [[a|e1|] st1]; intros H; [|left|discriminate H].
  - right. eauto.
  - injection H as -> ->. reflexivity.
Qed.

Lemma lift_Raise_inv {A} (r : exn + A) (st : State CB) e st' :
  lift r st = (Raise e, st') -> r = inl e /\ st' = st.
Proof. destruct r; intros H; inversion H; auto. Qed.

Lemma extract_title_error soup u e : extract_title soup u = inl e -> e = KeyError "content".
Proof.
  unfold extract_title. destruct (negb _); [|discriminate].
  destruct (select_one soup _) as [og|]; [|discriminate].
  unfold tag_index. destruct (attrs og !! "content"); [discriminate|].
  intros H. injection H as <-. reflexivity.
Qed.

Lemma extract_itemprop_error soup prop e :
  extract_itemprop soup prop = inl e -> e = KeyError "content".
Proof.
  unfold extract_itemprop. destruct (select_one soup _) as [el|]; [|discriminate].
  unfold tag_index. destruct (attrs el !! "content"); [discriminate|].
  intros H. injection H as <-. reflexivity.
Qed.

Lemma extract_cover_url_error soup e :
  extract_cover_url soup = inl e -> e = KeyError "content".
Proof.
  unfold extract_cover_url.
  destruct (select_one soup (attr_css "meta" "property" "og:image")) as [el|].
  - unfold tag_index. destruct (attrs el !! "content") as [v|].
    + destruct (negb _); [|discriminate].
      destruct (select_one soup _); discriminate.
    + intros H. injection H as <-. reflexivity.
  - cbn. destruct (select_one soup _); discriminate.
Qed.

Lemma extract_title_lacks soup u e : extract_title soup u = inl e -> lacks_content soup.
Proof.
  unfold extract_title. destruct (negb _); [|discriminate].
  destruct (select_one soup _) as [og|] eqn:E; [|discriminate].
  unfold tag_index. destruct (attrs og !! "content") eqn:Ec; [discriminate|].
  intros _. eexists _, og. split; [|split; [exact E|exact Ec]].
  unfold indexed_metas. apply list_elem_of_here.
Qed.

Lemma extract_itemprop_lacks soup prop e :
  prop = "ratingValue" \/ prop = "ratingCount" ->
  extract_itemprop soup prop = inl e -> lacks_content soup.
Proof.
  intros Hp. unfold extract_itemprop.
  destruct (select_one soup _) as [el|] eqn:E; [|discriminate].
  unfold tag_index. destruct (attrs el !! "content") eqn:Ec; [discriminate|].
  intros _. eexists _, el. split; [|split; [exact E|exact Ec]].
  unfold indexed_metas. destruct Hp as [->| ->].
  - apply list_elem_of_further, list_elem_of_here.
  - do 2 apply list_elem_of_further. apply list_elem_of_here.
Qed.

Lemma extract_cover_url_lacks soup e : extract_cover_url soup = inl e -> lacks_content soup.
Proof.
  unfold extract_cover_url.
  destruct (select_one soup (attr_css "meta" "property" "og:image")) as [el|] eqn:E.
  - unfold tag_index. destruct (attrs el !! "content") as [v|] eqn:Ec.
    + destruct (negb (Py.truthy_opt (Some v))); [|discriminate].
      destruct (select_one soup ".header img, .game_cover img"); discriminate.
    + intros _. eexists _, el. split; [|split; [exact E|exact Ec]].
      unfold indexed_metas. do 3 apply list_elem_of_further. apply list_elem_of_here.
  - destruct (negb (Py.truthy_opt None)); [|discriminate].
    destruct (select_one soup ".header img, .game_cover img"); discriminate.
Qed.

End ProjectErrors.

Section ProjectFailure.

Context {CB : Type} (w : World).

Lemma mkdir_Raise_inv p parents (st : State CB) e st' :
  mkdir w p parents st = (Raise e, st') ->
  mkdir_ok w p = false /\ e = OSError p /\ st' = st.
Proof.
  unfold mkdir. destruct (mkdir_ok w p); intros H; inversion H; auto.
Qed.

Lemma write_text_Raise_inv p doc (st : State CB) e st' :
  write_text w p doc st = (Raise e, st') ->
  write_ok w p = false /\ e = OSError p /\ st' = st.
Proof.
  unfold write_text. destruct (write_ok w p); intros H; inversion H; auto.
Qed.

Lemma call_progress_Raise_inv (f : Callback) msg (st : State CB) e st' :
  call_progress f msg st = (Raise e, st') ->
  f msg (cb st) = inl e /\ st' = logged st [Progress msg].
Proof.
  unfold call_progress. destruct (f msg (cb st)); intros H; inversion H; auto.
Qed.

Ltac quiet_trace :=
  rewrite ?logged_logged; unfold logged; cbn [trace];
  eexists; split; [reflexivity|];
  repeat first [ apply Forall_nil_2
               | apply Forall_cons; split; [exact Logic.I|]
               | apply Forall_app; split
               | apply downloads_trace_quiet ].

Lemma scrape_project_Raise_inv u output_dir on_progress (st : State CB) e st' :
  scrape_project w u output_dir on_progress st = (Raise e, st') ->
  (project_failure w u output_dir e /\
   exists evs, trace st' = trace st ++ evs /\ Forall quiet evs) \/
  (exists f r evs,
      on_progress = Some f /\
      trace st' = trace st ++ evs ++ [WriteText (metadata_path output_dir u) (metadata_json r);
                                      Progress (progress_message r)] /\
      Forall quiet evs /\
      f (progress_message r) (cb st) = inl e).
Proof.
  unfold scrape_project. intros H.
  apply bind_Raise_inv in H as [H|(resp & s1 & H1 & H)]; rewrite fetch_run in *.
  { destruct (fetch_ok w u) eqn:Hf; [discriminate H|]. injection H as <- <-.
    left. split; [apply fail_fetch, Hf|]. quiet_trace. }
  destruct (fetch_ok w u) as [resp'|] eqn:Hf; [|discriminate H1]. injection H1 as -> <-.
  cbv zeta in H.
  apply bind_Raise_inv in H as [H|(ttl & s2 & H2 & H)].
  { apply lift_Raise_inv in H as [H ->].
    pose proof (extract_title_lacks _ _ _ H) as Hl. apply extract_title_error in H as ->.
    left. split; [exact (fail_content _ _ _ _ Hf Hl)|]. quiet_trace. }
  apply lift_Ret_inv in H2 as [Ht ->].
  apply bind_Raise_inv in H as [H|(x3 & s3 & H3 & H)].
  { apply mkdir_Raise_inv in H as (Hm & -> & ->).
    left. split; [apply fail_project_dir, Hm|]. quiet_trace. }
  apply mkdir_Ret_inv in H3 as [Hm1 ->].
  apply bind_Raise_inv in H as [H|(rating & s4 & H4 & H)].
  { apply lift_Raise_inv in H as [H ->].
    pose proof (extract_itemprop_lacks _ _ _ (or_introl eq_refl) H) as Hl.
    apply extract_itemprop_error in H as ->.
    left. split; [exact (fail_content _ _ _ _ Hf Hl)|]. quiet_trace. }
  apply lift_Ret_inv in H4 as [Hr ->].
  apply bind_Raise_inv in H as [H|(rating_count & s5 & H5 & H)].
  { apply lift_Raise_inv in H as [H ->].
    pose proof (extract_itemprop_lacks _ _ _ (or_intror eq_refl) H) as Hl.
    apply extract_itemprop_error in H as ->.
    left. split; [exact (fail_content _ _ _ _ Hf Hl)|]. quiet_trace. }
  apply lift_Ret_inv in H5 as [Hrc ->].
  apply bind_Raise_inv in H as [H|(x6 & s6 & H6 & H)].
  { apply mkdir_Raise_inv in H as (Hm & -> & ->).
    left. split; [apply fail_images_dir, Hm|]. quiet_trace. }
  apply mkdir_Ret_inv in H6 as [Hm2 ->].
  apply bind_Raise_inv in H as [H|(cu & s7 & H7 & H)].
  { apply lift_Raise_inv in H as [H ->].
    pose proof (extract_cover_url_lacks _ _ H) as Hl.
    apply extract_cover_url_error in H as ->.
    left. split; [exact (fail_content _ _ _ _ Hf Hl)|]. quiet_trace. }
  apply lift_Ret_inv in H7 as [Hcu ->].
  destruct (cover_task _ cu) as [ctasks csaved].
  destruct (screenshot_tasks _ 0 _) as [stasks ssaved].
  apply bind_Raise_inv in H as [H|(x8 & s8 & H8 & H)];
    rewrite run_downloads_run in *; [discriminate H|].
  injection H8 as _ <-.
  match type of H with context [metadata_json ?r] => set (rec := r) in * end.
  apply bind_Raise_inv in H as [H|(x9 & s9 & H9 & H)].
  { apply write_text_Raise_inv in H as (Hw & -> & ->).
    left. split; [apply fail_metadata, Hw|]. quiet_trace. }
  apply write_text_Ret_inv in H9 as [Hw ->].
  apply bind_Raise_inv in H as [H|(x10 & s10 & H10 & H)]; [|discriminate H].
  destruct on_progress as [f|]; [|discriminate H].
  apply call_progress_Raise_inv in H as [Hc ->].
  right.
  exists f, rec, ([HttpGet u; Mkdir (project_dir output_dir u) true;
                   Mkdir (images_dir output_dir u) false]
                  ++ downloads_trace w (ctasks ++ stasks)).
  split; [reflexivity|].
  split; [|split; [|exact Hc]].
  - rewrite !logged_logged. unfold logged. cbn [trace app]. f_equal.
  - repeat first [ apply Forall_nil_2
                 | apply Forall_cons; split; [exact Logic.I|]
                 | apply Forall_app; split
                 | apply downloads_trace_quiet ].
Qed.

End ProjectFailure.

(** X12. When [scrape_project] raises, either the exception is one of its
    own (the page fetch failed, an indexed meta tag has no [content], a
    directory or [metadata.json] could not be written) and no
    [metadata.json] was written and the callback not called; or
    [metadata.json] was written and it is the progress callback that
    raised.  A failed asset download is never the cause. *)
Theorem scrape_project_failures {CB : Type} (w : World) (u : string) (output_dir : Path)
        (on_progress : option Callback) (st : State CB) (e : exn) (st' : State CB) :
  scrape_project w u output_dir on_progress st = (Raise e, st') ->
  (project_failure w u output_dir e /\
   exists evs, trace st' = trace st ++ evs /\ Forall quiet evs) \/
  (exists f r evs,
      on_progress = Some f /\
      trace st' = trace st ++ evs ++ [WriteText (metadata_path output_dir u) (metadata_json r);
                                      Progress (progress_message r)] /\
      Forall quiet evs /\
      f (progress_message r) (cb st) = inl e).
Proof. apply scrape_project_Raise_inv. Qed.

(** The page whose rating tag has no content. *)
Lemma scrape_project_failures_witness :
  (project_failure Demo.world "https://dev.itch.io/gamma" Demo.out (KeyError "content") /\
   exists evs, [HttpGet "https://dev.itch.io/gamma"; Mkdir (Demo.out ++ ["gamma"]) true]
               = [] ++ evs /\ Forall quiet evs) \/
  (exists (f : Callback (CB := unit)) r evs,
      None = Some f /\
      [HttpGet "https://dev.itch.io/gamma"; Mkdir (Demo.out ++ ["gamma"]) true]
      = [] ++ evs ++ [WriteText (metadata_path Demo.out "https://dev.itch.io/gamma")
                                (metadata_json r);
                      Progress (progress_message r)] /\
      Forall quiet evs /\
      f (progress_message r) tt = inl (KeyError "content")).
Proof.
  apply (scrape_project_failures Demo.world "https://dev.itch.io/gamma" Demo.out None
           (start tt) (KeyError "content")
           {| trace := [HttpGet "https://dev.itch.io/gamma";
                        Mkdir (Demo.out ++ ["gamma"]) true];
              cb := tt |}).
  vm_compute. reflexivity.
Defined.

(** ** Pages that match nothing, and pages that cannot be read *)

(** X13. On a page where no selector matches, extraction raises nothing
    and every field takes its default: the title is the text after the last
    slash of the URL, the price is [Free], ratings and cover are absent and
    the other fields are empty. *)
Theorem page_metadata_defaults (soup : Tag) (u : string) :
  (forall css, select soup css = []) ->
  page_metadata soup u =
  inr {| url := u; title := Py.last (Py.rsplit1 "/"%char u); slug := extract_slug u;
         short_description := ""; description := ""; tags := []; info := [];
         price := "Free"; platforms := []; rating := None; rating_count := None;
         cover_image := None; screenshots := [] |}.
Proof.
  intros H.
  unfold page_metadata, extract_title, extract_itemprop, extract_cover_url,
    extract_short_text, extract_description, extract_tags, extract_info,
    extract_price, extract_platforms, extract_screenshot_urls, select_one.
  rewrite !H. reflexivity.
Qed.

Lemma page_metadata_defaults_witness :
  page_metadata Demo.bare "https://dev.itch.io/zeta" =
  inr {| url := "https://dev.itch.io/zeta"; title := "zeta"; slug := "zeta";
         short_description := ""; description := ""; tags := []; info := [];
         price := "Free"; platforms := []; rating := None; rating_count := None;
         cover_image := None; screenshots := [] |}.
Proof.
  apply (page_metadata_defaults Demo.bare "https://dev.itch.io/zeta").
  intros css. reflexivity.
Defined.

Ltac in_metas :=
  unfold indexed_metas;
  repeat first [apply list_elem_of_here | apply list_elem_of_further].

(** X14. Extraction can only raise [KeyError] for [content], and does not
    raise at all on a page whose [og:title], [ratingValue], [ratingCount]
    and [og:image] meta tags, where present, carry a [content]
    attribute. *)
Theorem page_metadata_errors (soup : Tag) (u : string) :
  (forall e, page_metadata soup u = inl e -> e = KeyError "content") /\
  ((forall css el, css ∈ indexed_metas -> select_one soup css = Some el ->
                   is_Some (attrs el !! "content")) ->
   exists r, page_metadata soup u = inr r).
Proof.
  split.
  - intros e. unfold page_metadata.
    destruct (extract_title soup u) eqn:E1; [intros H; injection H as <-;
                                             exact (extract_title_error _ _ _ E1)|].
    destruct (extract_itemprop soup "ratingValue") eqn:E2;
      [intros H; injection H as <-; exact (extract_itemprop_error _ _ _ E2)|].
    destruct (extract_itemprop soup "ratingCount") eqn:E3;
      [intros H; injection H as <-; exact (extract_itemprop_error _ _ _ E3)|].
    destruct (extract_cover_url soup) eqn:E4;
      [intros H; injection H as <-; exact (extract_cover_url_error _ _ E4)|].
    discriminate.
  - intros H.
    assert (Hidx : forall css el, css ∈ indexed_metas -> select_one soup css = Some el ->
                                  exists v, tag_index el "content" = inr v).
    { intros css el Hc Hs. destruct (H css el Hc Hs) as [v Hv].
      exists v. unfold tag_index. rewrite Hv. reflexivity. }
    unfold page_metadata.
    assert (exists t, extract_title soup u = inr t) as [t ->].
    { unfold extract_title. destruct (negb _); [|eauto].
      destruct (select_one soup _) as [og|] eqn:E; [|eauto].
      refine (Hidx _ og _ E). in_metas. }
    assert (exists r, extract_itemprop soup "ratingValue" = inr r) as [r1 ->].
    { unfold extract_itemprop. destruct (select_one soup _) as [el|] eqn:E; [|eauto].
      edestruct Hidx as [v ->]; [|exact E|eauto]. in_metas. }
    assert (exists r, extract_itemprop soup "ratingCount" = inr r) as [r2 ->].
    { unfold extract_itemprop. destruct (select_one soup _) as [el|] eqn:E; [|eauto].
      edestruct Hidx as [v ->]; [|exact E|eauto]. in_metas. }
    assert (exists c, extract_cover_url soup = inr c) as [c ->].
    { unfold extract_cover_url.
      destruct (select_one soup (attr_css "meta" "property" "og:image")) as [el|] eqn:E.
      - assert (Hin : attr_css "meta" "property" "og:image" ∈ indexed_metas) by in_metas.
        destruct (Hidx _ el Hin E) as [v Hv]. rewrite Hv.
        destruct (negb (Py.truthy_opt (Some v))); [|eexists; reflexivity].
        destruct (select_one soup ".header img, .game_cover img"); eexists; reflexivity.
      - destruct (negb (Py.truthy_opt None)); [|eexists; reflexivity].
        destruct (select_one soup ".header img, .game_cover img"); eexists; reflexivity. }
    eauto.
Qed.

(** ** The [info] dict *)

Lemma dict_get_set_eq k v d : dict_get k (dict_set k v d) = Some v.
Proof.
  induction d as [|[k' v'] d IH]; cbn; [rewrite String.eqb_refl; reflexivity|].
  destruct (String.eqb_spec k k') as [->|N]; cbn.
  - rewrite String.eqb_refl. reflexivity.
  - destruct (String.eqb_spec k k'); [congruence|exact IH].
Qed.

Lemma dict_get_set_ne k k' v d : k <> k' -> dict_get k' (dict_set k v d) = dict_get k' d.
Proof.
  intros N. induction d as [|[k0 v0] d IH]; cbn.
  - destruct (String.eqb_spec k' k); [congruence|reflexivity].
  - destruct (String.eqb_spec k k0) as [->|N0]; cbn.
    + destruct (String.eqb_spec k' k0); [congruence|reflexivity].
    + destruct (String.eqb_spec k' k0); [reflexivity|exact IH].
Qed.

Lemma dict_set_keys k v d :
  (dict_set k v d).*1 = if bool_decide (k ∈ d.*1) then d.*1 else d.*1 ++ [k].
Proof.
  induction d as [|[k0 v0] d IH]; [reflexivity|].
  cbn [dict_set]. destruct (String.eqb_spec k k0) as [->|N].
  - cbn. rewrite bool_decide_eq_true_2 by left. reflexivity.
  - cbn [fmap list_fmap fst]. change (list_fmap _ _ fst ?l) with (l.*1). rewrite IH.
    destruct (bool_decide_reflect (k ∈ d.*1)) as [Hin|Hout].
    + rewrite bool_decide_eq_true_2 by (right; exact Hin). reflexivity.
    + rewrite bool_decide_eq_false_2; [reflexivity|].
      intros H. apply elem_of_cons in H as [H|H]; [exact (N H)|exact (Hout H)].
Qed.

Lemma dict_set_NoDup k v d : NoDup d.*1 -> NoDup (dict_set k v d).*1.
Proof.
  intros H. rewrite dict_set_keys.
  destruct (bool_decide_reflect (k ∈ d.*1)) as [Hin|Hout]; [exact H|].
  apply NoDup_app. split; [exact H|]. split; [|apply NoDup_singleton].
  intros x Hx Hk. apply list_elem_of_singleton in Hk as ->. exact (Hout Hx).
Qed.

Lemma dict_set_Forall (Q : string * string -> Prop) k v d :
  Q (k, v) -> Forall Q d -> Forall Q (dict_set k v d).
Proof.
  intros Hk. induction 1 as [|[k0 v0] d H0 Hd IH]; cbn.
  - constructor; [exact Hk|constructor].
  - destruct (String.eqb k k0); constructor; auto.
Qed.

(** X15. Setting a key of the [info] dict: the key then reads the new
    value, every other key reads what it read before, a key that was
    present keeps its place and a new key goes to the end, and keys stay
    distinct. *)
Theorem dict_set_laws (k v : string) (d : list (string * string)) :
  dict_get k (dict_set k v d) = Some v /\
  (forall k', k <> k' -> dict_get k' (dict_set k v d) = dict_get k' d) /\
  (dict_set k v d).*1 = (if bool_decide (k ∈ d.*1) then d.*1 else d.*1 ++ [k]) /\
  (NoDup d.*1 -> NoDup (dict_set k v d).*1).
Proof.
  split; [apply dict_get_set_eq|]. split; [intros k'; apply dict_get_set_ne|].
  split; [apply dict_set_keys|apply dict_set_NoDup].
Qed.

Lemma rstrip_not_ends_with c s : ends_with c (Py.rstrip c s) = false.
Proof.
  induction s as [|a s IH]; [reflexivity|].
  cbn [Py.rstrip]. destruct (Py.rstrip c s) as [|b r] eqn:E.
  - destruct (Ascii.eqb a c) eqn:Ea; [reflexivity|]. cbn. exact Ea.
  - cbn [ends_with]. exact IH.
Qed.

Lemma clean_is_normalized t : normalized (_clean t) = true.
Proof.
  unfold _clean. destruct (negb (Py.truthy_opt t)); [reflexivity|].
  apply normalized_clean_string.
Qed.

Lemma info_rows_invariant (Q : string * string -> Prop) rows info :
  (forall k v, k <> "" -> ends_with ":"%char k = false -> normalized v = true -> Q (k, v)) ->
  NoDup info.*1 -> Forall Q info ->
  NoDup (info_rows rows info).*1 /\ Forall Q (info_rows rows info).
Proof.
  intros HQ. revert info. induction rows as [|row rest IH]; intros info Hn Hf; [auto|].
  cbn [info_rows]. destruct (select row "td") as [|c0 [|c1 [|c2 cs]]]; try (apply IH; auto).
  destruct (Py.truthy _) eqn:Et; [|apply IH; auto].
  apply IH; [apply dict_set_NoDup, Hn|].
  apply dict_set_Forall; [|exact Hf]. apply HQ.
  - intros E. rewrite E in Et. discriminate Et.
  - apply rstrip_not_ends_with.
  - apply clean_is_normalized.
Qed.

(** X16. The keys of the [info] dict of a page are pairwise distinct, not
    empty, and do not end with a colon; its values are normalised text. *)
Theorem extract_info_keys (soup : Tag) :
  NoDup (extract_info soup).*1 /\
  Forall (fun kv => kv.1 <> "" /\ ends_with ":"%char kv.1 = false /\
                    normalized kv.2 = true)
         (extract_info soup).
Proof.
  unfold extract_info. apply info_rows_invariant.
  - intros k v H1 H2 H3. cbn. auto.
  - apply NoDup_nil_2.
  - constructor.
Qed.

(** ** The job of a run *)

Section JobRuns.

Context (w : World).

(** The callback touches the counters of the job only. *)
Lemma on_progress_frame msg job job' :
  App.on_progress msg job = inr job' ->
  App.status job' = App.status job /\ App.error job' = App.error job /\
  App.zip job' = App.zip job.
Proof.
  unfold App.on_progress. destruct (Py.startswith "__total__" msg).
  - destruct (App.int _); intros H; inversion H; subst; auto.
  - intros H; inversion H; subst; auto.
Qed.

Lemma on_progress_plain msg job :
  Py.startswith "__total__" msg = false ->
  App.on_progress msg job = inr (with_progress msg job).
Proof. unfold App.on_progress. intros ->. reflexivity. Qed.

Lemma scrape_loop_job urls output_dir acc (st : State App.Job) results st' :
  scrape_loop w urls output_dir (Some App.on_progress) acc st = (Ret results, st') ->
  exists metas,
    results = acc ++ metas /\ url <$> metas = urls /\
    (marker_free (progress_message <$> metas) ->
     App.progress (cb st') = App.progress (cb st) ++ (progress_message <$> metas) /\
     App.total (cb st') = App.total (cb st)).
Proof.
  revert acc st. induction urls as [|u rest IH]; intros acc st H.
  - injection H as <- <-. exists []. rewrite !app_nil_r. auto.
  - cbn [scrape_loop] in H. apply bind_Ret_inv in H as (meta & s1 & H1 & H).
    pose proof (scrape_project_Ret_trace _ _ _ _ _ _ _ H1) as (Hu & _).
    apply scrape_project_Ret_inv in H1 as (resp & cu & _ & _ & _ & _ & _ & _ & Hf & _).
    apply IH in H as (metas & -> & Hus & Hjob).
    exists (meta :: metas). rewrite <- app_assoc. split; [reflexivity|].
    split; [rewrite fmap_cons, Hu, Hus; reflexivity|].
    rewrite fmap_cons. intros Hm. apply Forall_cons in Hm as [Hm Hms].
    rewrite (on_progress_plain _ _ Hm) in Hf. injection Hf as Hf.
    destruct (Hjob Hms) as [Hp Ht]. rewrite Hp, Ht, <- Hf. cbn.
    rewrite <- app_assoc. auto.
Qed.

Lemma scrape_creator_job fuel creator output_dir (job : App.Job) results st' :
  scrape_creator w fuel creator output_dir (Some App.on_progress) (start job)
  = (Ret results, st') ->
  results <> [] /\
  (marker_free (progress_message <$> results) ->
   App.progress (cb st') = App.progress job ++ (progress_message <$> results) /\
   App.total (cb st') = Z.of_nat (length results)).
Proof.
  intros H. apply scrape_creator_Ret_inv in H as (st3 & Hb & _ & ->).
  unfold scrape_creator_body in Hb.
  apply bind_Ret_inv in Hb as (x0 & s0 & H0 & Hb).
  apply mkdir_Ret_inv in H0 as [_ ->].
  apply bind_Ret_inv in Hb as (urls & s1 & H1 & Hb).
  apply fetch_loop_spec in H1 as (pages & _ & _ & _ & _ & ->).
  destruct urls as [|u urls]; [discriminate Hb|].
  apply bind_Ret_inv in Hb as (x2 & s2 & H2 & Hb).
  apply call_progress_Ret_inv in H2 as [H2 _].
  change ("__total__" +:+ Py.str_of_nat (length (u :: urls)))
    with (total_marker (length (u :: urls))) in H2.
  apply on_progress_total_marker_inv in H2. symmetry in H2.
  apply scrape_loop_job in Hb as (metas & -> & Hus & Hjob).
  cbn [app] in *. split.
  { destruct metas; [discriminate Hus|discriminate]. }
  intros Hm. destruct (Hjob Hm) as [Hp Ht]. cbn [logged cb].
  rewrite Hp, Ht, <- H2. unfold with_total, logged, start.
  cbn [App.progress App.total cb]. split; [reflexivity|].
  apply (f_equal length) in Hus. rewrite length_fmap in Hus. rewrite Hus. reflexivity.
Qed.

End JobRuns.

(** ** [_run_scrape] *)

Section Tasks.

Context (w : World) (fuel : nat) (WORK_DIR : Path)
        (make_archive : Path -> Path -> exn + string) (describe : exn -> string).

Lemma run_scrape_frame creator output_dir (job : App.Job) :
  let st := (scrape_creator w fuel creator output_dir (Some App.on_progress) (start job)).2 in
  App.status (cb st) = App.status job /\ App.error (cb st) = App.error job /\
  App.zip (cb st) = App.zip job.
Proof.
  destruct (emits_scrape_creator w
              (fun j => App.status j = App.status job /\ App.error j = App.error job /\
                        App.zip j = App.zip job)
              fuel creator output_dir (Some App.on_progress)) with (st := start job)
    as (evs & _ & _ & HI).
  - intros f msg c c' Hf (H1 & H2 & H3) Hc. injection Hf as <-.
    apply on_progress_frame in Hc as (-> & -> & ->). auto.
  - auto.
  - exact HI.
Qed.

Lemma run_scrape_empty_listing creator output_dir soup (job : App.Job) :
  mkdir_ok w output_dir = true ->
  0 < fuel ->
  listing_page w (creator_base creator) 1 = Some soup ->
  listing_hrefs soup = [] ->
  scrape_creator w fuel creator output_dir (Some App.on_progress) (start job) =
  (Raise (ValueError (Server.no_projects creator)),
   {| trace := [Mkdir output_dir true; HttpGet (creator_base creator)]; cb := job |}).
Proof.
  intros Hm Hfuel Hp Hl. unfold scrape_creator.
  erewrite bind_Ret by (unfold mkdir; rewrite Hm; reflexivity).
  destruct fuel as [|fuel']; [lia|].
  assert (Hf : fetch_project_urls w (S fuel') creator
                 (logged (start job) [Mkdir output_dir true])
               = (Ret [], logged (logged (start job) [Mkdir output_dir true])
                                 [HttpGet (creator_base creator)])).
  { unfold fetch_project_urls. fold (creator_base creator).
    rewrite fetch_loop_step, Hp.
    apply new_urls_nil in Hl. rewrite Hl. cbn [length Nat.eqb app].
    rewrite orb_true_r. reflexivity. }
  erewrite bind_Ret by exact Hf. reflexivity.
Qed.

End Tasks.

(** X17. What a task does to its job, by the outcome of the scraper.  If
    [scrape_creator] raises, whether the exception is its own or that of
    the progress callback, the job ends in [error] with the text of that
    exception and nothing is archived.  If it returns and [make_archive]
    raises, the job ends in [error] with the text of that exception.  If it
    returns and the archive is made, the job ends [done] with the path of
    the archive as [zip].  In every case [progress] and [total] are what
    the callback left, and the fields that the branch does not assign
    ([zip] or [error]) are those the job had before the task.  A task cut
    short by the fuel has not finished. *)
Theorem run_scrape_terminal (w : World) (fuel : nat) (WORK_DIR : Path)
        (make_archive : Path -> Path -> exn + string) (describe : exn -> string)
        (jobs : gmap string App.Job) (job_id creator : string) (job : App.Job) :
  jobs !! job_id = Some job ->
  match scrape_creator w fuel creator (joinpath (joinpath WORK_DIR job_id) creator)
                       (Some App.on_progress) (start job) with
  | (Ret results, st) =>
      match make_archive (joinpath (joinpath WORK_DIR job_id) (creator +:+ "_itch"))
                         (joinpath (joinpath WORK_DIR job_id) creator) with
      | inr zip_path =>
          Server._run_scrape w fuel WORK_DIR make_archive describe jobs job_id creator
          = Server.Finished
              {| App.status := "done"; App.progress := App.progress (cb st);
                 App.total := App.total (cb st); App.error := App.error job;
                 App.zip := Some zip_path |} (trace st)
      | inl e =>
          Server._run_scrape w fuel WORK_DIR make_archive describe jobs job_id creator
          = Server.Finished
              {| App.status := "error"; App.progress := App.progress (cb st);
                 App.total := App.total (cb st);
                 App.error := Some (Server.str describe e);
                 App.zip := App.zip job |} (trace st)
      end
  | (Raise e, st) =>
      Server._run_scrape w fuel WORK_DIR make_archive describe jobs job_id creator
      = Server.Finished
          {| App.status := "error"; App.progress := App.progress (cb st);
             App.total := App.total (cb st);
             App.error := Some (Server.str describe e);
             App.zip := App.zip job |} (trace st)
  | (OutOfFuel, _) =>
      Server._run_scrape w fuel WORK_DIR make_archive describe jobs job_id creator
      = Server.Unfinished
  end.
Proof.
  intros Hj. unfold Server._run_scrape. rewrite Hj.
  pose proof (run_scrape_frame w fuel creator
                (joinpath (joinpath WORK_DIR job_id) creator) job) as (Hs & He & Hz).
  destruct (scrape_creator _ _ _ _ _ _) as [[results|e|] st]; cbn [snd] in *.
  - destruct (make_archive _ _) as [e|zip_path];
      unfold Server.failed, Server.archived; rewrite ?He, ?Hz; reflexivity.
  - unfold Server.failed. rewrite Hz. reflexivity.
  - reflexivity.
Qed.

(** The two-project site, archived; the same site while the page of
    [beta] cannot be reached; and the site scraped but not archived. *)
Lemma run_scrape_terminal_witness :
  Server._run_scrape Demo.world 5 DemoServer.work_dir DemoServer.make_archive
                     DemoServer.describe DemoServer.jobs "job" "dev"
  = Server.Finished
      {| App.status := "done"; App.progress := ["Alpha Quest"; "Beta"]; App.total := 2;
         App.error := None; App.zip := Some "/tmp/itch_scraper/job/dev_itch.zip" |}
      (trace (scrape_creator Demo.world 5 "dev" Demo.out (Some App.on_progress)
                             (start App.new_job)).2) /\
  Server._run_scrape Demo.broken 5 DemoServer.work_dir DemoServer.make_archive
                     DemoServer.describe DemoServer.jobs "job" "dev"
  = Server.Finished
      {| App.status := "error"; App.progress := ["Alpha Quest"]; App.total := 2;
         App.error := Some "failure"; App.zip := None |}
      (trace (scrape_creator Demo.broken 5 "dev" Demo.out (Some App.on_progress)
                             (start App.new_job)).2) /\
  Server._run_scrape Demo.world 5 DemoServer.work_dir DemoServer.disk_full
                     DemoServer.describe DemoServer.jobs "job" "dev"
  = Server.Finished
      {| App.status := "error"; App.progress := ["Alpha Quest"; "Beta"]; App.total := 2;
         App.error := Some "failure"; App.zip := None |}
      (trace (scrape_creator Demo.world 5 "dev" Demo.out (Some App.on_progress)
                             (start App.new_job)).2).
Proof.
  pose proof (run_scrape_terminal Demo.world 5 DemoServer.work_dir DemoServer.make_archive
                DemoServer.describe DemoServer.jobs "job" "dev" App.new_job
                ltac:(vm_compute; reflexivity)) as H1.
  pose proof (run_scrape_terminal Demo.broken 5 DemoServer.work_dir DemoServer.make_archive
                DemoServer.describe DemoServer.jobs "job" "dev" App.new_job
                ltac:(vm_compute; reflexivity)) as H2.
  pose proof (run_scrape_terminal Demo.world 5 DemoServer.work_dir DemoServer.disk_full
                DemoServer.describe DemoServer.jobs "job" "dev" App.new_job
                ltac:(vm_compute; reflexivity)) as H3.
  vm_compute in H1, H2, H3 |- *. split; [exact H1|split; [exact H2|exact H3]].
Defined.

(** X18. When a task ends [done], the scraper returned at least one record;
    and if no progress message of a record starts with [__total__], the
    [total] of the job is the number of records and its [progress] is the
    list it had, followed by the message of each record in order: the page
    that polls the job sees as many entries as the total. *)
Theorem run_scrape_counts (w : World) (fuel : nat) (WORK_DIR : Path)
        (make_archive : Path -> Path -> exn + string) (describe : exn -> string)
        (jobs : gmap string App.Job) (job_id creator : string)
        (job job' : App.Job) (tr : list Event) :
  jobs !! job_id = Some job ->
  Server._run_scrape w fuel WORK_DIR make_archive describe jobs job_id creator
  = Server.Finished job' tr ->
  App.status job' = "done" ->
  exists results st,
    scrape_creator w fuel creator (joinpath (joinpath WORK_DIR job_id) creator)
                   (Some App.on_progress) (start job) = (Ret results, st) /\
    tr = trace st /\
    results <> [] /\
    (marker_free (progress_message <$> results) ->
     App.total job' = Z.of_nat (length results) /\
     App.progress job' = App.progress job ++ (progress_message <$> results)).
Proof.
  intros Hj. unfold Server._run_scrape. rewrite Hj.
  destruct (scrape_creator _ _ _ _ _ _) as [[results|e|] st] eqn:Hrun.
  - destruct (make_archive _ _) as [e|zip_path]; intros H; injection H as <- <-;
      intros Hs; [discriminate Hs|].
    exists results, st. split; [reflexivity|]. split; [reflexivity|].
    apply scrape_creator_job in Hrun as [Hne Hjob]. split; [exact Hne|].
    intros Hm. destruct (Hjob Hm) as [Hp Ht]. cbn. auto.
  - intros H; injection H as <- <-. intros Hs. discriminate Hs.
  - discriminate.
Qed.

(** The two-project site: total 2 and the two titles. *)
Lemma run_scrape_counts_witness :
  exists results st,
    scrape_creator Demo.world 5 "dev" (joinpath (joinpath DemoServer.work_dir "job") "dev")
                   (Some App.on_progress) (start App.new_job) = (Ret results, st) /\
    trace (scrape_creator Demo.world 5 "dev" Demo.out (Some App.on_progress)
                          (start App.new_job)).2 = trace st /\
    results <> [] /\
    (marker_free (progress_message <$> results) ->
     App.total (Server.archived "/tmp/itch_scraper/job/dev_itch.zip"
                  {| App.status := "running"; App.progress := ["Alpha Quest"; "Beta"];
                     App.total := 2; App.error := None; App.zip := None |})
     = Z.of_nat (length results) /\
     App.progress (Server.archived "/tmp/itch_scraper/job/dev_itch.zip"
                     {| App.status := "running"; App.progress := ["Alpha Quest"; "Beta"];
                        App.total := 2; App.error := None; App.zip := None |})
     = App.progress App.new_job ++ (progress_message <$> results)).
Proof.
  apply (run_scrape_counts Demo.world 5 DemoServer.work_dir DemoServer.make_archive
           DemoServer.describe DemoServer.jobs "job" "dev" App.new_job
           (Server.archived "/tmp/itch_scraper/job/dev_itch.zip"
              {| App.status := "running"; App.progress := ["Alpha Quest"; "Beta"];
                 App.total := 2; App.error := None; App.zip := None |})
           (trace (scrape_creator Demo.world 5 "dev" Demo.out (Some App.on_progress)
                                  (start App.new_job)).2)).
  - vm_compute. reflexivity.
  - vm_compute. reflexivity.
  - reflexivity.
Defined.

(** X19. When the first listing page of the creator is fetched and offers
    no project link, the task ends in [error] with the text [No public
    projects found for '<creator>'], after creating the output directory
    and this single request: nothing is archived and the counters of the
    job are untouched. *)
Theorem run_scrape_no_projects (w : World) (fuel : nat) (WORK_DIR : Path)
        (make_archive : Path -> Path -> exn + string) (describe : exn -> string)
        (jobs : gmap string App.Job) (job_id creator : string)
        (job : App.Job) (soup : Tag) :
  jobs !! job_id = Some job ->
  mkdir_ok w (joinpath (joinpath WORK_DIR job_id) creator) = true ->
  0 < fuel ->
  listing_page w (creator_base creator) 1 = Some soup ->
  listing_hrefs soup = [] ->
  Server._run_scrape w fuel WORK_DIR make_archive describe jobs job_id creator
  = Server.Finished
      {| App.status := "error"; App.progress := App.progress job;
         App.total := App.total job;
         App.error := Some ("No public projects found for '" +:+ creator +:+ "'");
         App.zip := App.zip job |}
      [Mkdir (joinpath (joinpath WORK_DIR job_id) creator) true;
       HttpGet ("https://" +:+ creator +:+ ".itch.io")].
Proof.
  intros Hj Hm Hfuel Hp Hl. unfold Server._run_scrape. rewrite Hj.
  rewrite (run_scrape_empty_listing w fuel creator _ soup job Hm Hfuel Hp Hl).
  reflexivity.
Qed.

(** The creator without projects. *)
Lemma run_scrape_no_projects_witness :
  Server._run_scrape Demo.world 5 DemoServer.work_dir DemoServer.make_archive
                     DemoServer.describe DemoServer.jobs "job" "nobody"
  = Server.Finished
      {| App.status := "error"; App.progress := []; App.total := 0;
         App.error := Some "No public projects found for 'nobody'"; App.zip := None |}
      [Mkdir ["tmp"; "itch_scraper"; "job"; "nobody"] true;
       HttpGet "https://nobody.itch.io"].
Proof.
  apply (run_scrape_no_projects Demo.world 5 DemoServer.work_dir DemoServer.make_archive
           DemoServer.describe DemoServer.jobs "job" "nobody" App.new_job Demo.bare).
  - reflexivity.
  - reflexivity.
  - lia.
  - reflexivity.
  - reflexivity.
Defined.

(** ** [start_scrape] and the other handlers *)

Section Names.

Lemma isspace_lower_char a : Py.isspace (Server.lower_char a) = Py.isspace a.
Proof. destruct a as [[] [] [] [] [] [] [] []]; reflexivity. Qed.

Lemma ends_space_lower s : ends_space (Server.lower s) = ends_space s.
Proof.
  induction s as [|a s IH]; [reflexivity|].
  cbn [Server.lower ends_space]. rewrite IH, isspace_lower_char.
  destruct s; reflexivity.
Qed.

Lemma ends_space_rstrip s : ends_space (Py.rstrip_ws s) = false.
Proof.
  induction s as [|a s IH]; [reflexivity|].
  cbn [Py.rstrip_ws]. destruct (Py.rstrip_ws s) as [|b r] eqn:E.
  - destruct (Py.isspace a) eqn:Ea; [reflexivity|]. cbn. exact Ea.
  - cbn [ends_space]. exact IH.
Qed.

Lemma ends_space_strip s : ends_space (Py.strip s) = false.
Proof. apply ends_space_rstrip. Qed.

Lemma after_name_nil s : Server.after_name s = "" <-> Server.all_name s = true.
Proof.
  induction s as [|a s IH]; [split; reflexivity|].
  cbn [Server.after_name Server.all_name].
  destruct (Server.name_char a); [exact IH|]. split; discriminate.
Qed.

Lemma after_name_ends_space s c :
  Server.after_name s = String c "" -> Py.isspace c = true -> ends_space s = true.
Proof.
  induction s as [|a s IH]; [discriminate|].
  cbn [Server.after_name]. destruct (Server.name_char a) eqn:Ea.
  - intros H Hc. specialize (IH H Hc). cbn [ends_space].
    destruct s; [discriminate IH|exact IH].
  - intros H Hc. injection H as -> ->. exact Hc.
Qed.

Lemma re_match_name_spec s :
  ends_space s = false ->
  Server.re_match_name s = Server.all_name s && Py.truthy s.
Proof.
  intros He. destruct s as [|a s]; [reflexivity|].
  unfold Server.re_match_name. cbn [Py.truthy]. rewrite andb_true_r.
  destruct (Server.after_name (String a s)) as [|c [|c' r]] eqn:E.
  - apply after_name_nil in E. rewrite E. cbn [Server.all_name] in E.
    apply andb_true_iff in E as [-> _]. reflexivity.
  - destruct (Ascii.eqb_spec c "010"%char) as [->|N].
    + rewrite (after_name_ends_space _ _ E eq_refl) in He. discriminate He.
    + rewrite andb_false_r. symmetry. apply not_true_is_false. intros Ha.
      apply after_name_nil in Ha. rewrite Ha in E. discriminate E.
  - rewrite andb_false_r. symmetry. apply not_true_is_false. intros Ha.
    apply after_name_nil in Ha. rewrite Ha in E. discriminate E.
Qed.

Lemma all_name_contains c s :
  Server.name_char c = false -> Server.all_name s = true -> Py.contains c s = false.
Proof.
  intros Hc. induction s as [|a s IH]; [reflexivity|].
  cbn [Server.all_name Py.contains]. intros H. apply andb_true_iff in H as [Ha Hs].
  destruct (Ascii.eqb_spec a c) as [->|N]; [congruence|]. apply IH, Hs.
Qed.

Lemma all_name_parts s :
  Server.all_name s = true -> s <> "" -> parts s = [s].
Proof.
  intros Ha Hne. apply parts_single; [|exact Hne|].
  - apply all_name_contains; [reflexivity|exact Ha].
  - intros ->. discriminate Ha.
Qed.

Lemma suffixed_parts s :
  Server.all_name s = true -> s <> "" -> parts (s +:+ "_itch") = [s +:+ "_itch"].
Proof.
  intros Ha Hne. apply parts_single.
  - rewrite PyFacts.contains_app, (all_name_contains "/"%char s eq_refl Ha). reflexivity.
  - destruct s; [congruence|discriminate].
  - destruct s as [|a [|b s]]; [congruence|discriminate|discriminate].
Qed.

End Names.

Section Handlers.

Lemma start_scrape_string jobs uuid12 kv s :
  json_get_creator_is kv s ->
  Server.start_scrape jobs uuid12 (JDict kv) =
  if Server.all_name (Server.lower (Py.strip s)) && Py.truthy (Server.lower (Py.strip s))
  then Server.Ok {| Server.reply_job_id := uuid12;
                    Server.registry := <[uuid12 := App.new_job]> jobs;
                    Server.task := (uuid12, Server.lower (Py.strip s)) |}
  else Server.HTTPException 400 invalid_creator.
Proof.
  unfold json_get_creator_is, Server.start_scrape. intros ->.
  rewrite re_match_name_spec by (rewrite ends_space_lower; apply ends_space_strip).
  destruct (Server.all_name _) eqn:Ea, (Py.truthy _) eqn:Et; reflexivity.
Qed.

Lemma start_scrape_Ok_inv jobs uuid12 body r :
  Server.start_scrape jobs uuid12 body = Server.Ok r ->
  exists creator,
    r = {| Server.reply_job_id := uuid12;
           Server.registry := <[uuid12 := App.new_job]> jobs;
           Server.task := (uuid12, creator) |} /\
    Server.all_name creator = true /\ creator <> "".
Proof.
  destruct body as [| | | |kv]; try discriminate.
  destruct (Server.json_get "creator" kv) as [[|s| | |]|] eqn:E;
    try (unfold Server.start_scrape; rewrite E; discriminate).
  rewrite (start_scrape_string jobs uuid12 kv s)
    by (unfold json_get_creator_is; rewrite E; reflexivity).
  destruct (Server.all_name _) eqn:Ea; [|discriminate].
  destruct (Py.truthy _) eqn:Et; [|discriminate].
  intros H. injection H as <-. eexists. split; [reflexivity|]. split; [exact Ea|].
  intros E0. rewrite E0 in Et. discriminate Et.
Qed.

End Handlers.

(** X20. [start_scrape] by cases of the body.  A body that is not an object,
    or whose [creator] is not a string, makes the handler die of an
    [AttributeError] instead of answering 400.  A missing [creator] is
    answered 400.  An ASCII string is trimmed and lowercased, and is
    accepted exactly when the result is not empty and made of the
    characters [a-z], [0-9] and [-] only (the newline that [$] would let
    through cannot be there after the trim); the handler then registers a
    fresh running job under the new id and starts the task for the trimmed,
    lowercased name. *)
Theorem start_scrape_spec (jobs : gmap string App.Job) (uuid12 : string) (body : json) :
  match body with
  | JDict kv =>
      match Server.json_get "creator" kv with
      | None =>
          Server.start_scrape jobs uuid12 body = Server.HTTPException 400 invalid_creator
      | Some (JStr s) =>
          Py.isascii s = true ->
          Server.start_scrape jobs uuid12 body =
          if Server.all_name (Server.lower (Py.strip s))
             && Py.truthy (Server.lower (Py.strip s))
          then Server.Ok {| Server.reply_job_id := uuid12;
                            Server.registry := <[uuid12 := App.new_job]> jobs;
                            Server.task := (uuid12, Server.lower (Py.strip s)) |}
          else Server.HTTPException 400 invalid_creator
      | Some _ => Server.start_scrape jobs uuid12 body = Server.Unhandled "AttributeError"
      end
  | _ => Server.start_scrape jobs uuid12 body = Server.Unhandled "AttributeError"
  end.
Proof.
  destruct body as [| | | |kv]; try reflexivity.
  destruct (Server.json_get "creator" kv) as [[|s| | |]|] eqn:E;
    try (unfold Server.start_scrape; rewrite E; reflexivity).
  intros _. apply start_scrape_string. unfold json_get_creator_is. rewrite E. reflexivity.
Qed.

(** A name with capitals and blanks around it; a name with a space inside;
    a [creator] that is [null]. *)
Lemma start_scrape_spec_witness :
  Server.start_scrape ∅ "job" (JDict [("creator", JStr "  Dev-42 ")])
  = Server.Ok {| Server.reply_job_id := "job";
                 Server.registry := <["job" := App.new_job]> ∅;
                 Server.task := ("job", "dev-42") |} /\
  Server.start_scrape ∅ "job" (JDict [("creator", JStr "dev 42")])
  = Server.HTTPException 400 invalid_creator /\
  Server.start_scrape ∅ "job" (JDict [("creator", JNull)])
  = Server.Unhandled "AttributeError".
Proof.
  split; [|split].
  - exact (start_scrape_spec ∅ "job" (JDict [("creator", JStr "  Dev-42 ")]) eq_refl).
  - exact (start_scrape_spec ∅ "job" (JDict [("creator", JStr "dev 42")]) eq_refl).
  - exact (start_scrape_spec ∅ "job" (JDict [("creator", JNull)])).
Defined.

(** X21. A creator name that [start_scrape] accepts is not empty and has no
    character outside [a-z0-9-]: no slash, dot, colon, question mark or
    at-sign.  So the output directory of the task is the child of that name
    of the job directory, the base of the archive is its sibling
    [<name>_itch], and the job is registered as a fresh running job under
    the id that is returned. *)
Theorem start_scrape_accepts_safe_names (jobs : gmap string App.Job) (uuid12 : string)
        (body : json) (r : Server.Started) :
  Server.start_scrape jobs uuid12 body = Server.Ok r ->
  exists creator,
    Server.task r = (uuid12, creator) /\
    Server.reply_job_id r = uuid12 /\
    Server.registry r !! uuid12 = Some App.new_job /\
    creator <> "" /\
    (forall c, Server.name_char c = false -> Py.contains c creator = false) /\
    (forall dir, joinpath dir creator = dir ++ [creator]) /\
    (forall dir, joinpath dir (creator +:+ "_itch") = dir ++ [creator +:+ "_itch"]).
Proof.
  intros H. apply start_scrape_Ok_inv in H as (creator & -> & Ha & Hne).
  exists creator. cbn. split; [reflexivity|]. split; [reflexivity|].
  split; [apply lookup_insert_eq|]. split; [exact Hne|].
  split; [intros c Hc; apply all_name_contains; assumption|].
  split; intros dir; unfold joinpath.
  - rewrite all_name_parts by assumption. reflexivity.
  - rewrite suffixed_parts by assumption. reflexivity.
Qed.

(** A name with capitals and blanks around it. *)
Lemma start_scrape_accepts_safe_names_witness :
  exists creator,
    ("job", "dev-42") = ("job", creator) /\
    "job" = "job" /\
    (<["job" := App.new_job]> (∅ : gmap string App.Job)) !! "job" = Some App.new_job /\
    creator <> "" /\
    (forall c, Server.name_char c = false -> Py.contains c creator = false) /\
    (forall dir, joinpath dir creator = dir ++ [creator]) /\
    (forall dir, joinpath dir (creator +:+ "_itch") = dir ++ [creator +:+ "_itch"]).
Proof.
  exact (start_scrape_accepts_safe_names ∅ "job" (JDict [("creator", JStr "  Dev-42 ")])
           {| Server.reply_job_id := "job";
              Server.registry := <["job" := App.new_job]> ∅;
              Server.task := ("job", "dev-42") |} eq_refl).
Defined.

(** X23. Right after an accepted request, the status of the returned id is
    the fresh job ([running], no progress, total 0) and its download is
    answered 404 [Zip not ready]; the replies for every other id are what
    they were. *)
Theorem start_then_poll (file_exists : string -> bool) (jobs : gmap string App.Job)
        (uuid12 : string) (body : json) (r : Server.Started) :
  Server.start_scrape jobs uuid12 body = Server.Ok r ->
  Server.job_status (Server.registry r) (Server.reply_job_id r) = Server.Ok App.new_job /\
  Server.download_zip file_exists (Server.registry r) (Server.reply_job_id r)
  = Server.HTTPException 404 "Zip not ready" /\
  (forall other, other <> Server.reply_job_id r ->
     Server.job_status (Server.registry r) other = Server.job_status jobs other /\
     Server.download_zip file_exists (Server.registry r) other
     = Server.download_zip file_exists jobs other).
Proof.
  intros H. apply start_scrape_Ok_inv in H as (creator & -> & _ & _).
  cbn [Server.registry Server.reply_job_id].
  unfold Server.job_status, Server.download_zip.
  rewrite lookup_insert_eq. split; [reflexivity|]. split; [reflexivity|].
  intros other Hne. rewrite lookup_insert_ne by congruence. split; reflexivity.
Qed.

Lemma start_then_poll_witness :
  Server.job_status (<["job" := App.new_job]> ∅) "job" = Server.Ok App.new_job /\
  Server.download_zip (fun _ => true) (<["job" := App.new_job]> ∅) "job"
  = Server.HTTPException 404 "Zip not ready" /\
  (forall other, other <> "job" ->
     Server.job_status (<["job" := App.new_job]> ∅) other = Server.job_status ∅ other /\
     Server.download_zip (fun _ => true) (<["job" := App.new_job]> ∅) other
     = Server.download_zip (fun _ => true) ∅ other).
Proof.
  exact (start_then_poll (fun _ => true) ∅ "job" (JDict [("creator", JStr "dev")])
           {| Server.reply_job_id := "job";
              Server.registry := <["job" := App.new_job]> ∅;
              Server.task := ("job", "dev") |} eq_refl).
Defined.

(** X24. Once the task of a job that was registered by [start_scrape] has
    finished and left its job in the registry: if the job is in [error],
    its download is answered 404 [Zip not ready]; and a download that is
    served belongs to a [done] job, and is the file that [make_archive]
    returned for the output directory of that job, which exists. *)
Theorem download_after_task (w : World) (fuel : nat) (WORK_DIR : Path)
        (make_archive : Path -> Path -> exn + string) (describe : exn -> string)
        (file_exists : string -> bool)
        (jobs : gmap string App.Job) (job_id creator : string)
        (job job' : App.Job) (tr : list Event) :
  jobs !! job_id = Some job ->
  Server.pending job ->
  Server._run_scrape w fuel WORK_DIR make_archive describe jobs job_id creator
  = Server.Finished job' tr ->
  (App.status job' = "error" ->
   Server.download_zip file_exists (<[job_id := job']> jobs) job_id
   = Server.HTTPException 404 "Zip not ready") /\
  (forall resp,
     Server.download_zip file_exists (<[job_id := job']> jobs) job_id = Server.Ok resp ->
     App.status job' = "done" /\
     make_archive (joinpath (joinpath WORK_DIR job_id) (creator +:+ "_itch"))
                  (joinpath (joinpath WORK_DIR job_id) creator)
     = inr (Server.path resp) /\
     file_exists (Server.path resp) = true /\
     Server.media_type resp = "application/zip" /\
     Server.filename resp = Server.path_name (Server.path resp)).
Proof.
  intros Hj (Hs0 & He0 & Hz0) Hrun.
  unfold Server._run_scrape in Hrun. rewrite Hj in Hrun.
  pose proof (run_scrape_frame w fuel creator
                (joinpath (joinpath WORK_DIR job_id) creator) job) as (Hs & He & Hz).
  unfold Server.download_zip. rewrite lookup_insert_eq.
  destruct (scrape_creator _ _ _ _ _ _) as [[results|e|] st]; cbn [snd] in *;
    [destruct (make_archive _ _) as [e|zip_path] eqn:Ha| |discriminate Hrun];
    injection Hrun as <- <-; cbn [Server.failed Server.archived App.zip App.status].
  - rewrite Hz, Hz0. cbn. split; [reflexivity|]. intros resp H. discriminate H.
  - split; [intros H; discriminate H|]. intros resp.
    change (default "" (Some zip_path)) with zip_path.
    destruct (Py.truthy_opt (Some zip_path)); [|discriminate].
    destruct (file_exists zip_path) eqn:Hf; [|discriminate].
    intros H. injection H as <-. cbn. auto.
  - rewrite Hz, Hz0. cbn. split; [reflexivity|]. intros resp H. discriminate H.
Qed.

(** The two-project site: the archive is served. *)
Lemma download_after_task_witness :
  (App.status (Server.archived "/tmp/itch_scraper/job/dev_itch.zip"
                 {| App.status := "running"; App.progress := ["Alpha Quest"; "Beta"];
                    App.total := 2; App.error := None; App.zip := None |}) = "error" ->
   Server.download_zip (fun _ => true)
     (<["job" := Server.archived "/tmp/itch_scraper/job/dev_itch.zip"
                   {| App.status := "running"; App.progress := ["Alpha Quest"; "Beta"];
                      App.total := 2; App.error := None; App.zip := None |}]>
        DemoServer.jobs) "job"
   = Server.HTTPException 404 "Zip not ready") /\
  (forall resp,
     Server.download_zip (fun _ => true)
       (<["job" := Server.archived "/tmp/itch_scraper/job/dev_itch.zip"
                     {| App.status := "running"; App.progress := ["Alpha Quest"; "Beta"];
                        App.total := 2; App.error := None; App.zip := None |}]>
          DemoServer.jobs) "job" = Server.Ok resp ->
     App.status (Server.archived "/tmp/itch_scraper/job/dev_itch.zip"
                   {| App.status := "running"; App.progress := ["Alpha Quest"; "Beta"];
                      App.total := 2; App.error := None; App.zip := None |}) = "done" /\
     DemoServer.make_archive (joinpath (joinpath DemoServer.work_dir "job") "dev_itch")
                             (joinpath (joinpath DemoServer.work_dir "job") "dev")
     = inr (Server.path resp) /\
     true = true /\
     Server.media_type resp = "application/zip" /\
     Server.filename resp = Server.path_name (Server.path resp)).
Proof.
  apply (download_after_task Demo.world 5 DemoServer.work_dir DemoServer.make_archive
           DemoServer.describe (fun _ => true) DemoServer.jobs "job" "dev" App.new_job
           (Server.archived "/tmp/itch_scraper/job/dev_itch.zip"
              {| App.status := "running"; App.progress := ["Alpha Quest"; "Beta"];
                 App.total := 2; App.error := None; App.zip := None |})
           (trace (scrape_creator Demo.world 5 "dev" Demo.out (Some App.on_progress)
                                  (start App.new_job)).2)).
  - vm_compute. reflexivity.
  - repeat split.
  - vm_compute. reflexivity.
Defined.
